(** * funkyd: the query pipeline of the mutex server

    A shallow embedding of [mutex_server.go] and of the current [server.go]
    (the first revision in that file): [newConnection], [GetConnection],
    [attemptExchange], [RecursiveQuery], [RetrieveRecords], [HandleDNS],
    [processResults], [sendServfail] and [logQuery].

    The server talks to collaborators that are Go interfaces ([ConnPool],
    [Client], [ResponseWriter]) or that come from other files and libraries
    (the record cache, the semaphore, the clock).  They are kept abstract: a type [W] of collaborator states and, for every call the server
    makes, a transition on [W].  Every call the server code makes on a
    collaborator, a metric or a logger is recorded as an [Event], in program
    order, so that statements such as "the pool is asked once" or "nothing is
    written to the client" are statements about the list of events of a run.
    A Go panic is an outcome of its own.

    Besides the query pipeline the file embeds [ParseZoneFile] and
    [WaitForCondition] (utils_test.go), the start of the server
    ([NewMutexServer], [AddUpstream], [BuildClient]), the logging wrapper of
    the first revisions, and the two earlier revisions of server.go: the
    first, which asks each resolver with a fresh exchange, and the second,
    which keeps connections in a pool keyed by address. *)

From stdpp Require Import base option list strings.
From Stdlib Require Import ZArith Ascii String.

Open Scope Z_scope.
Open Scope string_scope.
Open Scope list_scope.

(** ** Messages of the DNS library

    [dns.Msg], [dns.Question] and [dns.RR] belong to github.com/miekg/dns.
    The records keep the header bits and sections the server reads or writes;
    the functions below follow the library's [SetQuestion], [SetReply],
    [SetRcode], [Copy] and [RR_Header.String]. *)
Module Dns.

Record Question := mkQuestion {
  QName : string;
  Qtype : Z;
  Qclass : Z;
}.

Record RR_Header := mkHeader {
  HName : string;
  Rrtype : Z;
  HClass : Z;
  HTtl : Z;
}.

(** An [RR] is its header plus the text of its rdata as [String()] prints
    it ("1.2.3.4" for an A record, "10 mail.example.com." for an MX). *)
Record RR := mkRR {
  Hdr : RR_Header;
  Rdata : string;
}.

Record Msg := mkMsg {
  Id : Z;
  Response : bool;
  Opcode : Z;
  Authoritative : bool;
  Truncated : bool;
  RecursionDesired : bool;
  RecursionAvailable : bool;
  Zero : bool;
  AuthenticatedData : bool;
  CheckingDisabled : bool;
  Rcode : Z;
  Question_ : list Question;
  Answer : list RR;
  Ns : list RR;
  Extra : list RR;
}.

Definition OpcodeQuery : Z := 0.
Definition RcodeSuccess : Z := 0.
Definition RcodeServerFailure : Z := 2.
Definition ClassINET : Z := 1.

(** [dns.Msg{}], the zero value. *)
Definition zeroMsg : Msg :=
  mkMsg 0 false 0 false false false false false false false 0 [] [] [] [].

Definition with_Rcode (rc : Z) (m : Msg) : Msg :=
  mkMsg (Id m) (Response m) (Opcode m) (Authoritative m) (Truncated m)
    (RecursionDesired m) (RecursionAvailable m) (Zero m) (AuthenticatedData m)
    (CheckingDisabled m) rc (Question_ m) (Answer m) (Ns m) (Extra m).

Definition with_RecursionDesired (b : bool) (m : Msg) : Msg :=
  mkMsg (Id m) (Response m) (Opcode m) (Authoritative m) (Truncated m)
    b (RecursionAvailable m) (Zero m) (AuthenticatedData m)
    (CheckingDisabled m) (Rcode m) (Question_ m) (Answer m) (Ns m) (Extra m).

Definition with_Authoritative (b : bool) (m : Msg) : Msg :=
  mkMsg (Id m) (Response m) (Opcode m) b (Truncated m)
    (RecursionDesired m) (RecursionAvailable m) (Zero m) (AuthenticatedData m)
    (CheckingDisabled m) (Rcode m) (Question_ m) (Answer m) (Ns m) (Extra m).

Definition with_RecursionAvailable (b : bool) (m : Msg) : Msg :=
  mkMsg (Id m) (Response m) (Opcode m) (Authoritative m) (Truncated m)
    (RecursionDesired m) b (Zero m) (AuthenticatedData m)
    (CheckingDisabled m) (Rcode m) (Question_ m) (Answer m) (Ns m) (Extra m).

(** [m.SetQuestion(z, t)]: a fresh id (drawn by the caller from [dns.Id()]),
    the rd bit, and a question section of exactly one entry. *)
Definition SetQuestion (fresh_id : Z) (z : string) (t : Z) (m : Msg) : Msg :=
  mkMsg fresh_id (Response m) (Opcode m) (Authoritative m) (Truncated m)
    true (RecursionAvailable m) (Zero m) (AuthenticatedData m)
    (CheckingDisabled m) (Rcode m) [mkQuestion z t ClassINET]
    (Answer m) (Ns m) (Extra m).

(** [m.SetReply(request)]: id and opcode of the request, the response bit,
    rd and cd copied for a standard query, rcode success, and, when the
    request has a question, a one-entry question section holding the
    request's FIRST question.  The aa and ra bits and the answer sections of
    [m] are left as they are. *)
Definition SetReply (request : Msg) (m : Msg) : Msg :=
  let std := Z.eqb (Opcode request) OpcodeQuery in
  mkMsg (Id request) true (Opcode request) (Authoritative m) (Truncated m)
    (if std then RecursionDesired request else RecursionDesired m)
    (RecursionAvailable m) (Zero m) (AuthenticatedData m)
    (if std then CheckingDisabled request else CheckingDisabled m)
    RcodeSuccess
    (match Question_ request with
     | q :: _ => [q]
     | [] => Question_ m
     end)
    (Answer m) (Ns m) (Extra m).

(** [m.SetRcode(request, rcode)] is [SetReply] followed by the rcode. *)
Definition SetRcode (request : Msg) (rcode : Z) (m : Msg) : Msg :=
  with_Rcode rcode (SetReply request m).

(** [m.Copy()] is a deep copy; records are values, so it is the identity. *)
Definition Copy (m : Msg) : Msg := m.

(** Decimal rendering, as [strconv.FormatInt(_, 10)] on a non-negative
    number. *)
Definition digit (n : nat) : ascii := ascii_of_nat (48 + n).

Fixpoint itoa_go (fuel : nat) (n : nat) (acc : string) : string :=
  match fuel with
  | O => acc
  | S fuel' =>
      let acc' := String (digit (n mod 10)) acc in
      if Nat.ltb n 10 then acc' else itoa_go fuel' (n / 10) acc'
  end.

Definition itoa (z : Z) : string :=
  let n := Z.to_nat z in itoa_go (S n) n "".

(** [ClassToString] and [TypeToString], the library's tables of mnemonics.
    The types are those the library knew when the server was written; what
    it added later (APL, SVCB, HTTPS, ZONEMD and others) is left out. *)
Definition ClassToString : list (Z * string) :=
  [(1, "IN"); (2, "CS"); (3, "CH"); (4, "HS"); (254, "NONE"); (255, "ANY")].

Definition TypeToString : list (Z * string) :=
  [(0, "None"); (1, "A"); (2, "NS"); (3, "MD"); (4, "MF"); (5, "CNAME");
   (6, "SOA"); (7, "MB"); (8, "MG"); (9, "MR"); (10, "NULL"); (12, "PTR");
   (13, "HINFO"); (14, "MINFO"); (15, "MX"); (16, "TXT"); (17, "RP");
   (18, "AFSDB"); (19, "X25"); (20, "ISDN"); (21, "RT"); (23, "NSAP-PTR");
   (24, "SIG"); (25, "KEY"); (26, "PX"); (27, "GPOS"); (28, "AAAA");
   (29, "LOC"); (30, "NXT"); (31, "EID"); (32, "NIMLOC"); (33, "SRV");
   (34, "ATMA"); (35, "NAPTR"); (36, "KX"); (37, "CERT"); (39, "DNAME");
   (41, "OPT"); (43, "DS"); (44, "SSHFP"); (46, "RRSIG"); (47, "NSEC");
   (48, "DNSKEY"); (49, "DHCID"); (50, "NSEC3"); (51, "NSEC3PARAM");
   (52, "TLSA"); (53, "SMIMEA"); (55, "HIP"); (56, "NINFO"); (57, "RKEY");
   (58, "TALINK"); (59, "CDS"); (60, "CDNSKEY"); (61, "OPENPGPKEY");
   (62, "CSYNC"); (99, "SPF"); (100, "UINFO"); (101, "UID"); (102, "GID");
   (103, "UNSPEC"); (104, "NID"); (105, "L32"); (106, "L64"); (107, "LP");
   (108, "EUI48"); (109, "EUI64"); (249, "TKEY"); (250, "TSIG");
   (251, "IXFR"); (252, "AXFR"); (253, "MAILB"); (254, "MAILA");
   (255, "ANY"); (256, "URI"); (257, "CAA"); (258, "AVC"); (32768, "TA");
   (32769, "DLV"); (65535, "Reserved")].

(** A map literal read at a key. *)
Fixpoint table_lookup (k : Z) (table : list (Z * string)) : option string :=
  match table with
  | [] => None
  | (k', s) :: table' => if Z.eqb k k' then Some s else table_lookup k table'
  end.

(** Whether a text is a value of a map literal. *)
Fixpoint table_has (s : string) (table : list (Z * string)) : bool :=
  match table with
  | [] => false
  | (_, s') :: table' => if String.eqb s s' then true else table_has s table'
  end.

(** [Class.String()]: the mnemonic when the class has one that is not the
    mnemonic of a type as well (ANY is), [CLASS] and the number
    otherwise. *)
Definition Class_String (c : Z) : string :=
  match table_lookup c ClassToString with
  | Some s => if table_has s TypeToString then "CLASS" +:+ itoa c else s
  | None => "CLASS" +:+ itoa c
  end.

(** [Type.String()]: the mnemonic when the type has one, [TYPE] and the
    number otherwise. *)
Definition Type_String (t : Z) : string :=
  match table_lookup t TypeToString with
  | Some s => s
  | None => "TYPE" +:+ itoa t
  end.

Definition TAB : string := String (ascii_of_nat 9) "".

(** [RR_Header.String()]: name, ttl, class and type, each followed by a
    TAB. *)
Definition Header_String (h : RR_Header) : string :=
  HName h +:+ TAB +:+ itoa (HTtl h) +:+ TAB +:+ Class_String (HClass h) +:+ TAB
   +:+ Type_String (Rrtype h) +:+ TAB.

(** [rr.String()]: the header followed by the rdata. *)
Definition RR_String (rr : RR) : string := Header_String (Hdr rr) +:+ Rdata rr.

End Dns.

(** ** Data model of the server *)

(** Go's [error]: [None] is [nil], [Some msg] an error whose [Error()] text
    is [msg]. *)
Definition error := option string.

(** [Upstream].  The declaration is not among the source files; the server
    builds [Upstream{Name: name}], compares against [Upstream{}] and calls
    [GetAddress], and the data model lists name, weight and address. *)
Record Upstream := mkUpstream {
  Name : string;
  Weight : Z;
  Address : string;
}.

Definition zeroUpstream : Upstream := mkUpstream "" 0 "".

#[global] Instance Upstream_eq_dec : EqDecision Upstream.
Proof. solve_decision. Defined.

(** Modelled from the spec: [Upstream.GetAddress], whose body is not among
    the source files.  "Address is derived as name:853 if unset." *)
Definition Upstream_GetAddress (u : Upstream) : string :=
  if decide (Address u = "") then Name u +:+ ":853" else Address u.

(** A transport handle ([*dns.Conn]). *)
Definition DnsConn := nat.

(** [ConnEntry]: the server reads the field [Conn] (an interface value,
    [None] when nil) and builds the zero value [ConnEntry{}]; the remaining
    fields are those of the data model: the upstream and the health
    counters. *)
Record ConnEntry := mkConnEntry {
  Conn : option DnsConn;
  CEUpstream : Upstream;
  totalRTT : Z;
  exchanges : Z;
  errors : Z;
}.

Definition zeroConnEntry : ConnEntry := mkConnEntry None zeroUpstream 0 0 0.

(** Modelled from the spec: [ConnEntry.GetAddress], [ConnEntry.AddExchange]
    and [ConnEntry.AddError], whose bodies are not among the source files.
    The address is the upstream's; an exchange adds its round-trip time to
    [total_rtt] and one to [exchanges]; an error adds one to [errors]. *)
Definition ConnEntry_GetAddress (ce : ConnEntry) : string :=
  Upstream_GetAddress (CEUpstream ce).

Definition AddExchange (rtt : Z) (ce : ConnEntry) : ConnEntry :=
  mkConnEntry (Conn ce) (CEUpstream ce) (totalRTT ce + rtt) (exchanges ce + 1) (errors ce).

Definition AddError (ce : ConnEntry) : ConnEntry :=
  mkConnEntry (Conn ce) (CEUpstream ce) (totalRTT ce) (exchanges ce) (errors ce + 1).

(** A [*ConnEntry] is [None] for nil and [Some ce] otherwise.  An entry is
    held by one owner at a time (the pool hands it out, the server updates
    it and hands it back to [Add] or [CloseConnection]), so the pointer is
    modelled by the value it points to at the moment it is passed on. *)
Definition ConnEntryPtr := option ConnEntry.

(** [&ConnEntry{}] *)
Definition newZeroConnEntry : ConnEntryPtr := Some zeroConnEntry.

(** [Response]: the fields are those [ParseZoneFile] fills in. *)
Record Response := mkResponse {
  Key : string;
  Entry : Dns.Msg;
  Ttl : Z;
  CreationTime : Z;
  RQtype : Z;
}.

(** [Response{}] *)
Definition zeroResponse : Response := mkResponse "" Dns.zeroMsg 0 0 0.

(** The part of [Configuration] the query pipeline reads.  Go's [int] is
    taken as an integer of [Z]: the loop counter of [RecursiveQuery] stays
    below 2^63 for every retry count short of the largest [int]. *)
Record Configuration := mkConfiguration {
  UpstreamRetries : Z;
  ConcurrentQueries : Z;
}.

(** ** Events: what the server does to the outside *)

Inductive LogLevel := NOLOG | CRITICAL | ERROR | WARNING | INFO | DEBUG.

Inductive Metric :=
| TotalDnsQueriesCounter
| CacheHitsCounter
| HostedCacheHitsCounter
| RecursiveQueryCounter
| LocalServfailsCounter
| UpstreamErrorsCounter (address : string)
| ReusedConnectionsCounter (address : string).

Inductive Timer :=
| ExchangeTimer (address : string)
| QueryTimer.

(** The two caches of a [MutexServer]: [s.Cache] and [s.HostedCache]. *)
Inductive CacheId := LookupCache | HostedCache.

Definition ResponseWriter := nat.

(** One record of the query log: the [LogContext] built by [logQuery].
    [qr_type] and [qr_opcode] stand for their renderings through the
    library's tables, [qr_duration] for the rendering of the duration. *)
Record QueryRecord := mkQueryRecord {
  qr_name : string;
  qr_type : Z;
  qr_opcode : Z;
  qr_answer : string;
  qr_answerSource : string;
  qr_duration : Z;
}.

(** A call on a collaborator is recorded with its arguments and with what
    the collaborator answered. *)
Inductive Event :=
| EvPoolGet (ce : ConnEntryPtr) (u : Upstream) (err : error)
| EvPoolNewConnection (u : Upstream) (ce : ConnEntryPtr) (err : error)
| EvPoolAdd (ce : ConnEntryPtr) (err : error)
| EvPoolCloseConnection (ce : ConnEntryPtr)
| EvExchange (m : Dns.Msg) (conn : DnsConn)
    (reply : option Dns.Msg) (rtt : Z) (err : error)
| EvCacheGet (c : CacheId) (domain : string) (rrtype : Z)
    (r : Response) (ok : bool)
| EvCacheAdd (c : CacheId) (r : Response)
| EvSemAcquire (err : error)
| EvSemRelease
| EvInc (m : Metric)
| EvGaugeInc
| EvGaugeDec
| EvObserve (t : Timer) (d : Z)
| EvLog (l : LogLevel) (what : string)
| EvQueryLog (r : QueryRecord)
| EvWriteMsg (w : ResponseWriter) (m : Dns.Msg).

#[global] Instance Metric_eq_dec : EqDecision Metric.
Proof. solve_decision. Defined.

#[global] Instance LogLevel_eq_dec : EqDecision LogLevel.
Proof. solve_decision. Defined.

#[global] Instance CacheId_eq_dec : EqDecision CacheId.
Proof. solve_decision. Defined.

(** ** The monad of server code

    A computation takes the collaborators' state and yields an outcome
    ([None] when the goroutine panicked), the collaborators' new state and
    the events it performed, oldest first. *)
Record Res (W A : Type) := mkRes {
  outcome : option A;
  world : W;
  events : list Event;
}.
Arguments mkRes {W A} _ _ _.
Arguments outcome {W A} _.
Arguments world {W A} _.
Arguments events {W A} _.

Definition M (W A : Type) : Type := W -> Res W A.

Definition ret {W A} (a : A) : M W A := fun w => mkRes (Some a) w [].

Definition bind {W A B} (m : M W A) (k : A -> M W B) : M W B :=
  fun w =>
    match m w with
    | mkRes None w1 evs1 => mkRes None w1 evs1
    | mkRes (Some a) w1 evs1 =>
        match k a w1 with
        | mkRes o w2 evs2 => mkRes o w2 (evs1 ++ evs2)
        end
    end.

Declare Scope server_scope.
Delimit Scope server_scope with server.
Notation "'let*' x ':=' m 'in' k" := (bind m (fun x => k))
  (at level 10, x name, m at level 100, k at level 200) : server_scope.
Notation "'let*' ' p ':=' m 'in' k" := (bind m (fun x => let 'p := x in k))
  (at level 10, p pattern, m at level 100, k at level 200) : server_scope.
Notation "m >> k" := (bind m (fun _ => k))
  (at level 100, k at level 200, right associativity) : server_scope.
Open Scope server_scope.

(** A Go panic: the computation stops where it is. *)
Definition panic {W A} : M W A := fun w => mkRes None w [].

(** A call that only leaves a mark: a metric, a log line. *)
Definition emit {W} (e : Event) : M W unit := fun w => mkRes (Some tt) w [e].

(** A call on a collaborator: its answer, and the event that records it. *)
Definition call {W A} (f : W -> A * W) (ev : A -> Event) : M W A :=
  fun w => let '(a, w') := f w in mkRes (Some a) w' [ev a].

(** A silent read of the environment (the clock, the id generator). *)
Definition ask {W A} (f : W -> A * W) : M W A :=
  fun w => let '(a, w') := f w in mkRes (Some a) w' [].

(** [defer fin] around [body]: [fin] runs when [body] returns and also when
    it panics. *)
Definition defer {W A} (fin : M W unit) (body : M W A) : M W A :=
  fun w =>
    match body w with
    | mkRes o w1 evs1 =>
        match fin w1 with
        | mkRes _ w2 evs2 => mkRes o w2 (evs1 ++ evs2)
        end
    end.

(** [xs[0]]: a run-time panic when the slice is empty. *)
Definition index0 {W A} (xs : list A) : M W A :=
  match xs with
  | x :: _ => ret x
  | [] => panic
  end.

(** [*p] and method calls through [p]: a panic on nil. *)
Definition deref {W A} (p : option A) : M W A :=
  match p with
  | Some a => ret a
  | None => panic
  end.

(** ** The collaborators *)

(** The [ConnPool] interface, as [MutexServer] calls it.  [NewConnection]
    receives the dial function. *)
Class ConnPool (W : Type) := {
  pool_Get : W -> (ConnEntryPtr * Upstream * error) * W;
  pool_NewConnection :
    Upstream -> (string -> W -> (option DnsConn * error) * W) ->
    W -> (ConnEntryPtr * error) * W;
  pool_Add : ConnEntryPtr -> W -> error * W;
  pool_CloseConnection : ConnEntryPtr -> W -> unit * W;
}.

(** The [Client] interface.  The reply is a pointer: [None] is nil. *)
Class Client (W : Type) := {
  client_Dial : string -> W -> (option DnsConn * error) * W;
  client_ExchangeWithConn :
    Dns.Msg -> DnsConn -> W -> (option Dns.Msg * Z * error) * W;
}.

(** What else the server calls: [RecordCache.Get] and [RecordCache.Add] on
    either cache, the semaphore, [ResponseWriter.WriteMsg], [time.Now] and
    [dns.Id]. *)
Class Runtime (W : Type) := {
  cache_Get : CacheId -> string -> Z -> W -> (Response * bool) * W;
  cache_Add : CacheId -> Response -> W -> unit * W;
  sem_Acquire : W -> error * W;
  sem_Release : W -> unit * W;
  writer_WriteMsg : ResponseWriter -> Dns.Msg -> W -> error * W;
  time_Now : W -> Z * W;
  dns_Id : W -> Z * W;
}.

(** [for _, x := range xs { body }] *)
Fixpoint forEach {W A} (xs : list A) (body : A -> M W unit) : M W unit :=
  match xs with
  | [] => ret tt
  | x :: xs' => body x >> forEach xs' body
  end.

(** [strings.Split(s, sep)] for a separator of one byte: the pieces between
    the occurrences of [sep]; one piece, [s] itself, when there is none. *)
Fixpoint Split (sep : ascii) (s : string) : list string :=
  match s with
  | EmptyString => [""]
  | String c s' =>
      if decide (c = sep) then "" :: Split sep s'
      else match Split sep s' with
           | p :: ps => String c p :: ps
           | [] => [String c ""]
           end
  end.

Definition SPACE : ascii := ascii_of_nat 32.

(** The newline of the format strings. *)
Definition NL : string := String (ascii_of_nat 10) "".

(** ** mutex_server.go and server.go *)
Section MutexServer.

Context {W : Type} `{!ConnPool W, !Client W, !Runtime W}.

(** [GetConfiguration()] *)
Variable config : Configuration.

Definition Logger_Log (l : LogLevel) (what : string) : M W unit :=
  emit (EvLog l what).

Definition Inc (m : Metric) : M W unit := emit (EvInc m).

(** [func (s *MutexServer) newConnection(upstream Upstream)] *)
Definition newConnection (upstream : Upstream) : M W (ConnEntryPtr * error) :=
  let* '(ce, err) :=
    call (pool_NewConnection upstream client_Dial)
         (fun '(ce, err) => EvPoolNewConnection upstream ce err) in
  match err with
  | Some e =>
      let address := Upstream_GetAddress upstream in
      Logger_Log DEBUG "could not make new connection to upstream" >>
      ret (newZeroConnEntry,
           Some ("could not connect to upstream [" +:+ address +:+ "]: " +:+ e))
  | None => ret (ce, None)
  end.

(** The tail of [GetConnection], from the comment "cache hit" on. *)
Definition GetConnection_hit (ce : ConnEntryPtr) : M W (ConnEntryPtr * error) :=
  let* entry := deref ce in
  let address := ConnEntry_GetAddress entry in
  Inc (ReusedConnectionsCounter address) >>
  Logger_Log INFO "got connection to from connection pool" >>
  ret (ce, None).

(** [func (s *MutexServer) GetConnection()] *)
Definition GetConnection : M W (ConnEntryPtr * error) :=
  let* '(ce, upstream, err) :=
    call pool_Get (fun '(ce, upstream, err) => EvPoolGet ce upstream err) in
  match err with
  | None =>
      if decide (upstream <> zeroUpstream) then
        (* cache miss, no error *)
        Logger_Log INFO "creating new connection" >>
        let* '(ce', err') := newConnection upstream in
        match err' with
        | Some e => ret (newZeroConnEntry, Some e)
        | None => GetConnection_hit ce'
        end
      else GetConnection_hit ce
  | Some e =>
      (* error *)
      ret (newZeroConnEntry, Some e)
  end.

(** [func (s *MutexServer) attemptExchange(m *dns.Msg)] *)
Definition attemptExchange (m : Dns.Msg)
  : M W (ConnEntryPtr * option Dns.Msg * error) :=
  let* '(ce, err) := GetConnection in
  match err with
  | Some e =>
      Logger_Log INFO "error getting connection from pool" >>
      ret (ce, None, Some ("error getting connection from pool: " +:+ e))
  | None =>
      let* entry := deref ce in
      let address := ConnEntry_GetAddress entry in
      let* t0 := ask time_Now in
      let* conn := deref (Conn entry) in
      let* '(reply, rtt, err) :=
        call (client_ExchangeWithConn m conn)
             (fun '(reply, rtt, err) => EvExchange m conn reply rtt err) in
      let* t1 := ask time_Now in
      emit (EvObserve (ExchangeTimer address) (t1 - t0)) >>
      let entry := AddExchange rtt entry in
      match err with
      | Some e =>
          let entry := AddError entry in
          call (pool_CloseConnection (Some entry))
               (fun _ => EvPoolCloseConnection (Some entry)) >>
          Inc (UpstreamErrorsCounter address) >>
          let* q := index0 (Dns.Question_ m) in
          let what := "error looking up domain [" +:+ Dns.QName q
                        +:+ "] on server [" +:+ address +:+ "]" in
          Logger_Log DEBUG what >>
          (* try the next one *)
          let* q := index0 (Dns.Question_ m) in
          ret (newZeroConnEntry, Some Dns.zeroMsg,
               Some ("error looking up domain [" +:+ Dns.QName q
                       +:+ "] on server [" +:+ address +:+ "]"))
      | None => ret (Some entry, reply, None)
      end
  end.

(** [func processResults(r dns.Msg, domain string, rrtype uint16)]: the
    composite literal names [Entry], [CreationTime], [Key] and [Qtype];
    [Ttl] keeps its zero value. *)
Definition processResults (r : Dns.Msg) (domain : string) (rrtype : Z)
  : M W (Response * error) :=
  let* now := ask time_Now in
  ret (mkResponse domain r 0 now rrtype, None).

(** The loop [for i := 0; i <= config.UpstreamRetries; i++] of
    [RecursiveQuery]; [n] counts the values of [i] still to come, and the
    triple is the current value of [ce], [r] and [err]. *)
Fixpoint retryLoop (n : nat) (m : Dns.Msg)
    (cur : ConnEntryPtr * option Dns.Msg * error)
  : M W (ConnEntryPtr * option Dns.Msg * error) :=
  match n with
  | O => ret cur
  | S n' =>
      let* '(ce, r, err) := attemptExchange m in
      match err with
      | None => ret (ce, r, None)   (* break *)
      | Some e =>
          Logger_Log WARNING "failed exchange with upstreams" >>
          (* continue trying *)
          retryLoop n' m (ce, r, Some e)
      end
  end.

(** [func (s *MutexServer) RecursiveQuery(domain string, rrtype uint16)] *)
Definition RecursiveQuery (domain : string) (rrtype : Z)
  : M W (Response * string * error) :=
  Inc RecursiveQueryCounter >>
  let* id := ask dns_Id in
  let m := Dns.SetQuestion id domain rrtype Dns.zeroMsg in
  let m := Dns.with_RecursionDesired true m in
  let* '(ce, r, err) :=
    retryLoop (Z.to_nat (UpstreamRetries config + 1)) m (None, None, None) in
  match err with
  | Some e =>
      (* we failed to complete any exchanges *)
      Logger_Log ERROR "failed to complete any exchanges with upstreams" >>
      ret (zeroResponse, "",
           Some ("failed to complete any exchanges with upstreams: " +:+ e))
  | None =>
      let* adderr := call (pool_Add ce) (EvPoolAdd ce) in
      match adderr with
      | Some _ =>
          Logger_Log ERROR
            "could not add connection entry to pool (enable debug logging for variable value)!"
      | None => ret tt
      end >>
      (* this one worked, proceeding *)
      let* msg := deref r in
      let* '(reply, err) := processResults msg domain rrtype in
      let* entry := deref ce in
      ret (reply, ConnEntry_GetAddress entry, err)
  end.

(** [func (s *MutexServer) RetrieveRecords(domain string, rrtype uint16)] *)
Definition RetrieveRecords (domain : string) (rrtype : Z)
  : M W (Response * string * error) :=
  (* First: check caches *)
  let* '(cached_response, ok) :=
    call (cache_Get LookupCache domain rrtype)
         (fun '(r, ok) => EvCacheGet LookupCache domain rrtype r ok) in
  if (ok : bool) then
    Inc CacheHitsCounter >>
    ret (cached_response, "cache", None)
  else
    (* Now check the hosted cache *)
    let* '(cached_response, ok) :=
      call (cache_Get HostedCache domain rrtype)
           (fun '(r, ok) => EvCacheGet HostedCache domain rrtype r ok) in
    if (ok : bool) then
      Inc HostedCacheHitsCounter >>
      ret (cached_response, "cache", None)
    else
      (* Next, query upstream if there's no cache *)
      let* '(response, source, err) := RecursiveQuery domain rrtype in
      match err with
      | Some e =>
          ret (response, "",
               Some ("error running recursive query on domain [" +:+ domain
                       +:+ "]: " +:+ e +:+ NL))
      | None =>
          call (cache_Add LookupCache response)
               (fun _ => EvCacheAdd LookupCache response) >>
          ret (response, source, None)
      end.

(** [func logQuery(source string, duration time.Duration, response *dns.Msg)] *)
Definition logQuery (source : string) (duration : Z) (response : Dns.Msg)
  : M W error :=
  forEach (Dns.Question_ response) (fun q =>
    forEach (Dns.Answer response) (fun a =>
      let answerBits := Split SPACE (Dns.RR_String a) in
      let* answer := deref (last answerBits) in
      emit (EvQueryLog
              (mkQueryRecord (Dns.QName q) (Dns.Qtype q) (Dns.Opcode response)
                 answer ("[" +:+ source +:+ "]") duration)))) >>
  ret None.

(** [func sendServfail(w ResponseWriter, duration time.Duration, r *dns.Msg)] *)
Definition sendServfail (w : ResponseWriter) (duration : Z) (r : Dns.Msg)
  : M W unit :=
  Inc LocalServfailsCounter >>
  let m := Dns.SetRcode r Dns.RcodeServerFailure Dns.zeroMsg in
  call (writer_WriteMsg w m) (fun _ => EvWriteMsg w m) >>
  logQuery "servfail" duration m >>
  ret tt.

(** [func (s *MutexServer) HandleDNS(w ResponseWriter, r *dns.Msg)].  The
    goroutine it starts is run in place: one query is followed from its
    arrival to its reply. *)
Definition HandleDNS (w : ResponseWriter) (r : Dns.Msg) : M W unit :=
  Inc TotalDnsQueriesCounter >>
  (* we got this query, but it isn't getting handled until we get the sem *)
  emit EvGaugeInc >>
  let* t0 := ask time_Now in
  let msg := Dns.SetReply r Dns.zeroMsg in
  let* q0 := index0 (Dns.Question_ msg) in
  let domain := Dns.QName q0 in
  let msg := Dns.with_Authoritative false msg in
  let msg := Dns.with_RecursionAvailable true msg in
  let* err := call sem_Acquire EvSemAcquire in
  match err with
  | Some _ =>
      Logger_Log CRITICAL "failed to acquire semaphore allowing queries to progress" >>
      panic
  | None =>
      defer (call sem_Release (fun _ => EvSemRelease))
        ((* the query is now in motion, no longer queued *)
         emit EvGaugeDec >>
         let* rq0 := index0 (Dns.Question_ r) in
         let* '(response, source, err) := RetrieveRecords domain (Dns.Qtype rq0) in
         match err with
         | Some _ =>
             Logger_Log ERROR "error retrieving record for domain" >>
             let* t1 := ask time_Now in
             let duration := t1 - t0 in
             emit (EvObserve QueryTimer duration) >>
             sendServfail w duration r
         | None =>
             let reply := Dns.Copy (Entry response) in
             (* this calls reply.SetReply() as well *)
             let reply := Dns.SetRcode r (Dns.Rcode (Entry response)) reply in
             call (writer_WriteMsg w reply) (fun _ => EvWriteMsg w reply) >>
             let* t1 := ask time_Now in
             let duration := t1 - t0 in
             emit (EvObserve QueryTimer duration) >>
             logQuery source duration reply >>
             ret tt
         end)
  end.

End MutexServer.

(** ** Reading a run: what the events say *)

Fixpoint count (p : Event -> bool) (evs : list Event) : nat :=
  match evs with
  | [] => O
  | e :: evs' => if p e then S (count p evs') else count p evs'
  end.

Definition is_PoolGet (e : Event) : bool :=
  match e with EvPoolGet _ _ _ => true | _ => false end.

Definition is_Inc (m : Metric) (e : Event) : bool :=
  match e with EvInc m' => bool_decide (m' = m) | _ => false end.

(** A collaborator answered with an error: the pool on [Get], the pool on
    [NewConnection] (the dial), or the client on the exchange. *)
Definition is_failure (e : Event) : bool :=
  match e with
  | EvPoolGet _ _ (Some _) => true
  | EvPoolNewConnection _ _ (Some _) => true
  | EvExchange _ _ _ _ (Some _) => true
  | _ => false
  end.

(** Every call of [attemptExchange] asks the pool for a connection once, and
    nothing else in the server does: the calls of [connPool.Get] are the
    exchange attempts of a run. *)
Definition attempts_made (evs : list Event) : nat := count is_PoolGet evs.

(** An attempt fails on the first error a collaborator answers, so the
    errors answered are the failed attempts. *)
Definition attempts_failed (evs : list Event) : nat := count is_failure evs.

(** How often a counter was incremented. *)
Definition increments (m : Metric) (evs : list Event) : nat :=
  count (is_Inc m) evs.

(** The messages written to the client, oldest first. *)
Definition writes (evs : list Event) : list (ResponseWriter * Dns.Msg) :=
  omap (fun e => match e with EvWriteMsg w m => Some (w, m) | _ => None end) evs.

(** The responses inserted into a cache. *)
Definition cache_inserts (c : CacheId) (evs : list Event) : list Response :=
  omap (fun e => match e with
                 | EvCacheAdd c' r => if decide (c' = c) then Some r else None
                 | _ => None
                 end) evs.

(** The lookups made in the caches, in order. *)
Definition cache_lookups (evs : list Event) : list CacheId :=
  omap (fun e => match e with EvCacheGet c _ _ _ _ => Some c | _ => None end) evs.

(** The entries handed back to the pool with [Add], and those handed to
    [CloseConnection]. *)
Definition pool_adds (evs : list Event) : list ConnEntryPtr :=
  omap (fun e => match e with EvPoolAdd ce _ => Some ce | _ => None end) evs.

Definition pool_closes (evs : list Event) : list ConnEntryPtr :=
  omap (fun e => match e with EvPoolCloseConnection ce => Some ce | _ => None end) evs.

(** The exchanges run on the client. *)
Definition exchanges_run (evs : list Event) : list (Dns.Msg * DnsConn) :=
  omap (fun e => match e with EvExchange m c _ _ _ => Some (m, c) | _ => None end) evs.

(** The entry an attempt works with: the last one the pool handed out, from
    [Get] on a hit or from [NewConnection] after a miss. *)
Definition acquired (evs : list Event) : option ConnEntryPtr :=
  last (omap (fun e => match e with
                       | EvPoolGet ce _ None => Some ce
                       | EvPoolNewConnection _ ce None => Some ce
                       | _ => None
                       end) evs).

(** The records of the query log. *)
Definition query_records (evs : list Event) : list QueryRecord :=
  omap (fun e => match e with EvQueryLog r => Some r | _ => None end) evs.

(** A successful exchange: the client answered without an error. *)
Definition is_success (e : Event) : bool :=
  match e with EvExchange _ _ _ _ None => true | _ => false end.

(** The events of the connection layer: what [attemptExchange] and the
    retry loop around it may do.  Writing to the client, the caches, the
    query log, [connPool.Add] and the counters of the query layer are not
    among them. *)
Definition connection_level (e : Event) : bool :=
  match e with
  | EvPoolGet _ _ _ | EvPoolNewConnection _ _ _ | EvPoolCloseConnection _
  | EvExchange _ _ _ _ _ | EvObserve (ExchangeTimer _) _
  | EvInc (UpstreamErrorsCounter _) | EvInc (ReusedConnectionsCounter _)
  | EvLog _ _ => true
  | _ => false
  end.

Definition all_connection_level (evs : list Event) : Prop :=
  Forall (fun e => connection_level e = true) evs.

(** The events of [RecursiveQuery]: those of the connection layer, its own
    counter and the return of the entry to the pool. *)
Definition recursive_level (e : Event) : bool :=
  match e with
  | EvInc RecursiveQueryCounter | EvPoolAdd _ _ => true
  | _ => connection_level e
  end.

Definition all_recursive_level (evs : list Event) : Prop :=
  Forall (fun e => recursive_level e = true) evs.

(** The message [RecursiveQuery] sends upstream. *)
Definition upstream_query (id : Z) (domain : string) (rrtype : Z) : Dns.Msg :=
  Dns.with_RecursionDesired true (Dns.SetQuestion id domain rrtype Dns.zeroMsg).

Definition add_failed_log : string :=
  "could not add connection entry to pool (enable debug logging for variable value)!".

(** The answer field [logQuery] derives from an RR. *)
Definition answer_field (a : Dns.RR) : string :=
  default "" (last (Split SPACE (Dns.RR_String a))).

(** The records [logQuery] emits for a message. *)
Definition records_of (source : string) (duration : Z) (m : Dns.Msg) : list QueryRecord :=
  flat_map (fun q =>
    map (fun a => mkQueryRecord (Dns.QName q) (Dns.Qtype q) (Dns.Opcode m)
                    (answer_field a) ("[" +:+ source +:+ "]") duration)
        (Dns.Answer m))
    (Dns.Question_ m).

(** The SERVFAIL reply to a request. *)
Definition servfail_for (r : Dns.Msg) : Dns.Msg :=
  Dns.SetRcode r Dns.RcodeServerFailure Dns.zeroMsg.

(** The reply built from a cached or fresh response. *)
Definition reply_for (r : Dns.Msg) (response : Response) : Dns.Msg :=
  Dns.SetRcode r (Dns.Rcode (Entry response)) (Dns.Copy (Entry response)).



(** The TTL in the specification's words: "min over answer RRs of rr.ttl,
    floored at 0", 0 for a message without answers. *)
Definition min_answer_ttl (m : Dns.Msg) : Z :=
  match map (fun rr => Dns.HTtl (Dns.Hdr rr)) (Dns.Answer m) with
  | [] => 0
  | t :: ts => Z.max 0 (foldr Z.min t ts)
  end.

(** [attemptExchange] in the specification's words: the exchange is counted
    on success alone, so when the exchange errors the entry handed to
    [CloseConnection] carries the error and nothing else. *)
Definition exchange_counted_only_on_success
    {W : Type} `{!ConnPool W, !Client W, !Runtime W} (m : Dns.Msg) (w : W) : Prop :=
  let evs := events (attemptExchange m w) in
  forall conn reply rtt e entry,
    In (EvExchange m conn reply rtt (Some e)) evs ->
    acquired evs = Some (Some entry) ->
    pool_closes evs = [Some (AddError entry)].

(** The return to the pool in the specification's words: an entry that
    [Add] rejected is closed by the caller. *)
Definition rejected_entry_closed (evs : list Event) : Prop :=
  forall ce e, In (EvPoolAdd ce (Some e)) evs -> pool_closes evs <> [].


(** ** A scripted set of collaborators

    A fake pool, client, cache and writer in the manner of the repository's
    mocks: what each call answers is fixed by a few switches. *)
Module Scenario.

Record World := mkWorld {
  pool_empty : bool;              (* [Get] misses: the server has to dial *)
  pool_full : bool;               (* [Add] is rejected *)
  exchange_fails : bool;          (* the client errors on every exchange *)
  upstream_reply : Dns.Msg;       (* what the upstream answers otherwise *)
  lookup_entry : option Response; (* what the lookup cache holds for the name *)
  hosted_entry : option Response; (* what the hosted cache holds for the name *)
  clock : Z;
}.

Definition tick (w : World) : World :=
  mkWorld (pool_empty w) (pool_full w) (exchange_fails w) (upstream_reply w)
    (lookup_entry w) (hosted_entry w) (clock w + 1).

Definition u1 : Upstream := mkUpstream "u1" 0 "".

(** The pooled entry: one earlier exchange of 4 ms on connection 7. *)
Definition pooled : ConnEntry := mkConnEntry (Some 7%nat) u1 4 1 0.

(** A freshly dialled entry on connection 8. *)
Definition dialled : ConnEntry := mkConnEntry (Some 8%nat) u1 0 0 0.

#[global] Instance pool : ConnPool World := {|
  pool_Get w :=
    if pool_empty w then ((Some zeroConnEntry, u1, None), w)
    else ((Some pooled, zeroUpstream, None), w);
  pool_NewConnection u dial w :=
    let '((conn, err), w') := dial (Upstream_GetAddress u) w in
    match err with
    | Some e => ((None, Some e), w')
    | None => ((Some (mkConnEntry conn u 0 0 0), None), w')
    end;
  pool_Add ce w :=
    (if pool_full w then Some "connection pool is full" else None, w);
  pool_CloseConnection ce w := (tt, w);
|}.

#[global] Instance client : Client World := {|
  client_Dial address w := ((Some 8%nat, None), w);
  client_ExchangeWithConn m conn w :=
    if exchange_fails w then ((None, 5, Some "EOF"), w)
    else ((Some (upstream_reply w), 10, None), w);
|}.

#[global] Instance runtime : Runtime World := {|
  cache_Get c domain rrtype w :=
    match (match c with LookupCache => lookup_entry w | HostedCache => hosted_entry w end) with
    | Some r => ((r, true), w)
    | None => ((zeroResponse, false), w)
    end;
  cache_Add c r w := (tt, w);
  sem_Acquire w := (None, w);
  sem_Release w := (tt, w);
  writer_WriteMsg wr m w := (None, w);
  time_Now w := (clock w, tick w);
  dns_Id w := (4242, w);
|}.

Definition client_writer : ResponseWriter := 0%nat.

(** The query [example.com. A], id 77, rd set. *)
Definition query : Dns.Msg :=
  Dns.mkMsg 77 false 0 false false true false false false false 0
    [Dns.mkQuestion "example.com." 1 1] [] [] [].

(** The same query with an empty question section. *)
Definition query_no_question : Dns.Msg :=
  Dns.mkMsg 77 false 0 false false true false false false false 0 [] [] [] [].

(** The same name in mixed case. *)
Definition query_mixed_case : Dns.Msg :=
  Dns.mkMsg 78 false 0 false false true false false false false 0
    [Dns.mkQuestion "Example.COM." 1 1] [] [] [].

Definition rr_a : Dns.RR :=
  Dns.mkRR (Dns.mkHeader "example.com." 1 1 30) "1.2.3.4".

Definition rr_mx : Dns.RR :=
  Dns.mkRR (Dns.mkHeader "example.com." 15 1 300) "10 mail.example.com.".

(** A recursive resolver's answer: qr, rd and ra set, one A record with a
    TTL of 30 seconds. *)
Definition reply_a : Dns.Msg :=
  Dns.mkMsg 4242 true 0 false false true true false false false 0
    [Dns.mkQuestion "example.com." 1 1] [rr_a] [] [].

(** A hosted record as [ParseZoneFile] builds it: [dns.Msg{Answer: {rr}}],
    every header bit at its zero value. *)
Definition hosted_a : Response :=
  mkResponse "example.com."
    (Dns.mkMsg 0 false 0 false false false false false false false 0 [] [rr_a] [] [])
    30 0 1.

(** Nothing cached, a pooled connection, every exchange failing. *)
Definition all_failing : World :=
  mkWorld false false true reply_a None None 1000.

(** Nothing cached, a pooled connection, the upstream answering. *)
Definition answering : World :=
  mkWorld false false false reply_a None None 1000.

(** As [answering], with the pool rejecting the entry on its return. *)
Definition answering_pool_full : World :=
  mkWorld false true false reply_a None None 1000.

(** As [answering], with an empty pool: the connection is dialled. *)
Definition answering_pool_empty : World :=
  mkWorld true false false reply_a None None 1000.

(** A hit in the lookup cache. *)
Definition lookup_hit : World :=
  mkWorld false false false reply_a (Some (mkResponse "example.com." reply_a 30 990 1)) None 1000.

(** A hit in the hosted cache only. *)
Definition hosted_hit : World :=
  mkWorld false false false reply_a None (Some hosted_a) 1000.

Definition config1 : Configuration := mkConfiguration 1 0.

(** The message [RecursiveQuery] sends upstream for [example.com. A]. *)
Definition sent : Dns.Msg := upstream_query 4242 "example.com." 1.

(** The query handled while every exchange fails. *)
Definition all_failing_run : Res World unit :=
  HandleDNS config1 client_writer query all_failing.

(** The query answered from the hosted cache. *)
Definition hosted_run : Res World unit :=
  HandleDNS config1 client_writer query hosted_hit.

(** A recursive query whose entry the pool rejects on its return, and what
    it does before and after the exchange. *)
Definition pool_full_run : Res World (Response * string * error) :=
  RecursiveQuery config1 "example.com." 1 answering_pool_full.

Definition pool_full_pre : list Event :=
  [EvInc RecursiveQueryCounter; EvPoolGet (Some pooled) zeroUpstream None;
   EvInc (ReusedConnectionsCounter "u1:853");
   EvLog INFO "got connection to from connection pool"].

Definition pool_full_post : list Event :=
  [EvObserve (ExchangeTimer "u1:853") 1;
   EvPoolAdd (Some (AddExchange 10 pooled)) (Some "connection pool is full");
   EvLog ERROR add_failed_log].

End Scenario.

(** ** Reading a run: the semaphore, the gauge and the connections *)

(** Permits taken from and given back to the semaphore, and the moves of
    the gauge of queued queries. *)
Definition permits_taken (evs : list Event) : nat :=
  count (fun e => match e with EvSemAcquire None => true | _ => false end) evs.

Definition permits_released (evs : list Event) : nat :=
  count (fun e => match e with EvSemRelease => true | _ => false end) evs.

Definition gauge_incs (evs : list Event) : nat :=
  count (fun e => match e with EvGaugeInc => true | _ => false end) evs.

Definition gauge_decs (evs : list Event) : nat :=
  count (fun e => match e with EvGaugeDec => true | _ => false end) evs.

(** The events of [RetrieveRecords]: those of [RecursiveQuery], the cache
    lookups, the insert into the lookup cache and the two hit counters. *)
Definition retrieve_level (e : Event) : bool :=
  match e with
  | EvCacheGet _ _ _ _ _ | EvCacheAdd LookupCache _
  | EvInc CacheHitsCounter | EvInc HostedCacheHitsCounter => true
  | _ => recursive_level e
  end.

Definition all_retrieve_level (evs : list Event) : Prop :=
  Forall (fun e => retrieve_level e = true) evs.

(** The connections a run got hold of: an entry the pool handed out on
    [Get] (the upstream it names is the zero value) or one that
    [NewConnection] dialled. *)
Definition is_obtained (e : Event) : bool :=
  match e with
  | EvPoolGet _ u None => bool_decide (u = zeroUpstream)
  | EvPoolNewConnection _ _ None => true
  | _ => false
  end.

Definition connections_obtained (evs : list Event) : nat := count is_obtained evs.







(** ** Texts and their pieces *)

(** Whether a byte occurs in a text. *)
Fixpoint has_char (c : ascii) (s : string) : bool :=
  match s with
  | EmptyString => false
  | String c' s' => if decide (c' = c) then true else has_char c s'
  end.

(** The text made of the pieces [init], each followed by the separator. *)
Fixpoint each_followed_by (sep : ascii) (init : list string) : string :=
  match init with
  | [] => ""
  | p :: init' => p +:+ String sep (each_followed_by sep init')
  end.

(** ** Collaborators that fail

    A second set of scripted collaborators: the semaphore, the pool and the
    dial fail when their switch is set. *)
Module Faults.

Record World := mkWorld {
  sem_closed : bool;   (* [Acquire] answers with an error *)
  get_fails : bool;    (* [Get] answers with an error *)
  dial_fails : bool;   (* the pool is empty and the dial fails *)
}.

#[global] Instance pool : ConnPool World := {|
  pool_Get w :=
    if get_fails w then ((None, zeroUpstream, Some "no upstreams"), w)
    else ((None, Scenario.u1, None), w);
  pool_NewConnection u dial w :=
    let '((conn, err), w') := dial (Upstream_GetAddress u) w in
    match err with
    | Some e => ((None, Some e), w')
    | None => ((Some (mkConnEntry conn u 0 0 0), None), w')
    end;
  pool_Add ce w := (None, w);
  pool_CloseConnection ce w := (tt, w);
|}.

#[global] Instance client : Client World := {|
  client_Dial address w :=
    if dial_fails w then ((None, Some "connection refused"), w)
    else ((Some 9%nat, None), w);
  client_ExchangeWithConn m conn w := ((Some Scenario.reply_a, 10, None), w);
|}.

#[global] Instance runtime : Runtime World := {|
  cache_Get c domain rrtype w := ((zeroResponse, false), w);
  cache_Add c r w := (tt, w);
  sem_Acquire w := (if sem_closed w then Some "context canceled" else None, w);
  sem_Release w := (tt, w);
  writer_WriteMsg wr m w := (None, w);
  time_Now w := (1000, w);
  dns_Id w := (4242, w);
|}.

(** The semaphore cannot be acquired. *)
Definition no_permit : World := mkWorld true false false.

(** The pool names an upstream, and the dial to it fails. *)
Definition no_dial : World := mkWorld false false true.

End Faults.

(** More cases for the scripted collaborators of [Scenario]. *)
Module Cases.

(** A configuration with a negative number of retries. *)
Definition config_negative : Configuration := mkConfiguration (-1) 0.

(** An answer with an MX record, as the cache would hold it. *)
Definition reply_mx : Dns.Msg :=
  Dns.mkMsg 4242 true 0 false false true true false false false 0
    [Dns.mkQuestion "example.com." 15 1] [Scenario.rr_mx] [] [].

(** The record of the query log for that answer, served from the cache in
    3 ms. *)
Definition record_mx : QueryRecord :=
  mkQueryRecord "example.com." 15 0 "mail.example.com." "[cache]" 3.

(** What the lookup cache of [Scenario.lookup_hit] holds. *)
Definition lookup_hit_entry : Response :=
  mkResponse "example.com." Scenario.reply_a 30 990 1.

(** The response [Scenario.answering] leads to: the upstream's reply, read
    at the fourth tick of the clock. *)
Definition answering_response : Response :=
  mkResponse "example.com." Scenario.reply_a 0 1003 1.

End Cases.

(** ** utils_test.go *)

(** [dns.Token]: what [dns.ParseZone] sends on its channel, an RR or an
    error.  [TokRR] is an interface value, [None] when nil. *)
Record Token := mkToken {
  TokRR : option Dns.RR;
  TokError : error;
}.

(** [time.Second], in nanoseconds. *)
Definition Second : Z := 1000000000.

Section ZoneFiles.

Context {W : Type} `{!Runtime W}.

(** [dns.ParseZone(strings.NewReader(zone), ".", "")], read to its end. *)
Variable ParseZone : string -> list Token.

(** The loop [for token := range tokensch] of [ParseZoneFile];
    [responses] is the slice built so far. *)
Fixpoint ParseZoneFile_range (tokens : list Token) (responses : list Response)
  : M W (option (list Response) * error) :=
  match tokens with
  | [] => ret (Some responses, None)
  | token :: tokens' =>
      match TokError token with
      | Some e => ret (None, Some ("token error: " +:+ e +:+ NL))
      | None =>
          let* rr := deref (TokRR token) in
          let cachedMsg :=
            Dns.mkMsg 0 false 0 false false false false false false false 0
              [] [rr] [] [] in
          let* now := ask time_Now in
          let response :=
            mkResponse (Dns.HName (Dns.Hdr rr)) cachedMsg
              (Dns.HTtl (Dns.Hdr rr) * Second) now (Dns.Rrtype (Dns.Hdr rr)) in
          ParseZoneFile_range tokens' (responses ++ [response])
      end
  end.

(** [func ParseZoneFile(zone string) ([]Response, error)] *)
Definition ParseZoneFile (zone : string) : M W (option (list Response) * error) :=
  ParseZoneFile_range (ParseZone zone) [].

End ZoneFiles.

(** What [WaitForCondition] does to the outside: it calls [f] and it
    sleeps. *)
Inductive WaitEvent :=
| EvPoll (result : bool)
| EvSleep (milliseconds : Z).

(** The loop [for i := 0; i < x; i++] of [WaitForCondition]; [n] counts the
    values of [i] still to come.  [f] is a closure: it reads and changes a
    state [S]. *)
Fixpoint WaitForCondition_loop {S : Type} (n : nat) (f : S -> bool * S) (s : S)
  : bool * S * list WaitEvent :=
  match n with
  | O => (false, s, [])
  | Datatypes.S n' =>
      let '(result, s1) := f s in
      if result then (true, s1, [EvPoll true])
      else
        let '(result', s2, evs) := WaitForCondition_loop n' f s1 in
        (result', s2, EvPoll false :: EvSleep 100 :: evs)
  end.

(** [func WaitForCondition(x int, f func() bool) (result bool)] *)
Definition WaitForCondition {S : Type} (x : Z) (f : S -> bool * S) (s : S)
  : bool * S * list WaitEvent :=
  WaitForCondition_loop (Z.to_nat x) f s.

(** A response as [ParseZoneFile] builds it from a token. *)
Definition built_from (token : Token) (resp : Response) : Prop :=
  exists rr,
    TokRR token = Some rr /\
    Key resp = Dns.HName (Dns.Hdr rr) /\
    RQtype resp = Dns.Rrtype (Dns.Hdr rr) /\
    Ttl resp = Dns.HTtl (Dns.Hdr rr) * Second /\
    Entry resp =
      Dns.mkMsg 0 false 0 false false false false false false false 0 [] [rr] [] [].

(** A token that carries an RR and no error. *)
Definition good_token (token : Token) : Prop :=
  TokError token = None /\ is_Some (TokRR token).

(** The failed polls of a wait: each is followed by a sleep. *)
Fixpoint failed_polls (k : nat) : list WaitEvent :=
  match k with
  | O => []
  | Datatypes.S k' => EvPoll false :: EvSleep 100 :: failed_polls k'
  end.

(** A zone of two records, and one whose second token is an error. *)
Module ZoneScenario.

Definition good_zone : string := "good".

Definition ParseZone (zone : string) : list Token :=
  if decide (zone = good_zone)
  then [mkToken (Some Scenario.rr_a) None; mkToken (Some Scenario.rr_mx) None]
  else [mkToken (Some Scenario.rr_a) None; mkToken None (Some "bad ttl");
        mkToken (Some Scenario.rr_mx) None].

End ZoneScenario.

(** ** The monad of server code, over any type of events

    The start-up code and the earlier revisions of the server call other
    collaborators than the query pipeline does; their runs are lists of
    events of their own. *)
Record TRes (E W A : Type) := mkTRes {
  toutcome : option A;
  tworld : W;
  tevents : list E;
}.
Arguments mkTRes {E W A} _ _ _.
Arguments toutcome {E W A} _.
Arguments tworld {E W A} _.
Arguments tevents {E W A} _.

Definition T (E W A : Type) : Type := W -> TRes E W A.

Definition tret {E W A} (a : A) : T E W A := fun w => mkTRes (Some a) w [].

Definition tbind {E W A B} (m : T E W A) (k : A -> T E W B) : T E W B :=
  fun w =>
    match m w with
    | mkTRes None w1 evs1 => mkTRes None w1 evs1
    | mkTRes (Some a) w1 evs1 =>
        match k a w1 with
        | mkTRes o w2 evs2 => mkTRes o w2 (evs1 ++ evs2)
        end
    end.

Declare Scope traced_scope.
Delimit Scope traced_scope with traced.
Notation "'let*' x ':=' m 'in' k" := (tbind m (fun x => k))
  (at level 10, x name, m at level 100, k at level 200) : traced_scope.
Notation "'let*' ' p ':=' m 'in' k" := (tbind m (fun x => let 'p := x in k))
  (at level 10, p pattern, m at level 100, k at level 200) : traced_scope.
Notation "m >> k" := (tbind m (fun _ => k))
  (at level 100, k at level 200, right associativity) : traced_scope.

Definition tpanic {E W A} : T E W A := fun w => mkTRes None w [].

Definition temit {E W} (e : E) : T E W unit := fun w => mkTRes (Some tt) w [e].

Definition tcall {E W A} (f : W -> A * W) (ev : A -> E) : T E W A :=
  fun w => let '(a, w') := f w in mkTRes (Some a) w' [ev a].

Definition task {E W A} (f : W -> A * W) : T E W A :=
  fun w => let '(a, w') := f w in mkTRes (Some a) w' [].

Definition tderef {E W A} (p : option A) : T E W A :=
  match p with
  | Some a => tret a
  | None => tpanic
  end.

Definition tindex0 {E W A} (xs : list A) : T E W A :=
  match xs with
  | x :: _ => tret x
  | [] => tpanic
  end.

(** [defer fin] around [body]. *)
Definition tdefer {E W A} (fin : T E W unit) (body : T E W A) : T E W A :=
  fun w =>
    match body w with
    | mkTRes o w1 evs1 =>
        match fin w1 with
        | mkTRes _ w2 evs2 => mkTRes o w2 (evs1 ++ evs2)
        end
    end.

Fixpoint tforEach {E W A} (xs : list A) (body : A -> T E W unit) : T E W unit :=
  match xs with
  | [] => tret tt
  | x :: xs' => tbind (body x) (fun _ => tforEach xs' body)
  end.

(** ** Start-up: [NewMutexServer], [AddUpstream] and [BuildClient] *)
Module Setup.

Local Open Scope traced_scope.

(** [dns.Client], the fields [BuildClient] sets; the times are in
    nanoseconds. *)
Record DnsClient := mkDnsClient {
  SingleInflight : bool;
  DialerTimeout : Z;
  Timeout : Z;
  Net : string;
  InsecureSkipVerify : bool;
}.

(** A value of the interface [Client]: one handed in by the caller, or the
    [*dns.Client] that [BuildClient] made. *)
Inductive ClientValue :=
| InjectedClient (id : nat)
| BuiltClient (cl : DnsClient).

(** Values of [ConnPool] and [*RecordCache]. *)
Definition PoolRef := nat.
Definition CacheRef := nat.

(** The part of [Configuration] the start-up code reads; [ConfTimeout] is in
    units of [time.Millisecond]. *)
Record Configuration := mkConfiguration {
  ConcurrentQueries : Z;
  Upstreams : list string;
  ConfTimeout : Z;
  SkipUpstreamVerification : bool;
}.

(** [time.Millisecond], in nanoseconds. *)
Definition Millisecond : Z := 1000000.

(** [MutexServer]; [sem] is the weight the semaphore was made with. *)
Record MutexServer := mkMutexServer {
  Cache : option CacheRef;
  HostedCache : option CacheRef;
  connPool : option PoolRef;
  sem : option Z;
  dnsClient : option ClientValue;
}.

(** [MutexServer{}] *)
Definition zeroMutexServer : MutexServer := mkMutexServer None None None None None.

Inductive Event :=
| EvLog (l : LogLevel) (what : string)
| EvNewWeighted (n : Z)
| EvNewConnPool (p : PoolRef)
| EvNewCache (c : option CacheRef) (err : error)
| EvStartCleaningCrew (c : option CacheRef)
| EvAddUpstream (p : PoolRef) (u : Upstream).

(** What the start-up code calls: [NewConnPool], [NewCache] and
    [runtime.GOMAXPROCS(0)]. *)
Class Env (W : Type) := {
  NewConnPool : W -> PoolRef * W;
  NewCache : W -> (option CacheRef * error) * W;
  GOMAXPROCS : W -> Z * W;
}.

Section Setup.

Context {W : Type} `{!Env W}.

(** [GetConfiguration()] *)
Variable config : Configuration.

Definition Logger_Log (l : LogLevel) (what : string) : T Event W unit :=
  temit (EvLog l what).

(** [func BuildClient()]: a [*dns.Client] and an error *)
Definition BuildClient : T Event W (DnsClient * error) :=
  let timeout := ConfTimeout config * Millisecond in
  let cl := mkDnsClient true timeout timeout "tcp-tls" (SkipUpstreamVerification config) in
  Logger_Log CRITICAL "instantiated new dns client in TLS mode" >>
  tret (cl, None).

(** [func (s *MutexServer) AddUpstream(r *Upstream)] *)
Definition AddUpstream (s : MutexServer) (r : Upstream) : T Event W unit :=
  let* p := tderef (connPool s) in
  temit (EvAddUpstream p r).

(** [func NewMutexServer(cl Client, pool ConnPool) (Server, error)]; a nil
    interface value is [None]. *)
Definition NewMutexServer (cl : option ClientValue) (pool : option PoolRef)
  : T Event W (option MutexServer * error) :=
  let* '(client, err) :=
    match cl with
    | Some c => tret (Some c, None)
    | None =>
        let* '(c, err) := BuildClient in
        tret (Some (BuiltClient c), err)
    end in
  match err with
  | Some e => tret (Some zeroMutexServer, Some ("could not build client [" +:+ e +:+ "]"))
  | None =>
      let* c :=
        if decide (ConcurrentQueries config = 0) then task GOMAXPROCS
        else tret (ConcurrentQueries config) in
      Logger_Log INFO "creating server worker pool" >>
      temit (EvNewWeighted c) >>
      let* pool :=
        match pool with
        | Some p => tret p
        | None => tcall NewConnPool EvNewConnPool
        end in
      let* '(newcache, err) := tcall NewCache (fun '(c, err) => EvNewCache c err) in
      match err with
      | Some e => tret (None, Some ("couldn't initialize lookup cache: " +:+ e))
      | None =>
          temit (EvStartCleaningCrew newcache) >>
          let* '(hostedcache, err) := tcall NewCache (fun '(c, err) => EvNewCache c err) in
          match err with
          | Some e => tret (None, Some ("couldn't initialize hosted cache: " +:+ e))
          | None =>
              let s := mkMutexServer newcache hostedcache (Some pool) (Some c) client in
              tforEach (Upstreams config) (fun name =>
                AddUpstream s (mkUpstream name 0 "")) >>
              tret (Some s, None)
          end
      end
  end.

End Setup.

(** The upstreams registered with the pool, oldest first. *)
Definition upstreams_added (evs : list Event) : list (PoolRef * Upstream) :=
  omap (fun e => match e with EvAddUpstream p u => Some (p, u) | _ => None end) evs.

(** The caches whose cleaning crew was started. *)
Definition crews_started (evs : list Event) : list (option CacheRef) :=
  omap (fun e => match e with EvStartCleaningCrew c => Some c | _ => None end) evs.

(** The caches made, oldest first. *)
Definition caches_made (evs : list Event) : list (option CacheRef) :=
  omap (fun e => match e with EvNewCache c None => Some c | _ => None end) evs.

(** The weights of the semaphores made. *)
Definition semaphores_made (evs : list Event) : list Z :=
  omap (fun e => match e with EvNewWeighted n => Some n | _ => None end) evs.

End Setup.

(** ** The logging wrapper of the first revisions *)
Module Logging.

(** [LogLevel] is an integer type; the constants are numbered by [iota]. *)
Definition NOLOG : Z := 0.
Definition CRITICAL : Z := 1.
Definition ERROR : Z := 2.
Definition WARNING : Z := 3.
Definition INFO : Z := 4.
Definition DEBUG : Z := 5.

Record logger := mklogger {
  level : Z;
}.

Record logMessage := mklogMessage {
  Level : Z;
  What : string;
  Why : string;
  Next : string;
  DebugDetails : string;
}.

(** [func levelToString(level LogLevel) string] *)
Definition levelToString (level : Z) : string :=
  if decide (level = CRITICAL) then "CRITICAL"
  else if decide (level = ERROR) then "ERROR"
  else if decide (level = WARNING) then "WARNING"
  else if decide (level = INFO) then "INFO"
  else if decide (level = DEBUG) then "DEBUG"
  else "UNDEFINED".

(** [func (l logger) Log(message logMessage) error]: the lines handed to
    [log.Println], and the error returned. *)
Definition Log (l : logger) (message : logMessage) : list string * error :=
  if decide (Level message <= level l) then
    let output :=
      "[" +:+ levelToString (Level message) +:+ "] [" +:+ What message +:+ "] ["
        +:+ Why message +:+ "] [" +:+ Next message +:+ "]" in
    let output :=
      if decide (Level message = DEBUG)
      then output +:+ " [" +:+ DebugDetails message +:+ "]"
      else output in
    ([output], None)
  else ([], None).

(** [func NewLogMessage(level, what, why, next, debugDetails)]: the
    composite literal names [Level], [What], [Next] and [DebugDetails]. *)
Definition NewLogMessage (level : Z) (what why next debugDetails : string)
  : logMessage :=
  mklogMessage level what "" next debugDetails.

(** [func (l logger) SetLevel(level LogLevel)]: the receiver is a value, the
    assignment is made to the method's copy of it.  The result is the
    logger the caller holds after the call. *)
Definition SetLevel (l : logger) (level : Z) : logger :=
  let copy := mklogger level in
  l.

(** [func InitLogger(level LogLevel)]: the lines printed and the value of the
    package variable [Logger] afterwards.  [rendered] is [fmt.Sprintf("%v", l)]. *)
Definition InitLogger (rendered : logger -> string) (level : Z) : list string * logger :=
  let l := mklogger level in
  let '(lines, _) :=
    Log l (NewLogMessage INFO
             ("initialized new logger at level [" +:+ levelToString level +:+ "]")
             "" "" (rendered l)) in
  (lines, l).

(** What a program does with the package logger after [InitLogger]. *)
Inductive Use :=
| UseSetLevel (level : Z)
| UseLog (message : logMessage).

(** The lines printed by a sequence of uses of the logger [l]. *)
Fixpoint uses (l : logger) (us : list Use) : list string :=
  match us with
  | [] => []
  | UseSetLevel lv :: us' => uses (SetLevel l lv) us'
  | UseLog message :: us' => (Log l message).1 ++ uses l us'
  end.

(** The line of a message made by [NewLogMessage]. *)
Definition line_of (lv : Z) (what next debugDetails : string) : string :=
  "[" +:+ levelToString lv +:+ "] [" +:+ what +:+ "] [] [" +:+ next +:+ "]"
    +:+ (if decide (lv = DEBUG) then " [" +:+ debugDetails +:+ "]" else "").

End Logging.

(** ** server.go, the first revision: one exchange per resolver, no pool *)
Module FirstServer.

Local Open Scope traced_scope.

Definition RcodeNameError : Z := 3.

(** The counters of this revision; [ResolverErrorsCounter] has no label. *)
Inductive Metric :=
| TotalDnsQueriesCounter
| CacheHitsCounter
| HostedCacheHitsCounter
| RecursiveQueryCounter
| LocalServfailsCounter
| ResolverErrorsCounter.

#[global] Instance Metric_eq_dec : EqDecision Metric.
Proof. solve_decision. Defined.

Inductive Event :=
| EvInc (m : Metric)
| EvPrintf (line : string)
| EvLock (c : CacheId)
| EvUnlock (c : CacheId)
| EvRLock (c : CacheId)
| EvRUnlock (c : CacheId)
| EvCacheGet (c : CacheId) (domain : string) (rrtype : Z) (r : Response) (ok : bool)
| EvCacheAdd (c : CacheId) (r : Response)
| EvExchange (m : Dns.Msg) (address : string) (reply : option Dns.Msg) (err : error)
| EvWriteMsg (w : ResponseWriter) (m : Dns.Msg).

(** What the server calls: [dns.Client.Exchange], the caches, the writer,
    [time.Now] and [dns.Id]. *)
Class Env (W : Type) := {
  client_Exchange : Dns.Msg -> string -> W -> (option Dns.Msg * Z * error) * W;
  cache_Get : CacheId -> string -> Z -> W -> (Response * bool) * W;
  cache_Add : CacheId -> Response -> W -> unit * W;
  writer_WriteMsg : ResponseWriter -> Dns.Msg -> W -> error * W;
  time_Now : W -> Z * W;
  dns_Id : W -> Z * W;
}.

(** [msg.Answer = answer] *)
Definition with_Answer (answer : list Dns.RR) (m : Dns.Msg) : Dns.Msg :=
  Dns.mkMsg (Dns.Id m) (Dns.Response m) (Dns.Opcode m) (Dns.Authoritative m)
    (Dns.Truncated m) (Dns.RecursionDesired m) (Dns.RecursionAvailable m)
    (Dns.Zero m) (Dns.AuthenticatedData m) (Dns.CheckingDisabled m) (Dns.Rcode m)
    (Dns.Question_ m) answer (Dns.Ns m) (Dns.Extra m).

Section FirstServer.

Context {W : Type} `{!Env W}.

(** [GetConfiguration().Resolvers] *)
Variable Resolvers : list string.

(** [fmt.Errorf(format)] without arguments: the text of the error made from
    a format that is not a constant. *)
Variable Errorf : string -> string.

Definition Inc (m : Metric) : T Event W unit := temit (EvInc m).

(** [func sendNXDomain(w dns.ResponseWriter, r *dns.Msg)] *)
Definition sendNXDomain (w : ResponseWriter) (r : Dns.Msg) : T Event W unit :=
  temit (EvPrintf "sending nxdomain") >>
  let m := Dns.SetRcode r RcodeNameError Dns.zeroMsg in
  tcall (writer_WriteMsg w m) (fun _ => EvWriteMsg w m) >>
  tret tt.

(** [func (server *Server) processResults(r dns.Msg, domain string, rrtype uint16)] *)
Definition processResults (r : Dns.Msg) (domain : string) (rrtype : Z)
  : T Event W (Response * error) :=
  if decide (Dns.Rcode r <> Dns.RcodeSuccess) then
    tret (zeroResponse,
          Some ("got unsuccessful lookup code for domain [" +:+ domain +:+ "] rrtype ["
                  +:+ Dns.itoa rrtype +:+ "]: [" +:+ Dns.itoa (Dns.Rcode r) +:+ "]"))
  else
    let* now := task time_Now in
    tret (mkResponse domain r 0 now rrtype, None).

(** The loop [for _, s := range config.Resolvers] of [RecursiveQuery];
    [errorstring] is the text gathered so far. *)
Fixpoint RecursiveQuery_range (resolvers : list string) (m : Dns.Msg)
    (domain : string) (rrtype : Z) (errorstring : string)
  : T Event W (Response * error) :=
  match resolvers with
  | [] =>
      (* if we went through each server and couldn't find at least one result *)
      tret (zeroResponse, Some (Errorf errorstring))
  | s :: resolvers' =>
      let* '(r, _, err) :=
        tcall (client_Exchange m (s +:+ ":" +:+ "853"))
              (fun '(r, _, err) => EvExchange m (s +:+ ":" +:+ "853") r err) in
      match err with
      | Some e =>
          Inc ResolverErrorsCounter >>
          let errorstring :=
            "error looking up domain [" +:+ domain +:+ "] on server [" +:+ s +:+ ":"
              +:+ "853" +:+ "]: " +:+ e +:+ ": " +:+ errorstring in
          RecursiveQuery_range resolvers' m domain rrtype errorstring
      | None =>
          let* msg := tderef r in
          processResults msg domain rrtype
      end
  end.

(** [func (server *Server) RecursiveQuery(domain string, rrtype uint16)] *)
Definition RecursiveQuery (domain : string) (rrtype : Z)
  : T Event W (Response * error) :=
  Inc RecursiveQueryCounter >>
  let* id := task dns_Id in
  let m := Dns.SetQuestion id domain rrtype Dns.zeroMsg in
  let m := Dns.with_RecursionDesired true m in
  RecursiveQuery_range Resolvers m domain rrtype "".

(** [func (server *Server) RetrieveRecords(domain string, rrtype uint16)] *)
Definition RetrieveRecords (domain : string) (rrtype : Z)
  : T Event W (Response * error) :=
  temit (EvLock LookupCache) >>
  tdefer (temit (EvUnlock LookupCache))
    (let* '(cached_response, ok) :=
       tcall (cache_Get LookupCache domain rrtype)
             (fun '(r, ok) => EvCacheGet LookupCache domain rrtype r ok) in
     if (ok : bool) then
       Inc CacheHitsCounter >>
       tret (cached_response, None)
     else
       temit (EvRLock HostedCache) >>
       tdefer (temit (EvRUnlock HostedCache))
         (let* '(cached_response, ok) :=
            tcall (cache_Get HostedCache domain rrtype)
                  (fun '(r, ok) => EvCacheGet HostedCache domain rrtype r ok) in
          if (ok : bool) then
            Inc HostedCacheHitsCounter >>
            tret (cached_response, None)
          else
            let* '(response, err) := RecursiveQuery domain rrtype in
            match err with
            | Some e =>
                tret (response,
                      Some ("error running recursive query on domain [" +:+ domain
                              +:+ "]: " +:+ e +:+ NL))
            | None =>
                tcall (cache_Add LookupCache response)
                      (fun _ => EvCacheAdd LookupCache response) >>
                tret (response, None)
            end)).

(** [func (server *Server) ServeDNS(w dns.ResponseWriter, r *dns.Msg)] *)
Definition ServeDNS (w : ResponseWriter) (r : Dns.Msg) : T Event W unit :=
  Inc TotalDnsQueriesCounter >>
  let msg := Dns.SetReply r Dns.zeroMsg in
  let* q0 := tindex0 (Dns.Question_ msg) in
  let domain := Dns.QName q0 in
  let msg := Dns.with_Authoritative false msg in
  let msg := Dns.with_RecursionAvailable true msg in
  let* rq0 := tindex0 (Dns.Question_ r) in
  let* '(response, err) := RetrieveRecords domain (Dns.Qtype rq0) in
  match err with
  | Some e =>
      Inc LocalServfailsCounter >>
      temit (EvPrintf ("error retrieving record for domain [" +:+ domain +:+ "]: " +:+ e)) >>
      sendNXDomain w r
  | None =>
      let msg := with_Answer (Dns.Answer (Entry response)) msg in
      tcall (writer_WriteMsg w msg) (fun _ => EvWriteMsg w msg) >>
      tret tt
  end.

End FirstServer.

(** Reading a run. *)
Fixpoint count (p : Event -> bool) (evs : list Event) : nat :=
  match evs with
  | [] => O
  | e :: evs' => if p e then S (count p evs') else count p evs'
  end.

Definition increments (m : Metric) (evs : list Event) : nat :=
  count (fun e => match e with EvInc m' => bool_decide (m' = m) | _ => false end) evs.

Definition writes (evs : list Event) : list (ResponseWriter * Dns.Msg) :=
  omap (fun e => match e with EvWriteMsg w m => Some (w, m) | _ => None end) evs.

(** The resolvers asked, oldest first, with whether the exchange failed. *)
Definition asked (evs : list Event) : list (string * bool) :=
  omap (fun e => match e with
                 | EvExchange _ a _ err => Some (a, bool_decide (err <> None))
                 | _ => None
                 end) evs.

Definition cache_inserts (evs : list Event) : list (CacheId * Response) :=
  omap (fun e => match e with EvCacheAdd c r => Some (c, r) | _ => None end) evs.

(** The locks held in the course of a run: [Lock] and [RLock] push, the
    unlocks pop, for the deferred unlocks run last in, first out. *)
Inductive Held := Exclusive (c : CacheId) | Shared (c : CacheId).

(** The locks held after a run that started with [held]; [None] when a
    lock is released that is not the one taken last. *)
Fixpoint locks_after (held : list Held) (evs : list Event) : option (list Held) :=
  match evs with
  | [] => Some held
  | EvLock c :: evs' => locks_after (Exclusive c :: held) evs'
  | EvRLock c :: evs' => locks_after (Shared c :: held) evs'
  | EvUnlock c :: evs' =>
      match held with
      | Exclusive c' :: held' =>
          if decide (c' = c) then locks_after held' evs' else None
      | _ => None
      end
  | EvRUnlock c :: evs' =>
      match held with
      | Shared c' :: held' =>
          if decide (c' = c) then locks_after held' evs' else None
      | _ => None
      end
  | _ :: evs' => locks_after held evs'
  end.

(** The locks held at the moment of each exchange with a resolver. *)
Fixpoint held_at_exchanges (held : list Held) (evs : list Event) : list (list Held) :=
  match evs with
  | [] => []
  | EvLock c :: evs' => held_at_exchanges (Exclusive c :: held) evs'
  | EvRLock c :: evs' => held_at_exchanges (Shared c :: held) evs'
  | EvUnlock _ :: evs' | EvRUnlock _ :: evs' => held_at_exchanges (tail held) evs'
  | EvExchange _ _ _ _ :: evs' => held :: held_at_exchanges held evs'
  | _ :: evs' => held_at_exchanges held evs'
  end.

(** The NXDOMAIN reply to a request. *)
Definition nxdomain_for (r : Dns.Msg) : Dns.Msg :=
  Dns.SetRcode r RcodeNameError Dns.zeroMsg.

(** The reply built from a response. *)
Definition answer_for (r : Dns.Msg) (response : Response) : Dns.Msg :=
  with_Answer (Dns.Answer (Entry response))
    (Dns.with_RecursionAvailable true
       (Dns.with_Authoritative false (Dns.SetReply r Dns.zeroMsg))).

(** The text [RecursiveQuery] gathers from the failed exchanges, given as
    pairs of a resolver and the text of its error, oldest first. *)
Fixpoint gathered (domain : string) (failures : list (string * string))
    (errorstring : string) : string :=
  match failures with
  | [] => errorstring
  | (s, e) :: failures' =>
      gathered domain failures'
        ("error looking up domain [" +:+ domain +:+ "] on server [" +:+ s +:+ ":"
           +:+ "853" +:+ "]: " +:+ e +:+ ": " +:+ errorstring)
  end.

(** The events of the exchanges that failed. *)
Definition failed_exchanges (m : Dns.Msg)
    (fails : list (string * option Dns.Msg * string)) : list Event :=
  flat_map (fun '(s, r, e) =>
              [EvExchange m (s +:+ ":853") r (Some e); EvInc ResolverErrorsCounter])
           fails.

(** The message [RecursiveQuery] sends. *)
Definition upstream_query (id : Z) (domain : string) (rrtype : Z) : Dns.Msg :=
  Dns.with_RecursionDesired true (Dns.SetQuestion id domain rrtype Dns.zeroMsg).

(** The events of [RecursiveQuery]: exchanges and two counters. *)
Definition upstream_level (e : Event) : bool :=
  match e with
  | EvExchange _ _ _ _ | EvInc ResolverErrorsCounter | EvInc RecursiveQueryCounter => true
  | _ => false
  end.

End FirstServer.

(** A resolver that answers REFUSED, for the first revision. *)
Module FirstScenario.

Definition refused : Dns.Msg :=
  Dns.mkMsg 4242 true 0 false false true true false false false 5
    [Dns.mkQuestion "example.com." 1 1] [] [] [].

#[global] Instance env : FirstServer.Env Z := {|
  FirstServer.client_Exchange m address w := ((Some refused, 5, None), w);
  FirstServer.cache_Get c domain rrtype w := ((zeroResponse, false), w);
  FirstServer.cache_Add c r w := (tt, w);
  FirstServer.writer_WriteMsg wr m w := (None, w);
  FirstServer.time_Now w := (w, w + 1);
  FirstServer.dns_Id w := (4242, w);
|}.

Definition resolvers : list string := ["9.9.9.9"].

Definition Errorf (format : string) : string := format.

(** A resolver that answers with the message the world holds; the caches
    are empty. *)
#[global] Instance answering : FirstServer.Env (Dns.Msg * Z) := {|
  FirstServer.client_Exchange m address w := ((Some (fst w), 5, None), w);
  FirstServer.cache_Get c domain rrtype w := ((zeroResponse, false), w);
  FirstServer.cache_Add c r w := (tt, w);
  FirstServer.writer_WriteMsg wr m w := (None, w);
  FirstServer.time_Now w := (snd w, (fst w, snd w + 1));
  FirstServer.dns_Id w := (4242, w);
|}.

End FirstScenario.

(** ** server.go, the second revision: a pool of connections keyed by the
    resolver's address *)
Module PooledServer.

Local Open Scope traced_scope.

(** [ConnEntry] of this revision: the connection and the address. *)
Record ConnEntry := mkConnEntry {
  Conn : option DnsConn;
  Address : string;
}.

(** [ConnEntry{}] *)
Definition zeroConnEntry : ConnEntry := mkConnEntry None "".

Inductive Metric :=
| RecursiveQueryCounter
| ReusedConnectionsCounter (address : string)
| NewConnectionAttemptsCounter (address : string)
| ResolverErrorsCounter (address : string).

#[global] Instance Metric_eq_dec : EqDecision Metric.
Proof. solve_decision. Defined.

Inductive Event :=
| EvInc (m : Metric)
| EvLog (l : LogLevel) (what : string)
| EvObserveTLS (address : string) (d : Z)
| EvPoolGet (address : string) (ce : option ConnEntry) (err : error)
| EvPoolAdd (ce : option ConnEntry) (added : bool) (err : error)
| EvDial (address : string) (conn : option DnsConn) (err : error)
| EvExchange (m : Dns.Msg) (conn : option DnsConn) (reply : option Dns.Msg) (err : error)
| EvClose (conn : DnsConn).

(** What the server calls: the pool, the client, [time.Now] and
    [dns.Id]. *)
Class Env (W : Type) := {
  pool_Get : string -> W -> (option ConnEntry * error) * W;
  pool_Add : option ConnEntry -> W -> (bool * error) * W;
  client_Dial : string -> W -> (option DnsConn * error) * W;
  client_ExchangeWithConn :
    Dns.Msg -> option DnsConn -> W -> (option Dns.Msg * Z * error) * W;
  conn_Close : DnsConn -> W -> unit * W;
  time_Now : W -> Z * W;
  dns_Id : W -> Z * W;
}.

Section PooledServer.

Context {W : Type} `{!Env W}.

(** [GetConfiguration().Resolvers] *)
Variable Resolvers : list string.

(** [fmt.Sprintf("%v", ce)] *)
Variable render : option ConnEntry -> string.

Definition Inc (m : Metric) : T Event W unit := temit (EvInc m).

Definition Logger_Log (l : LogLevel) (what : string) : T Event W unit :=
  temit (EvLog l what).

(** [func (server *Server) processResults(r dns.Msg, domain string, rrtype uint16)] *)
Definition processResults (r : Dns.Msg) (domain : string) (rrtype : Z)
  : T Event W (Response * error) :=
  let* now := task time_Now in
  tret (mkResponse domain r 0 now rrtype, None).

(** [func (s *Server) GetConnection(address string)] *)
Definition GetConnection (address : string) : T Event W (option ConnEntry * error) :=
  let* '(connEntry, err) :=
    tcall (pool_Get address) (fun '(ce, err) => EvPoolGet address ce err) in
  match err with
  | None =>
      Inc (ReusedConnectionsCounter address) >>
      tret (connEntry, None)
  | Some e =>
      Logger_Log INFO ("creating new connection to " +:+ address) >>
      let* t0 := task time_Now in
      Inc (NewConnectionAttemptsCounter address) >>
      let* '(conn, err) :=
        tcall (client_Dial address) (fun '(conn, err) => EvDial address conn err) in
      let* t1 := task time_Now in
      temit (EvObserveTLS address (t1 - t0)) >>
      match err with
      | Some e =>
          Logger_Log ERROR ("error connecting to [" +:+ address +:+ "]: [" +:+ e +:+ "]") >>
          tret (Some zeroConnEntry, Some e)
      | None =>
          Logger_Log INFO ("connection to " +:+ address +:+ " successful") >>
          tret (Some (mkConnEntry conn address), None)
      end
  end.

(** [ce.Conn.Close()] *)
Definition closeConn (ce : ConnEntry) : T Event W unit :=
  let* conn := tderef (Conn ce) in
  tcall (conn_Close conn) (fun _ => EvClose conn).

(** The loop [for _, host := range config.Resolvers] of
    [RecursiveQuery]. *)
Fixpoint RecursiveQuery_range (hosts : list string) (m : Dns.Msg)
    (domain : string) (rrtype : Z)
  : T Event W (Response * string * error) :=
  match hosts with
  | [] =>
      tret (zeroResponse, "", Some "could not connect to any resolvers")
  | host :: hosts' =>
      let address := host +:+ ":" +:+ "853" in
      Logger_Log INFO ("need connection to [" +:+ address +:+ "]") >>
      let* '(ce, err) := GetConnection address in
      match err with
      | Some e =>
          Logger_Log ERROR ("error connecting to [" +:+ address +:+ "]: [" +:+ e +:+ "]") >>
          RecursiveQuery_range hosts' m domain rrtype
      | None =>
          let* entry := tderef ce in
          let* '(r, _, err) :=
            tcall (client_ExchangeWithConn m (Conn entry))
                  (fun '(r, _, err) => EvExchange m (Conn entry) r err) in
          match err with
          | Some e =>
              closeConn entry >>
              Inc (ResolverErrorsCounter (Address entry)) >>
              Logger_Log ERROR
                ("error looking up domain [" +:+ domain +:+ "] on server [" +:+ address
                   +:+ "]: " +:+ e) >>
              (* try the next one *)
              RecursiveQuery_range hosts' m domain rrtype
          | None =>
              let* '(added, err) :=
                tcall (pool_Add ce) (fun '(added, err) => EvPoolAdd ce added err) in
              match err with
              | Some _ =>
                  Logger_Log ERROR
                    ("could not add connection entry [" +:+ render ce +:+ "] to pool!")
              | None => tret tt
              end >>
              (if (added : bool) then tret tt
               else
                 Logger_Log INFO
                   ("not adding connection to [" +:+ Address entry +:+ "] to pool") >>
                 closeConn entry) >>
              (* this one worked, proceeding *)
              let* msg := tderef r in
              let* '(reply, err) := processResults msg domain rrtype in
              tret (reply, Address entry, err)
          end
      end
  end.

(** [func (s *Server) RecursiveQuery(domain string, rrtype uint16)] *)
Definition RecursiveQuery (domain : string) (rrtype : Z)
  : T Event W (Response * string * error) :=
  Inc RecursiveQueryCounter >>
  let* id := task dns_Id in
  let m := Dns.SetQuestion id domain rrtype Dns.zeroMsg in
  let m := Dns.with_RecursionDesired true m in
  RecursiveQuery_range Resolvers m domain rrtype.

(** The loop [for i := 0; i < 5; i++] of [warmConnections]; [n] counts the
    values of [i] still to come.  The result is the slice [conns] and the
    error [warmConnections] returns from inside the loop, if any. *)
Fixpoint warm_address (n : nat) (address : string) (conns : list (option ConnEntry))
  : T Event W (list (option ConnEntry) * error) :=
  match n with
  | O => tret (conns, None)
  | S n' =>
      let* '(c, err) := GetConnection address in
      match err with
      | Some e =>
          tret (conns,
                Some ("could not initiate connection to [" +:+ address +:+ "]: " +:+ e))
      | None => warm_address n' address (conns ++ [c])
      end
  end.

(** The loop [for _, r := range config.Resolvers] of [warmConnections]. *)
Fixpoint warm_range (resolvers : list string) (conns : list (option ConnEntry))
  : T Event W (list (option ConnEntry) * error) :=
  match resolvers with
  | [] => tret (conns, None)
  | r :: resolvers' =>
      let address := r +:+ ":" +:+ "853" in
      let* '(conns, err) := warm_address 5 address conns in
      match err with
      | Some e => tret (conns, Some e)
      | None => warm_range resolvers' conns
      end
  end.

(** [func (s *Server) warmConnections() error] *)
Definition warmConnections : T Event W error :=
  let* '(conns, err) := warm_range Resolvers [] in
  match err with
  | Some e => tret (Some e)
  | None =>
      tforEach conns (fun v =>
        tcall (pool_Add v) (fun '(added, err) => EvPoolAdd v added err) >>
        tret tt) >>
      tret None
  end.

End PooledServer.

(** Reading a run. *)
Fixpoint count (p : Event -> bool) (evs : list Event) : nat :=
  match evs with
  | [] => O
  | e :: evs' => if p e then S (count p evs') else count p evs'
  end.

(** A connection got without an error: from the pool or by dialling. *)
Definition is_obtained (e : Event) : bool :=
  match e with
  | EvPoolGet _ _ None | EvDial _ _ None => true
  | _ => false
  end.

Definition is_kept (e : Event) : bool :=
  match e with EvPoolAdd _ true _ => true | _ => false end.

Definition is_rejected (e : Event) : bool :=
  match e with EvPoolAdd _ false _ => true | _ => false end.

Definition is_close (e : Event) : bool :=
  match e with EvClose _ => true | _ => false end.

Definition is_failed_exchange (e : Event) : bool :=
  match e with EvExchange _ _ _ (Some _) => true | _ => false end.

(** A dial that failed. *)
Definition is_failed_dial (e : Event) : bool :=
  match e with EvDial _ _ (Some _) => true | _ => false end.

(** The entries [GetConnection] returned without an error, oldest first. *)
Definition obtained (evs : list Event) : list (option ConnEntry) :=
  omap (fun e => match e with
                 | EvPoolGet _ ce None => Some ce
                 | EvDial a conn None => Some (Some (mkConnEntry conn a))
                 | _ => None
                 end) evs.

(** The entries handed to [connPool.Add], oldest first. *)
Definition pool_adds (evs : list Event) : list (option ConnEntry) :=
  omap (fun e => match e with EvPoolAdd ce _ _ => Some ce | _ => None end) evs.

(** The addresses the pool was asked for, oldest first. *)
Definition pool_gets (evs : list Event) : list string :=
  omap (fun e => match e with EvPoolGet a _ _ => Some a | _ => None end) evs.

(** The events of [GetConnection]. *)
Definition get_level (e : Event) : bool :=
  match e with
  | EvPoolGet _ _ _ | EvDial _ _ _ | EvObserveTLS _ _ | EvLog _ _
  | EvInc (ReusedConnectionsCounter _) | EvInc (NewConnectionAttemptsCounter _) => true
  | _ => false
  end.


End PooledServer.

(** An empty pool that rejects what it is handed, for the second
    revision. *)
Module PooledScenario.

#[global] Instance env : PooledServer.Env Z := {|
  PooledServer.pool_Get address w := ((None, Some "no connection"), w);
  PooledServer.pool_Add ce w := ((false, None), w);
  PooledServer.client_Dial address w := ((Some 8%nat, None), w);
  PooledServer.client_ExchangeWithConn m conn w := ((Some Scenario.reply_a, 10, None), w);
  PooledServer.conn_Close conn w := (tt, w);
  PooledServer.time_Now w := (w, w + 1);
  PooledServer.dns_Id w := (4242, w);
|}.

Definition resolvers : list string := ["9.9.9.9"; "1.1.1.1"].

Definition render (ce : option PooledServer.ConnEntry) : string := "ce".

(** An empty pool and a client that can dial only so often: the world is
    the number of dials that still succeed, and the clock. *)
#[global] Instance flaky : PooledServer.Env (nat * Z) := {|
  PooledServer.pool_Get address w := ((None, Some "no connection"), w);
  PooledServer.pool_Add ce w := ((true, None), w);
  PooledServer.client_Dial address w :=
    match fst w with
    | O => ((None, Some "dial tcp: i/o timeout"), w)
    | S n => ((Some 8%nat, None), (n, snd w))
    end;
  PooledServer.client_ExchangeWithConn m conn w := ((Some Scenario.reply_a, 10, None), w);
  PooledServer.conn_Close conn w := (tt, w);
  PooledServer.time_Now w := (snd w, (fst w, snd w + 1));
  PooledServer.dns_Id w := (4242, w);
|}.

End PooledScenario.

(** * Properties *)

(** ** Event lists: counting, and running the monad by hand *)

Lemma count_app p (a b : list Event) :
  count p (a ++ b) = (count p a + count p b)%nat.
Proof. induction a as [|e a IH]; simpl; [done|]. destruct (p e); simpl; lia. Qed.

(** Expose the plumbing of a computation; [run] then follows every branch
    the collaborators' answers can take. *)
Ltac unfold_monad :=
  unfold Logger_Log, Inc, deref, index0, bind, defer, call, ask, emit, ret, panic in *.

Ltac run := repeat (case_match; simplify_eq/=).

(** Push the observations of a run through [++]. *)
Ltac obs :=
  unfold attempts_made, attempts_failed, increments, writes, cache_inserts,
    cache_lookups, pool_adds, pool_closes, exchanges_run, query_records,
    acquired, all_connection_level in *;
  repeat (rewrite ?count_app, ?omap_app, ?Forall_app; simpl).

Lemma acquired_app a b x : acquired b = Some x -> acquired (a ++ b) = Some x.
Proof.
  unfold acquired. intros Hb. rewrite omap_app, last_app, Hb. done.
Qed.

Ltac counts := repeat (progress (rewrite ?count_app in *; simpl in * )).


(** A list splits in one way only around its single element satisfying
    [p]. *)
Lemma split_at_unique p (a a' b b' : list Event) x x' :
  p x = true -> p x' = true -> count p a = 0%nat -> count p b = 0%nat ->
  a ++ x :: b = a' ++ x' :: b' -> a = a' /\ x = x' /\ b = b'.
Proof.
  intros Hx Hx'. revert a'. induction a as [|y a IH]; intros [|y' a'] Ha Hb Heq;
    simpl in *; simplify_eq.
  - done.
  - rewrite count_app in Hb. simpl in Hb. rewrite Hx' in Hb. lia.
  - rewrite Hx' in Ha. lia.
  - destruct (p y'); [lia|]. destruct (IH a' Ha Hb) as (-> & -> & ->); done.
Qed.

Lemma connection_level_recursive e :
  connection_level e = true -> recursive_level e = true.
Proof. by destruct e as [| | | | | | | | |[]| | |[]| | |]. Qed.

Lemma connection_level_no_adds evs :
  all_connection_level evs ->
  pool_adds evs = [] /\ increments RecursiveQueryCounter evs = 0%nat.
Proof.
  induction 1 as [|e evs He _ [IH1 IH2]]; [done|].
  destruct e as [| | | | | | | | |[]| | |[]| | |]; simpl in He; try discriminate;
    unfold pool_adds, increments in *; simpl; auto.
Qed.

Lemma recursive_level_quiet evs :
  all_recursive_level evs ->
  writes evs = [] /\ query_records evs = [] /\ cache_lookups evs = [] /\
  (forall c, cache_inserts c evs = []) /\
  increments LocalServfailsCounter evs = 0%nat /\
  increments CacheHitsCounter evs = 0%nat /\
  increments HostedCacheHitsCounter evs = 0%nat /\
  increments TotalDnsQueriesCounter evs = 0%nat.
Proof.
  induction 1 as [|e evs He _ IH]; [by repeat split|].
  destruct IH as (?&?&?&?&?&?&?&?).
  destruct e as [| | | | | | | | |[]| | |[]| | |]; simpl in He; try discriminate;
    obs; repeat split; try intros ?; auto.
Qed.

Lemma count_pos_in p (a b : list Event) x :
  p x = true -> (0 < count p (a ++ x :: b))%nat.
Proof. intros Hx. rewrite count_app. simpl. rewrite Hx. lia. Qed.

Lemma Split_nonempty sep s : Split sep s <> [].
Proof.
  induction s as [|c s IH]; simpl; [done|].
  destruct (decide (c = sep)); [done|]. by destruct (Split sep s).
Qed.

Lemma Split_last sep s : exists x, last (Split sep s) = Some x.
Proof.
  destruct (Split sep s) as [|p ps] eqn:E; [by apply Split_nonempty in E|].
  destruct (last (p :: ps)) eqn:El; [eauto|]. by apply last_None in El.
Qed.

Lemma query_records_map (l : list QueryRecord) :
  query_records (map EvQueryLog l) = l.
Proof. induction l as [|x l IH]; [done|]. unfold query_records in *. simpl. by f_equal. Qed.

Lemma count_querylog p (l : list QueryRecord) :
  (forall r, p (EvQueryLog r) = false) -> count p (map EvQueryLog l) = 0%nat.
Proof. intros Hp. induction l as [|r l IH]; simpl; [done|]. by rewrite Hp. Qed.

Arguments attemptExchange : simpl never.
Arguments logQuery : simpl never.
Arguments retryLoop : simpl never.
Arguments RecursiveQuery : simpl never.
Arguments RetrieveRecords : simpl never.

(** ** Runs of the server, for every behaviour of the collaborators *)
Section Runs.

Context {W : Type} `{!ConnPool W, !Client W, !Runtime W}.
Variable config : Configuration.

(** One attempt: it asks the pool once; it ends in an error exactly when a
    collaborator answered with one; when it succeeds, the exchange and the
    observation of its timer are the last things it did. *)
Lemma attemptExchange_events m w :
  let res := attemptExchange m w in
  all_connection_level (events res) /\
  attempts_made (events res) = 1%nat /\
  match outcome res with
  | Some (ce, r, Some _) =>
      attempts_failed (events res) = 1%nat /\ count is_success (events res) = 0%nat
  | Some (ce, r, None) =>
      attempts_failed (events res) = 0%nat /\
      exists pre entry conn rtt t,
        events res = pre ++ [EvExchange m conn r rtt None;
                             EvObserve (ExchangeTimer (ConnEntry_GetAddress entry)) t] /\
        acquired pre = Some (Some entry) /\
        Conn entry = Some conn /\
        ce = Some (AddExchange rtt entry) /\
        count is_success pre = 0%nat /\ pool_closes pre = []
  | None =>
      count is_success (events res) = 0%nat /\
      (attempts_failed (events res) = 0%nat \/ Dns.Question_ m = [])
  end.
Proof.
  unfold attemptExchange, GetConnection, GetConnection_hit, newConnection.
  unfold_monad. run.
  all: try match goal with
           | |- context [ex] => fail 1
           | |- _ => obs; repeat split; repeat constructor; auto; fail
           end.
  all: obs; repeat split; try (repeat constructor; fail).
  all: first [ eexists [_;_;_;_;_], _, _, _, _; simpl; split; [reflexivity|]
             | eexists [_;_;_], _, _, _, _; simpl; split; [reflexivity|] ].
  all: repeat split; first [ eassumption | reflexivity ].
Qed.

(** One turn of the loop. *)
Lemma retryLoop_S n m cur w :
  retryLoop (S n) m cur w =
  match attemptExchange m w with
  | mkRes None w1 evs1 => mkRes None w1 evs1
  | mkRes (Some (ce, r, None)) w1 evs1 => mkRes (Some (ce, r, None)) w1 (evs1 ++ [])
  | mkRes (Some (ce, r, Some e)) w1 evs1 =>
      match retryLoop n m (ce, r, Some e) w1 with
      | mkRes o w2 evs2 =>
          mkRes o w2 (evs1 ++ EvLog WARNING "failed exchange with upstreams" :: evs2)
      end
  end.
Proof.
  unfold retryLoop at 1; fold (@retryLoop W _ _ _).
  unfold bind, Logger_Log, emit, ret.
  destruct (attemptExchange m w) as [[[[ce r] [e|]]|] w1 evs1]; try reflexivity.
  destruct (retryLoop n m (ce, r, Some e) w1); reflexivity.
Qed.

(** The loop: at most [n] attempts; it ends in an error only when all [n]
    attempts failed, and in a success only by an attempt that succeeded, the
    last one made. *)
Lemma retryLoop_events n m : Dns.Question_ m <> [] -> forall cur w,
  let res := retryLoop n m cur w in
  all_connection_level (events res) /\
  (attempts_made (events res) <= n)%nat /\
  match outcome res with
  | Some (ce, r, Some e) =>
      attempts_failed (events res) = attempts_made (events res) /\
      attempts_made (events res) = n /\
      count is_success (events res) = 0%nat /\
      (n = 0%nat -> cur = (ce, r, Some e))
  | Some (ce, r, None) =>
      (n = 0%nat /\ cur = (ce, r, None) /\ events res = []) \/
      (attempts_made (events res) = S (attempts_failed (events res)) /\
       exists pre entry conn rtt t,
         events res = pre ++ [EvExchange m conn r rtt None;
                              EvObserve (ExchangeTimer (ConnEntry_GetAddress entry)) t] /\
         acquired pre = Some (Some entry) /\
         Conn entry = Some conn /\
         ce = Some (AddExchange rtt entry) /\
         count is_success pre = 0%nat)
  | None =>
      attempts_made (events res) = S (attempts_failed (events res)) /\
      count is_success (events res) = 0%nat
  end.
Proof.
  intros Hq. induction n as [|n IH]; intros cur w res; subst res.
  - simpl. unfold ret; simpl. split; [constructor|]. split; [done|].
    destruct cur as [[ce r] [e|]]; simpl; auto.
  - rewrite retryLoop_S.
    pose proof (attemptExchange_events m w) as HA. simpl in HA.
    destruct (attemptExchange m w) as [[[[ce r] [e|]]|] w1 evs1]; simpl in *.
    + (* the attempt failed: log and try again *)
      destruct HA as (Hc1 & Hm1 & Hf1 & Hs1).
      specialize (IH (ce, r, Some e) w1). simpl in IH.
      destruct (retryLoop n m (ce, r, Some e) w1) as [o2 w2 evs2]; simpl in *.
      destruct IH as (Hc2 & Hm2 & IH).
      split; [obs; repeat split; auto|].
      unfold attempts_made, attempts_failed in *.
      destruct o2 as [[[ce2 r2] [e2|]]|].
      * destruct IH as (?&?&?&?).
        counts. repeat split; lia.
      * destruct IH as [(-> & ? & ->)|(? & pre & entry & conn & rtt & t & -> & ? & ? & ? & ?)];
          [done|].
        counts.
        split; [lia|]. right. split; [lia|].
        exists (evs1 ++ EvLog WARNING "failed exchange with upstreams" :: pre), entry, conn, rtt, t.
        split; [by rewrite <- app_assoc|].
        split; [apply acquired_app; assumption|].
        repeat split; auto. counts. lia.
      * destruct IH as (?&?). counts. repeat split; lia.
    + (* the attempt succeeded: break *)
      destruct HA as (Hc1 & Hm1 & Hf1 & pre & entry & conn & rtt & t & -> & ? & ? & ? & ? & ?).
      rewrite app_nil_r. split; [done|]. unfold attempts_made, attempts_failed in *.
      split; [lia|]. right. split; [lia|]. eauto 10.
    + destruct HA as (Hc1 & Hm1 & Hs1 & [Hf1|]); [|done].
      unfold attempts_made, attempts_failed in *. repeat split; auto; lia.
Qed.


(** [RecursiveQuery] is its counter, the loop, and then either the error log
    or the return of the entry to the pool followed by [processResults]. *)
Lemma RecursiveQuery_shape domain rrtype w :
  exists id w1,
    dns_Id w = (id, w1) /\
    let lp := retryLoop (Z.to_nat (UpstreamRetries config + 1))
                (upstream_query id domain rrtype) (None, None, None) w1 in
    let res := RecursiveQuery config domain rrtype w in
    match outcome lp with
    | None =>
        events res = EvInc RecursiveQueryCounter :: events lp /\ outcome res = None
    | Some (ce, r, Some e) =>
        events res = EvInc RecursiveQueryCounter :: events lp
                     ++ [EvLog ERROR "failed to complete any exchanges with upstreams"] /\
        outcome res =
          Some (zeroResponse, "",
                Some ("failed to complete any exchanges with upstreams: " +:+ e))
    | Some (ce, r, None) =>
        exists adderr w2,
          pool_Add ce (world lp) = (adderr, w2) /\
          events res = EvInc RecursiveQueryCounter :: events lp
                       ++ EvPoolAdd ce adderr
                       :: match adderr with
                          | Some _ => [EvLog ERROR add_failed_log]
                          | None => []
                          end /\
          outcome res =
            match r, ce with
            | Some msg, Some entry =>
                Some (mkResponse domain msg 0 (fst (time_Now w2)) rrtype,
                      ConnEntry_GetAddress entry, None)
            | _, _ => None
            end
    end.
Proof.
  unfold RecursiveQuery, processResults, upstream_query, add_failed_log.
  unfold_monad.
  destruct (dns_Id w) as [id w1]. exists id, w1. split; [done|]. simpl.
  destruct (retryLoop _ _ _ w1) as [[[[ce r] [e|]]|] w2 evs]; simpl.
  - done.
  - destruct (pool_Add ce w2) as [adderr w3]. exists adderr, w3. split; [done|].
    destruct adderr, r, ce; simpl; try destruct (time_Now w3); simpl;
      rewrite ?app_nil_r; done.
  - done.
Qed.


Lemma upstream_query_has_question id domain rrtype :
  Dns.Question_ (upstream_query id domain rrtype) <> [].
Proof. done. Qed.

Lemma RecursiveQuery_events domain rrtype w :
  let res := RecursiveQuery config domain rrtype w in
  all_recursive_level (events res) /\
  increments RecursiveQueryCounter (events res) = 1%nat /\
  (attempts_made (events res) <= Z.to_nat (UpstreamRetries config + 1))%nat /\
  match outcome res with
  | Some (resp, src, Some e) =>
      attempts_failed (events res) = attempts_made (events res) /\
      (0 < attempts_made (events res))%nat /\
      pool_adds (events res) = [] /\ src = ""
  | Some (resp, src, None) =>
      attempts_made (events res) = S (attempts_failed (events res)) /\
      exists entry,
        pool_adds (events res) = [Some entry] /\
        src = ConnEntry_GetAddress entry /\
        Key resp = domain /\ RQtype resp = rrtype
  | None =>
      attempts_made (events res) = 0%nat \/
      attempts_made (events res) = S (attempts_failed (events res))
  end.
Proof.
  intros res; subst res.
  destruct (RecursiveQuery_shape domain rrtype w) as (id & w1 & _ & Hshape).
  simpl in Hshape.
  pose proof (retryLoop_events (Z.to_nat (UpstreamRetries config + 1)) _
                (upstream_query_has_question id domain rrtype) (None, None, None) w1)
    as HL.
  simpl in HL.
  destruct (retryLoop _ _ _ w1) as [[[[ce r] [e|]]|] w2 evs]; simpl in *.
  - (* every attempt failed *)
    destruct Hshape as [-> ->]. destruct HL as (Hc & Hm & Hf & Hn & Hs & H0).
    destruct (connection_level_no_adds _ Hc) as [Ha Hq].
    split; [|split; [|split; [|repeat split]]].
    + constructor; [done|]. apply Forall_app. split; [|by repeat constructor].
      eapply Forall_impl; [exact Hc|]. apply connection_level_recursive.
    + unfold increments in *. counts. lia.
    + unfold attempts_made in *. counts. lia.
    + unfold attempts_made, attempts_failed in *. counts. lia.
    + unfold attempts_made in *. counts.
      destruct (Z.to_nat (UpstreamRetries config + 1)); [|lia].
      by specialize (H0 eq_refl).
    + unfold pool_adds in *. simpl. rewrite omap_app, Ha. done.
  - (* an attempt succeeded *)
    destruct Hshape as (adderr & w3 & _ & -> & ->).
    destruct HL as (Hc & Hm & HL).
    destruct (connection_level_no_adds _ Hc) as [Ha Hq].
    assert (Hlog : all_recursive_level
              (match adderr with Some _ => [EvLog ERROR add_failed_log] | None => [] end)
            /\ forall p, (forall l s, p (EvLog l s) = false) ->
                 count p (match adderr with
                          | Some _ => [EvLog ERROR add_failed_log] | None => [] end) = 0%nat).
    { destruct adderr; split; try intros p Hp; simpl; rewrite ?Hp;
        by repeat constructor. }
    destruct Hlog as [Hlog1 Hlog2].
    split; [|split; [|split]].
    + constructor; [done|]. apply Forall_app. split.
      * eapply Forall_impl; [exact Hc|]. apply connection_level_recursive.
      * constructor; done.
    + unfold increments in *. counts. rewrite Hlog2 by done. lia.
    + unfold attempts_made in *. counts. rewrite Hlog2 by done. lia.
    + destruct HL as [(Hn & ? & ->)|(Hms & pre & entry & conn & rtt & t & -> & ? & ? & -> & ?)];
        simplify_eq.
      * (* no attempt at all: [*r] panics *)
        left. unfold attempts_made. counts. by rewrite Hlog2.
      * destruct r as [msg|]; simpl.
        -- unfold attempts_made, attempts_failed in *. counts.
           rewrite !Hlog2 by done.
           split; [lia|]. exists (AddExchange rtt entry).
           unfold pool_adds in *. simpl. rewrite omap_app, Ha. simpl.
           repeat split; try done.
           by destruct adderr.
        -- right. unfold attempts_made, attempts_failed in *. counts.
           rewrite !Hlog2 by done. lia.
  - destruct Hshape as [-> ->]. destruct HL as (Hc & Hm & Hf & Hs).
    split; [|split; [|split]].
    + constructor; [done|].
      eapply Forall_impl; [exact Hc|]. apply connection_level_recursive.
    + destruct (connection_level_no_adds _ Hc) as [Ha Hq].
      unfold increments in *. counts. lia.
    + unfold attempts_made in *. counts. lia.
    + right. unfold attempts_made, attempts_failed in *. counts. lia.
Qed.


(** [RetrieveRecords], branch by branch. *)
Lemma RetrieveRecords_shape domain rrtype w :
  let res := RetrieveRecords config domain rrtype w in
  exists r1 ok1 w1,
    cache_Get LookupCache domain rrtype w = ((r1, ok1), w1) /\
    if (ok1 : bool) then
      events res = [EvCacheGet LookupCache domain rrtype r1 true; EvInc CacheHitsCounter] /\
      outcome res = Some (r1, "cache", None)
    else
      exists r2 ok2 w2,
        cache_Get HostedCache domain rrtype w1 = ((r2, ok2), w2) /\
        if (ok2 : bool) then
          events res = [EvCacheGet LookupCache domain rrtype r1 false;
                        EvCacheGet HostedCache domain rrtype r2 true;
                        EvInc HostedCacheHitsCounter] /\
          outcome res = Some (r2, "cache", None)
        else
          let rq := RecursiveQuery config domain rrtype w2 in
          events res =
            EvCacheGet LookupCache domain rrtype r1 false
            :: EvCacheGet HostedCache domain rrtype r2 false
            :: events rq
            ++ match outcome rq with
               | Some (resp, _, None) => [EvCacheAdd LookupCache resp]
               | _ => []
               end /\
          outcome res =
            match outcome rq with
            | Some (resp, src, None) => Some (resp, src, None)
            | Some (resp, _, Some e) =>
                Some (resp, "",
                      Some ("error running recursive query on domain [" +:+ domain
                              +:+ "]: " +:+ e +:+ NL))
            | None => None
            end.
Proof.
  unfold RetrieveRecords. unfold_monad.
  destruct (cache_Get LookupCache domain rrtype w) as [[r1 [|]] w1];
    exists r1; eexists; exists w1; (split; [done|]); simpl; [done|].
  destruct (cache_Get HostedCache domain rrtype w1) as [[r2 [|]] w2];
    exists r2; eexists; exists w2; (split; [done|]); simpl; [done|].
  destruct (RecursiveQuery config domain rrtype w2) as [[[[resp src] [e|]]|] w3 evs];
    simpl; rewrite ?app_nil_r; try done.
  destruct (cache_Add LookupCache resp w3); simpl. done.
Qed.

Lemma forEach_events {A} (xs : list A) (body : A -> M W unit) (f : A -> list Event) w :
  (forall x w', body x w' = mkRes (Some tt) w' (f x)) ->
  forEach xs body w = mkRes (Some tt) w (flat_map f xs).
Proof.
  intros Hb. induction xs as [|x xs IH]; simpl; [done|].
  unfold bind. rewrite Hb, IH. done.
Qed.

(** [logQuery] never fails and only writes to the query log. *)
Lemma logQuery_run source duration m (w : W) :
  logQuery source duration m w =
  mkRes (Some None) w (map EvQueryLog (records_of source duration m)).
Proof.
  unfold logQuery, records_of. unfold bind at 1.
  erewrite (forEach_events _ _
    (fun q => map EvQueryLog (map (fun a => mkQueryRecord (Dns.QName q) (Dns.Qtype q)
        (Dns.Opcode m) (answer_field a) ("[" +:+ source +:+ "]") duration) (Dns.Answer m)))).
  - unfold ret; simpl. rewrite app_nil_r. f_equal.
    induction (Dns.Question_ m) as [|q qs IH]; simpl; [done|].
    by rewrite map_app, IH.
  - intros q w'.
    erewrite (forEach_events _ _ (fun a => [EvQueryLog (mkQueryRecord (Dns.QName q)
        (Dns.Qtype q) (Dns.Opcode m) (answer_field a) ("[" +:+ source +:+ "]") duration)])).
    + f_equal. induction (Dns.Answer m) as [|a l IH]; simpl; [done|]. by rewrite IH.
    + intros a w''. unfold answer_field, bind, deref, emit, ret.
      destruct (Split_last SPACE (Dns.RR_String a)) as [x ->]. done.
Qed.


Lemma RetrieveRecords_events domain rrtype w :
  let res := RetrieveRecords config domain rrtype w in
  writes (events res) = [] /\ query_records (events res) = [] /\
  increments LocalServfailsCounter (events res) = 0%nat /\
  cache_inserts HostedCache (events res) = [] /\
  (attempts_made (events res) <= Z.to_nat (UpstreamRetries config + 1))%nat /\
  match outcome res with
  | Some (_, _, Some _) =>
      attempts_failed (events res) = attempts_made (events res) /\
      (0 < attempts_made (events res))%nat /\
      cache_inserts LookupCache (events res) = []
  | _ =>
      attempts_made (events res) = 0%nat \/
      attempts_made (events res) = S (attempts_failed (events res))
  end.
Proof.
  intros res; subst res.
  destruct (RetrieveRecords_shape domain rrtype w) as (r1 & ok1 & w1 & _ & Hs).
  simpl in Hs. destruct ok1.
  { destruct Hs as [-> ->]. repeat split; try done. obs. lia. by left. }
  destruct Hs as (r2 & ok2 & w2 & _ & Hs). destruct ok2.
  { destruct Hs as [-> ->]. repeat split; try done. obs. lia. by left. }
  destruct Hs as [-> ->].
  pose proof (RecursiveQuery_events domain rrtype w2) as HR. simpl in HR.
  destruct HR as (Hlvl & Hrq & Hm & HR).
  destruct (recursive_level_quiet _ Hlvl) as (Hw & Hq & Hl & Hi & Hls & _).
  unfold writes, query_records, increments, cache_inserts, attempts_made,
    attempts_failed in *.
  destruct (RecursiveQuery config domain rrtype w2) as [[[[resp src] [e|]]|] w3 evs];
    simpl in *; rewrite ?omap_app, ?Hw, ?Hq, ?Hi; counts;
    repeat split; try done; try lia.
  all: destruct HR as (?&?&?&?); lia.
Qed.

(** C5: [RetrieveRecords] first asks the lookup cache (the call
    [cache_Get LookupCache] on the world it starts in); on a hit it bumps
    [cache_hits] and answers from source "cache".  Otherwise it asks the
    hosted cache; on a hit it bumps [hosted_cache_hits] and answers from
    source "cache".  Only when both miss does it run [RecursiveQuery], once,
    on the world the two lookups leave (no further cache lookup happens), and
    what it does next is decided by what [RecursiveQuery] returned.  When
    [RecursiveQuery] succeeds, [RetrieveRecords] returns that very response
    and source, the source being the address of the connection entry that
    served the exchange, and inserts the response into the lookup cache, last
    of all.  When [RecursiveQuery] fails, its error is wrapped, the source is
    empty and nothing is inserted; when it panics nothing is inserted either.
    Nothing is ever inserted into the hosted cache. *)
Theorem RetrieveRecords_consults_caches_in_order domain rrtype w :
  let res := RetrieveRecords config domain rrtype w in
  cache_inserts HostedCache (events res) = [] /\
  exists r1 ok1 w1 rest,
    cache_Get LookupCache domain rrtype w = ((r1, ok1), w1) /\
    events res = EvCacheGet LookupCache domain rrtype r1 ok1 :: rest /\
    if (ok1 : bool) then
      outcome res = Some (r1, "cache", None) /\ rest = [EvInc CacheHitsCounter]
    else
      exists r2 ok2 w2 rest2,
        cache_Get HostedCache domain rrtype w1 = ((r2, ok2), w2) /\
        rest = EvCacheGet HostedCache domain rrtype r2 ok2 :: rest2 /\
        if (ok2 : bool) then
          outcome res = Some (r2, "cache", None) /\
          rest2 = [EvInc HostedCacheHitsCounter]
        else
          let rq := RecursiveQuery config domain rrtype w2 in
          increments RecursiveQueryCounter rest2 = 1%nat /\
          cache_lookups rest2 = [] /\
          match outcome rq with
          | Some (resp, src, None) =>
              outcome res = Some (resp, src, None) /\
              rest2 = events rq ++ [EvCacheAdd LookupCache resp] /\
              cache_inserts LookupCache (events rq) = [] /\
              cache_inserts LookupCache rest2 = [resp] /\
              last rest2 = Some (EvCacheAdd LookupCache resp) /\
              exists entry,
                pool_adds rest2 = [Some entry] /\ src = ConnEntry_GetAddress entry
          | Some (resp, _, Some e) =>
              outcome res
              = Some (resp, "",
                      Some ("error running recursive query on domain [" +:+ domain
                              +:+ "]: " +:+ e +:+ NL)) /\
              rest2 = events rq /\
              cache_inserts LookupCache rest2 = []
          | None =>
              outcome res = None /\
              rest2 = events rq /\
              cache_inserts LookupCache rest2 = []
          end.
Proof.
  intros res; subst res.
  split; [apply RetrieveRecords_events|].
  destruct (RetrieveRecords_shape domain rrtype w) as (r1 & ok1 & w1 & Hg1 & Hs).
  simpl in Hs. exists r1, ok1, w1. destruct ok1.
  { destruct Hs as [-> ->]. eauto. }
  destruct Hs as (r2 & ok2 & w2 & Hg2 & Hs). destruct ok2.
  { destruct Hs as [-> ->]. eexists. split; [done|]. split; [done|].
    exists r2, true, w2. eauto. }
  destruct Hs as [-> ->]. eexists. split; [done|]. split; [done|].
  exists r2, false, w2. eexists. split; [done|]. split; [done|].
  pose proof (RecursiveQuery_events domain rrtype w2) as HR. simpl in HR.
  destruct HR as (Hlvl & Hrq & Hm & HR).
  destruct (recursive_level_quiet _ Hlvl) as (Hw & Hq & Hl & Hi & Hls & _).
  unfold increments, cache_lookups, cache_inserts, pool_adds in *.
  destruct (RecursiveQuery config domain rrtype w2) as [[[[resp src] [e|]]|] w3 evs];
    simpl in *; rewrite ?omap_app, ?Hl, ?Hi, ?app_nil_r; counts.
  - repeat split; try done; try lia.
  - repeat split; try done; try lia.
    + by rewrite last_snoc.
    + destruct HR as (_ & entry & Ha & -> & _). exists entry. by rewrite Ha.
  - repeat split; try done; lia.
Qed.


(** C4 (amended): after a successful exchange [RecursiveQuery] does exactly
    this: it observes the exchange timer, hands the entry (with the exchange
    counted) to [connPool.Add], and, when [Add] answers with an error, logs
    that error.  [Add] answers with an error or nothing, there is no other
    signal; the entry is closed by nobody on this path, and the reply is
    still processed and returned. *)
Theorem RecursiveQuery_after_successful_exchange
    domain rrtype w pre post m conn reply rtt :
  let res := RecursiveQuery config domain rrtype w in
  events res = pre ++ EvExchange m conn reply rtt None :: post ->
  exists entry t adderr,
    acquired pre = Some (Some entry) /\ Conn entry = Some conn /\
    post = [EvObserve (ExchangeTimer (ConnEntry_GetAddress entry)) t;
            EvPoolAdd (Some (AddExchange rtt entry)) adderr]
           ++ match adderr with
              | Some _ => [EvLog ERROR add_failed_log]
              | None => []
              end /\
    pool_closes post = [] /\
    match reply with
    | Some msg =>
        exists resp,
          outcome res = Some (resp, ConnEntry_GetAddress entry, None) /\
          Entry resp = msg
    | None => outcome res = None
    end.
Proof.
  intros res Hev; subst res.
  destruct (RecursiveQuery_shape domain rrtype w) as (id & w1 & _ & Hshape).
  simpl in Hshape.
  pose proof (retryLoop_events (Z.to_nat (UpstreamRetries config + 1)) _
                (upstream_query_has_question id domain rrtype) (None, None, None) w1)
    as HL.
  simpl in HL.
  pose proof (count_pos_in is_success pre post (EvExchange m conn reply rtt None) eq_refl)
    as Hpos.
  rewrite <- Hev in Hpos.
  destruct (retryLoop _ _ _ w1) as [[[[ce r] [e|]]|] w2 evs]; simpl in *.
  - destruct Hshape as [Hs _]. destruct HL as (_ & _ & _ & _ & Hz & _).
    rewrite Hs in Hpos. counts. lia.
  - destruct Hshape as (adderr & w3 & _ & Hs & Ho).
    destruct HL as (_ & _ & [(_ & _ & ->)|(_ & lpre & entry & conn' & rtt' & t & -> & Hacq & Hconn & -> & Hz)]).
    { rewrite Hs in Hpos. counts. destruct adderr; simpl in Hpos; lia. }
    rewrite Hs in Hev. rewrite <- app_assoc in Hev. simpl in Hev.
    apply (split_at_unique is_success (EvInc RecursiveQueryCounter :: lpre)) in Hev;
      [|done|done|by counts|by destruct adderr].
    destruct Hev as (<- & Heq & <-). simplify_eq.
    exists entry, t, adderr. repeat split; try done.
    + by destruct adderr.
    + rewrite Ho. destruct reply; [|done]. eexists; split; reflexivity.
  - destruct Hshape as [Hs _]. destruct HL as (_ & _ & _ & Hz).
    rewrite Hs in Hpos. counts. lia.
Qed.


Lemma sendServfail_run wr duration r (w : W) :
  exists w', 
    sendServfail wr duration r w =
    mkRes (Some tt) w'
      (EvInc LocalServfailsCounter :: EvWriteMsg wr (servfail_for r)
       :: map EvQueryLog (records_of "servfail" duration (servfail_for r))).
Proof.
  unfold sendServfail, servfail_for. unfold bind at 1 2 3. unfold Inc, emit, call, ret.
  destruct (writer_WriteMsg wr _ w) as [e w']. exists w'.
  rewrite logQuery_run. simpl. by rewrite app_nil_r.
Qed.

Lemma records_of_servfail duration r :
  records_of "servfail" duration (servfail_for r) = [].
Proof.
  unfold records_of, servfail_for. simpl.
  induction (match Dns.Question_ r with [] => [] | q :: _ => [q] end); done.
Qed.

(** [HandleDNS], branch by branch. *)
Lemma HandleDNS_shape wr r w :
  let res := HandleDNS config wr r w in
  match Dns.Question_ r with
  | [] =>
      outcome res = None /\
      events res = [EvInc TotalDnsQueriesCounter; EvGaugeInc]
  | q :: _ =>
      exists t0 w1 semerr w2,
        time_Now w = (t0, w1) /\ sem_Acquire w1 = (semerr, w2) /\
        match semerr with
        | Some _ =>
            outcome res = None /\
            events res =
              [EvInc TotalDnsQueriesCounter; EvGaugeInc; EvSemAcquire semerr;
               EvLog CRITICAL "failed to acquire semaphore allowing queries to progress"]
        | None =>
            let rr := RetrieveRecords config (Dns.QName q) (Dns.Qtype q) w2 in
            exists t1,
              events res =
                [EvInc TotalDnsQueriesCounter; EvGaugeInc; EvSemAcquire None; EvGaugeDec]
                ++ events rr
                ++ match outcome rr with
                   | None => []
                   | Some (_, _, Some _) =>
                       [EvLog ERROR "error retrieving record for domain";
                        EvObserve QueryTimer (t1 - t0);
                        EvInc LocalServfailsCounter;
                        EvWriteMsg wr (servfail_for r)]
                   | Some (response, source, None) =>
                       [EvWriteMsg wr (reply_for r response);
                        EvObserve QueryTimer (t1 - t0)]
                       ++ map EvQueryLog
                            (records_of source (t1 - t0) (reply_for r response))
                   end
                ++ [EvSemRelease] /\
              outcome res =
                match outcome rr with
                | None => None
                | Some _ => Some tt
                end
        end
  end.
Proof.
  unfold HandleDNS, sendServfail. unfold_monad. simpl.
  destruct (time_Now w) as [t0 w1] eqn:Ht. simpl.
  destruct (Dns.Question_ r) as [|q qs] eqn:Hq; simpl; [done|].
  destruct (sem_Acquire w1) as [semerr w2] eqn:Hsem. simpl.
  exists t0, w1, semerr, w2. split; [done|]. split; [done|].
  destruct semerr as [e|]; simpl; [done|].
  destruct (RetrieveRecords config (Dns.QName q) (Dns.Qtype q) w2)
    as [[[[response source] [e|]]|] w3 evs]; simpl.
  - destruct (time_Now w3) as [t1 w4]. simpl.
    destruct (writer_WriteMsg _ _ w4) as [? w5]. simpl.
    rewrite logQuery_run. simpl.
    fold (servfail_for r). rewrite records_of_servfail. simpl.
    destruct (sem_Release w5). simpl. exists t1. split; [|done].
    by rewrite <- !app_assoc.
  - destruct (writer_WriteMsg _ _ w3) as [? w4]. simpl.
    destruct (time_Now w4) as [t1 w5]. simpl.
    rewrite logQuery_run. simpl.
    destruct (sem_Release w5). simpl. exists t1. split; [|done].
    rewrite app_nil_r. by rewrite <- !app_assoc.
  - destruct (sem_Release w3). simpl. exists 0. done.
Qed.


(** C1: in a query whose exchange attempts all fail (there is at least one
    attempt, and every attempt ran into an error answered by the pool or the
    client), [RecursiveQuery] has made at most [UpstreamRetries + 1] attempts;
    the handler returns normally, the one message written to the client is
    SERVFAIL with the id of the request and the question the handler looked
    up, [local_servfails] is incremented once and nothing is inserted into
    the lookup cache. *)
Theorem HandleDNS_all_attempts_fail wr r w :
  let res := HandleDNS config wr r w in
  (0 < attempts_made (events res))%nat ->
  attempts_failed (events res) = attempts_made (events res) ->
  Z.of_nat (attempts_made (events res)) <= UpstreamRetries config + 1 /\
  outcome res = Some tt /\
  (exists q,
     head (Dns.Question_ r) = Some q /\
     writes (events res) = [(wr, servfail_for r)] /\
     Dns.Rcode (servfail_for r) = Dns.RcodeServerFailure /\
     Dns.Id (servfail_for r) = Dns.Id r /\
     Dns.Question_ (servfail_for r) = [q]) /\
  increments LocalServfailsCounter (events res) = 1%nat /\
  cache_inserts LookupCache (events res) = [].
Proof.
  intros res; subst res.
  pose proof (HandleDNS_shape wr r w) as Hs. simpl in Hs.
  destruct (Dns.Question_ r) as [|q qs] eqn:Hq.
  { destruct Hs as [_ ->]. unfold attempts_made. simpl. lia. }
  destruct Hs as (t0 & w1 & semerr & w2 & _ & _ & Hs).
  destruct semerr as [e|].
  { destruct Hs as [_ ->]. unfold attempts_made. simpl. lia. }
  destruct Hs as (t1 & -> & ->).
  pose proof (RetrieveRecords_events (Dns.QName q) (Dns.Qtype q) w2) as HR.
  simpl in HR. destruct HR as (Hw & Hql & Hls & Hh & Hm & HR).
  unfold attempts_made, attempts_failed, increments, writes, cache_inserts in *.
  destruct (RetrieveRecords config (Dns.QName q) (Dns.Qtype q) w2)
    as [[[[response source] [e|]]|] w3 evs]; simpl in *; intros Hpos Hall.
  - destruct HR as (Hf & Hp & Hi).
    rewrite !omap_app, Hw, Hi. counts.
    repeat split; try done; try lia.
    exists q. repeat split; try done.
    unfold servfail_for. simpl. by rewrite Hq.
  - exfalso. counts. rewrite !count_querylog in * by done. lia.
  - exfalso. counts. lia.
Qed.

(** X11: whatever the collaborators answer, a query makes at most
    [UpstreamRetries + 1] attempts, and at most one of them did not fail: the
    loop stops at the first attempt that succeeds. *)
Lemma HandleDNS_attempts_bounded wr r w :
  let res := HandleDNS config wr r w in
  (attempts_made (events res) <= Z.to_nat (UpstreamRetries config + 1))%nat /\
  (attempts_made (events res) <= S (attempts_failed (events res)))%nat.
Proof.
  intros res; subst res.
  pose proof (HandleDNS_shape wr r w) as Hs. simpl in Hs.
  destruct (Dns.Question_ r) as [|q qs] eqn:Hq.
  { destruct Hs as [_ ->]. unfold attempts_made. simpl. lia. }
  destruct Hs as (t0 & w1 & semerr & w2 & _ & _ & Hs).
  destruct semerr as [e|].
  { destruct Hs as [_ ->]. unfold attempts_made. simpl. lia. }
  destruct Hs as (t1 & -> & _).
  pose proof (RetrieveRecords_events (Dns.QName q) (Dns.Qtype q) w2) as HR.
  simpl in HR. destruct HR as (_ & _ & _ & _ & Hm & HR).
  unfold attempts_made, attempts_failed in *.
  destruct (RetrieveRecords config (Dns.QName q) (Dns.Qtype q) w2)
    as [[[[response source] [e|]]|] w3 evs]; simpl in *; counts;
    rewrite ?count_querylog by done; lia.
Qed.

(** C10: [HandleDNS] indexes the first question before anything else is
    checked; for a request whose question section is empty that index is
    out of range: the handler panics after the two metric updates, and no
    reply is written. *)
Theorem HandleDNS_empty_question_panics wr r w :
  Dns.Question_ r = [] ->
  let res := HandleDNS config wr r w in
  outcome res = None /\
  events res = [EvInc TotalDnsQueriesCounter; EvGaugeInc] /\
  writes (events res) = [].
Proof.
  intros Hq res; subst res.
  pose proof (HandleDNS_shape wr r w) as Hs. simpl in Hs. rewrite Hq in Hs.
  destruct Hs as [-> ->]. done.
Qed.


(** C2 (amended): whenever [attemptExchange] runs an exchange on the entry it
    acquired, [AddExchange] with the measured round-trip time is applied to
    the entry, whether the exchange succeeded or not.  On success the entry
    so updated is returned with the reply, nothing is closed and
    [upstream_errors] is untouched.  On an error [AddError] is applied as
    well, the pool is asked to close that entry, [upstream_errors] of the
    entry's address is incremented once, and the function returns a fresh
    empty entry, an empty message and an error: the used connection is not
    handed back. *)
Theorem attemptExchange_exchange m w m' conn reply rtt err :
  let res := attemptExchange m w in
  In (EvExchange m' conn reply rtt err) (events res) ->
  exists entry,
    acquired (events res) = Some (Some entry) /\ Conn entry = Some conn /\ m' = m /\
    let address := ConnEntry_GetAddress entry in
    match err with
    | None =>
        outcome res = Some (Some (AddExchange rtt entry), reply, None) /\
        pool_closes (events res) = [] /\
        increments (UpstreamErrorsCounter address) (events res) = 0%nat
    | Some _ =>
        pool_closes (events res) = [Some (AddError (AddExchange rtt entry))] /\
        increments (UpstreamErrorsCounter address) (events res) = 1%nat /\
        match Dns.Question_ m with
        | q :: _ =>
            outcome res =
              Some (newZeroConnEntry, Some Dns.zeroMsg,
                    Some ("error looking up domain [" +:+ Dns.QName q
                            +:+ "] on server [" +:+ address +:+ "]"))
        | [] => outcome res = None
        end
    end.
Proof.
  intros res Hin; subst res; revert Hin.
  unfold attemptExchange, GetConnection, GetConnection_hit, newConnection.
  unfold_monad. intros Hin.
  run.
  all: repeat match goal with H : _ \/ _ |- _ => destruct H end; simplify_eq; try done.
  all: eexists; obs; repeat split; try eassumption; try reflexivity.
  all: by rewrite bool_decide_true.
Qed.

(** C9: every return of [GetConnection] without an error increments
    [reused_connections] of the returned entry's address exactly once; this
    includes the pool miss, where the returned entry is the one
    [NewConnection] has just dialled. *)
Theorem GetConnection_counts_every_acquisition w ce :
  let res := GetConnection w in
  outcome res = Some (ce, None) ->
  exists entry,
    ce = Some entry /\
    acquired (events res) = Some ce /\
    increments (ReusedConnectionsCounter (ConnEntry_GetAddress entry)) (events res)
      = 1%nat /\
    forall ce0 u,
      In (EvPoolGet ce0 u None) (events res) -> u <> zeroUpstream ->
      In (EvPoolNewConnection u ce None) (events res).
Proof.
  intros res Hout; subst res; revert Hout.
  unfold GetConnection, GetConnection_hit, newConnection.
  unfold_monad. intros Hout.
  run.
  all: eexists; obs; repeat split; try reflexivity.
  all: try by rewrite bool_decide_true.
  all: intros ce0 u0 Hin Hne;
    repeat match goal with H : _ \/ _ |- _ => destruct H end; simplify_eq; auto.
Qed.



(** X12: [logQuery] emits one record for each pair of a question and an answer. *)
Lemma logQuery_one_record_per_pair source duration m (w : W) :
  query_records (events (logQuery source duration m w)) = records_of source duration m /\
  List.length (records_of source duration m)
    = (List.length (Dns.Question_ m) * List.length (Dns.Answer m))%nat.
Proof.
  rewrite logQuery_run. simpl. split.
  - apply query_records_map.
  - unfold records_of. induction (Dns.Question_ m) as [|q qs IH]; simpl; [done|].
    by rewrite length_app, length_map, IH.
Qed.

(** [sendServfail] passes a message without answers to [logQuery]: no record
    reaches the query log. *)
Lemma sendServfail_emits_no_record wr duration r (w : W) :
  query_records (events (sendServfail wr duration r w)) = [].
Proof.
  destruct (sendServfail_run wr duration r w) as [w' ->].
  by rewrite records_of_servfail.
Qed.

(** [SetRcode] leaves the ra and aa bits of the stored message as they are. *)
Lemma reply_for_flags r response :
  Dns.RecursionAvailable (reply_for r response)
    = Dns.RecursionAvailable (Entry response) /\
  Dns.Authoritative (reply_for r response) = Dns.Authoritative (Entry response) /\
  Dns.Id (reply_for r response) = Dns.Id r.
Proof. done. Qed.

End Runs.

(** ** The scenarios, evaluated *)

Import Scenario.

(** C1, witness: two upstream attempts, both failing, with one retry
    configured. *)
Lemma HandleDNS_all_attempts_fail_witness :
  (0 < attempts_made (events all_failing_run))%nat /\
  attempts_failed (events all_failing_run) = attempts_made (events all_failing_run) /\
  (Z.of_nat (attempts_made (events all_failing_run)) <= UpstreamRetries config1 + 1 /\
   outcome all_failing_run = Some tt /\
   (exists q,
      head (Dns.Question_ query) = Some q /\
      writes (events all_failing_run) = [(client_writer, servfail_for query)] /\
      Dns.Rcode (servfail_for query) = Dns.RcodeServerFailure /\
      Dns.Id (servfail_for query) = Dns.Id query /\
      Dns.Question_ (servfail_for query) = [q]) /\
   increments LocalServfailsCounter (events all_failing_run) = 1%nat /\
   cache_inserts LookupCache (events all_failing_run) = []).
Proof.
  split; [vm_compute; lia|]. split; [reflexivity|].
  apply (HandleDNS_all_attempts_fail config1 client_writer query all_failing);
    [vm_compute; lia | reflexivity].
Defined.

(** C10, witness: a request without a question. *)
Lemma HandleDNS_empty_question_panics_witness :
  Dns.Question_ query_no_question = [] /\
  outcome (HandleDNS config1 client_writer query_no_question answering) = None /\
  events (HandleDNS config1 client_writer query_no_question answering)
    = [EvInc TotalDnsQueriesCounter; EvGaugeInc] /\
  writes (events (HandleDNS config1 client_writer query_no_question answering)) = [].
Proof.
  split; [reflexivity|].
  apply (HandleDNS_empty_question_panics config1 client_writer query_no_question answering).
  reflexivity.
Defined.

(** C9, witness: the pool is empty, the connection is dialled, and the
    counter of reused connections is incremented all the same. *)
Lemma GetConnection_counts_every_acquisition_witness :
  outcome (GetConnection answering_pool_empty) = Some (Some dialled, None) /\
  exists entry,
    Some dialled = Some entry /\
    acquired (events (GetConnection answering_pool_empty)) = Some (Some dialled) /\
    increments (ReusedConnectionsCounter (ConnEntry_GetAddress entry))
      (events (GetConnection answering_pool_empty)) = 1%nat /\
    forall ce0 u,
      In (EvPoolGet ce0 u None) (events (GetConnection answering_pool_empty)) ->
      u <> zeroUpstream ->
      In (EvPoolNewConnection u (Some dialled) None)
         (events (GetConnection answering_pool_empty)).
Proof.
  split; [reflexivity|].
  apply (GetConnection_counts_every_acquisition answering_pool_empty (Some dialled)).
  reflexivity.
Defined.

(** C2 (amended), witness: an exchange that fails on a pooled connection. *)
Lemma attemptExchange_exchange_witness :
  In (EvExchange sent 7%nat None 5 (Some "EOF")) (events (attemptExchange sent all_failing)) /\
  exists entry,
    acquired (events (attemptExchange sent all_failing)) = Some (Some entry) /\
    Conn entry = Some 7%nat /\ sent = sent /\
    pool_closes (events (attemptExchange sent all_failing))
      = [Some (AddError (AddExchange 5 entry))] /\
    increments (UpstreamErrorsCounter (ConnEntry_GetAddress entry))
      (events (attemptExchange sent all_failing)) = 1%nat /\
    outcome (attemptExchange sent all_failing) =
      Some (newZeroConnEntry, Some Dns.zeroMsg,
            Some ("error looking up domain [" +:+ "example.com."
                    +:+ "] on server [" +:+ ConnEntry_GetAddress entry +:+ "]")).
Proof.
  assert (Hin : In (EvExchange sent 7%nat None 5 (Some "EOF"))
                  (events (attemptExchange sent all_failing))).
  { vm_compute. repeat (first [left; reflexivity | right]). }
  split; [exact Hin|].
  exact (attemptExchange_exchange sent all_failing sent 7%nat None 5 (Some "EOF") Hin).
Defined.

(** C2, counterexample: the exchange fails, yet the entry handed to
    [CloseConnection] has its exchange counter and round-trip time moved on:
    [AddExchange] is not reserved to successful exchanges. *)
Lemma attemptExchange_counts_failed_exchange :
  ~ exchange_counted_only_on_success sent all_failing.
Proof.
  intros H.
  specialize (H 7%nat None 5 "EOF" pooled).
  assert (Hin : In (EvExchange sent 7%nat None 5 (Some "EOF"))
                  (events (attemptExchange sent all_failing))).
  { vm_compute. repeat (first [left; reflexivity | right]). }
  specialize (H Hin eq_refl). vm_compute in H. discriminate H.
Qed.

(** C4 (amended), witness: the exchange succeeds and the pool rejects the
    entry. *)
Lemma RecursiveQuery_after_successful_exchange_witness :
  events pool_full_run =
    pool_full_pre ++ EvExchange sent 7%nat (Some reply_a) 10 None :: pool_full_post /\
  exists entry t adderr,
    acquired pool_full_pre = Some (Some entry) /\
    Conn entry = Some 7%nat /\
    pool_full_post
    = [EvObserve (ExchangeTimer (ConnEntry_GetAddress entry)) t;
       EvPoolAdd (Some (AddExchange 10 entry)) adderr]
      ++ match adderr with
         | Some _ => [EvLog ERROR add_failed_log]
         | None => []
         end /\
    pool_closes pool_full_post = [] /\
    exists resp,
      outcome pool_full_run = Some (resp, ConnEntry_GetAddress entry, None) /\
      Entry resp = reply_a.
Proof.
  split; [reflexivity|].
  exact (RecursiveQuery_after_successful_exchange config1 "example.com." 1
           answering_pool_full pool_full_pre pool_full_post sent 7%nat
           (Some reply_a) 10 eq_refl).
Defined.

(** C4, counterexample: [Add] answers "connection pool is full" and no
    [CloseConnection] follows, nor any other close. *)
Lemma RecursiveQuery_leaves_rejected_entry_open :
  ~ rejected_entry_closed (events pool_full_run).
Proof.
  intros H.
  apply (H (Some (AddExchange 10 pooled)) "connection pool is full").
  - vm_compute. repeat (first [left; reflexivity | right]).
  - reflexivity.
Qed.

(** C3, evaluated: for a reply whose only answer has a TTL of 30 seconds,
    [processResults] yields a response whose TTL is 0, not 30. *)
Theorem processResults_ttl_not_derived :
  exists resp,
    outcome (processResults reply_a "example.com." 1 answering) = Some (resp, None) /\
    Ttl resp = 0 /\ min_answer_ttl reply_a = 30.
Proof. eexists. repeat split; reflexivity. Qed.

(** C5, witness: both caches miss and the upstream answers.  The response
    that [RecursiveQuery] built from the upstream's reply is what
    [RetrieveRecords] returns, with the upstream's address as source, and it
    is the one response inserted into the lookup cache. *)
Lemma RetrieveRecords_consults_caches_in_order_witness :
  let res := RetrieveRecords config1 "example.com." 1 answering in
  let resp := mkResponse "example.com." reply_a 0 1002 1 in
  cache_Get LookupCache "example.com." 1 answering = ((zeroResponse, false), answering) /\
  cache_Get HostedCache "example.com." 1 answering = ((zeroResponse, false), answering) /\
  outcome (RecursiveQuery config1 "example.com." 1 answering)
  = Some (resp, "u1:853", None) /\
  outcome res = Some (resp, "u1:853", None) /\
  events res
  = EvCacheGet LookupCache "example.com." 1 zeroResponse false
    :: EvCacheGet HostedCache "example.com." 1 zeroResponse false
    :: events (RecursiveQuery config1 "example.com." 1 answering)
    ++ [EvCacheAdd LookupCache resp] /\
  cache_inserts LookupCache (events res) = [resp] /\
  cache_inserts HostedCache (events res) = [].
Proof.
  intros res resp.
  assert (Hrq : outcome (RecursiveQuery config1 "example.com." 1 answering)
                = Some (resp, "u1:853", None)) by (vm_compute; reflexivity).
  destruct (RetrieveRecords_consults_caches_in_order config1 "example.com." 1 answering)
    as (Hhosted & r1 & ok1 & w1 & rest & Hg1 & Hev & Hb).
  change (cache_Get LookupCache "example.com." 1 answering)
    with ((zeroResponse, false), answering) in Hg1.
  injection Hg1 as <- <- <-.
  destruct Hb as (r2 & ok2 & w2 & rest2 & Hg2 & Hrest & Hb).
  change (cache_Get HostedCache "example.com." 1 answering)
    with ((zeroResponse, false), answering) in Hg2.
  injection Hg2 as <- <- <-.
  cbv zeta in Hb. rewrite Hrq in Hb.
  destruct Hb as (_ & _ & Hout & Hrest2 & _ & Hins & _).
  fold res in Hout, Hev, Hhosted.
  split; [reflexivity|]. split; [reflexivity|].
  split; [exact Hrq|]. split; [exact Hout|].
  split; [rewrite Hev, Hrest, Hrest2; reflexivity|].
  split; [rewrite Hev, Hrest; exact Hins|exact Hhosted].
Defined.


(** C7, evaluated: the query whose exchanges all fail is answered with
    SERVFAIL and leaves no record at all in the query log. *)
Theorem sendServfail_logs_nothing :
  writes (events all_failing_run) = [(client_writer, servfail_for query)] /\
  Dns.Rcode (servfail_for query) = Dns.RcodeServerFailure /\
  query_records (events all_failing_run) = [].
Proof. repeat split; reflexivity. Qed.

(** The answer field is what follows the last space of the RR text; the
    header fields are separated by TABs, so for an A record it is the whole
    line, not the address. *)
Lemma answer_field_keeps_header :
  answer_field rr_a = Dns.RR_String rr_a /\
  answer_field rr_a <> "1.2.3.4" /\
  answer_field rr_mx = "mail.example.com.".
Proof. repeat split; try reflexivity. vm_compute. discriminate. Qed.

(** C8, evaluated: a query answered from a hosted record is replied to with
    rcode success and the ra bit clear: the bit comes from the stored
    message, the reply on which [HandleDNS] sets ra and clears aa is never
    written. *)
Theorem HandleDNS_reply_flags_from_entry :
  writes (events hosted_run) = [(client_writer, reply_for query hosted_a)] /\
  Dns.Rcode (reply_for query hosted_a) = Dns.RcodeSuccess /\
  Dns.RecursionAvailable (reply_for query hosted_a) = false.
Proof. repeat split; reflexivity. Qed.

(** * More of the code *)

(** ** The query pipeline: helpers *)

(** What [RecursiveQuery] may do, [RetrieveRecords] may do. *)
Lemma recursive_level_retrieve e :
  recursive_level e = true -> retrieve_level e = true.
Proof. by destruct e as [| | | | | |[]| | |[]| | |[]| | |]. Qed.

(** [RetrieveRecords] leaves the client, the query log, the hosted cache,
    the semaphore and the gauge alone. *)
Lemma retrieve_level_inert evs :
  all_retrieve_level evs ->
  writes evs = [] /\ query_records evs = [] /\
  cache_inserts HostedCache evs = [] /\
  increments LocalServfailsCounter evs = 0%nat /\
  increments TotalDnsQueriesCounter evs = 0%nat /\
  permits_taken evs = 0%nat /\ permits_released evs = 0%nat /\
  gauge_incs evs = 0%nat /\ gauge_decs evs = 0%nat.
Proof.
  induction 1 as [|e evs He _ IH]; [by repeat split|].
  destruct IH as (?&?&?&?&?&?&?&?&?).
  unfold permits_taken, permits_released, gauge_incs, gauge_decs in *.
  destruct e as [| | | | | |[]| | |[]| | |[]| | |]; simpl in He; try discriminate;
    obs; repeat split; auto.
Qed.

(** An event of a run is of the level of the run. *)
Lemma level_In (lvl : Event -> bool) evs e :
  Forall (fun e => lvl e = true) evs -> In e evs -> lvl e = true.
Proof. intros Hall Hin. rewrite Forall_forall in Hall. apply Hall. by apply list_elem_of_In. Qed.

(** A message with one question gets one record for each answer. *)
Lemma records_of_one_question source duration m q :
  Dns.Question_ m = [q] ->
  List.length (records_of source duration m) = List.length (Dns.Answer m).
Proof.
  intros Hq. unfold records_of. rewrite Hq. simpl.
  by rewrite app_nil_r, length_map.
Qed.

Ltac omaps := repeat (progress (rewrite ?omap_app in *; simpl in * )).

(** Records of the query log are no writes to the client. *)
Lemma writes_querylog (l : list QueryRecord) : writes (map EvQueryLog l) = [].
Proof. by induction l. Qed.

(** A lookup among the events shows among the lookups. *)
Lemma cache_lookups_In evs c d t r ok :
  In (EvCacheGet c d t r ok) evs -> cache_lookups evs <> [].
Proof.
  induction evs as [|e evs IH]; [done|]. intros [->|Hin]; [done|].
  unfold cache_lookups in *. simpl. destruct e; simpl; auto; done.
Qed.

(** An insert among the events shows among the inserts of its cache. *)
Lemma cache_inserts_In evs c r :
  In (EvCacheAdd c r) evs -> cache_inserts c evs <> [].
Proof.
  induction evs as [|e evs IH]; [done|]. intros [->|Hin].
  - unfold cache_inserts. simpl. by rewrite decide_True.
  - unfold cache_inserts in *. simpl. destruct e; simpl; auto.
    case_decide; [done|auto].
Qed.

(** An observation that ignores the query log finds nothing in it. *)
Lemma omap_querylog {A} (f : Event -> option A) (l : list QueryRecord) :
  (forall r, f (EvQueryLog r) = None) -> omap f (map EvQueryLog l) = [].
Proof. intros Hf. induction l as [|x l IH]; simpl; [done|]. by rewrite Hf. Qed.

Ltac in_cases H :=
  repeat match type of H with
         | _ \/ _ => destruct H as [H|H]
         | In _ (_ ++ _) => apply in_app_or in H
         | In _ (_ :: _) => simpl in H
         | In _ [] => simpl in H
         | False => destruct H
         | In _ (map EvQueryLog _) =>
             apply in_map_iff in H; destruct H as (? & ? & _); discriminate
         | _ = _ => progress simplify_eq
         end.

(** Text append, one byte at a time. *)
Lemma append_cons c (a b : string) : String c a +:+ b = String c (a +:+ b).
Proof. reflexivity. Qed.

(** The empty text is neutral on the left. *)
Lemma append_empty (b : string) : "" +:+ b = b.
Proof. reflexivity. Qed.

(** Text append is associative. *)
Lemma append_assoc' (a b c : string) : (a +:+ b) +:+ c = a +:+ (b +:+ c).
Proof.
  induction a as [|x a IH]; [done|]. rewrite !append_cons. by f_equal.
Qed.

(** [strings.Split]: the pieces are free of the separator, and the text is
    the pieces before the last, each followed by the separator, and then the
    last piece. *)
Lemma Split_spec sep s :
  exists init x,
    Split sep s = init ++ [x] /\
    Forall (fun p => has_char sep p = false) (init ++ [x]) /\
    s = each_followed_by sep init +:+ x.
Proof.
  induction s as [|c s (init & x & Hs & Hf & Heq)]; simpl.
  - exists [], "". by repeat constructor.
  - case_decide as Hc.
    + subst c. exists ("" :: init), x. rewrite Hs. split; [done|]. split.
      * by constructor.
      * simpl. rewrite append_empty, append_cons. by f_equal.
    + rewrite Hs. destruct init as [|p init]; simpl in *.
      * exists [], (String c x). split; [done|]. split.
        -- apply Forall_singleton. simpl. rewrite decide_False by done.
           exact (Forall_inv Hf).
        -- by rewrite Heq, append_empty.
      * exists (String c p :: init), x. split; [done|]. split.
        -- apply Forall_cons in Hf as [Hp Hf]. constructor; [|done].
           simpl. by rewrite decide_False.
        -- simpl. rewrite Heq. simpl. by rewrite !append_cons.
Qed.

(** What precedes the last piece is empty or ends in the separator. *)
Lemma each_followed_by_end sep init :
  init = [] \/ exists p, each_followed_by sep init = p +:+ String sep "".
Proof.
  induction init as [|q init IH]; [by left|]. right. simpl.
  destruct IH as [->|[p ->]]; simpl.
  - by exists q.
  - exists (q +:+ String sep p). by rewrite append_assoc'.
Qed.

(** The answer field of the query log: the text after the last space. *)
Lemma answer_field_spec a :
  has_char SPACE (answer_field a) = false /\
  exists pre,
    Dns.RR_String a = pre +:+ answer_field a /\
    (pre = "" \/ exists p, pre = p +:+ " ").
Proof.
  unfold answer_field.
  destruct (Split_spec SPACE (Dns.RR_String a)) as (init & x & Hs & Hf & Heq).
  rewrite Hs, last_snoc. simpl. split.
  - apply Forall_app in Hf as [_ Hf]. exact (Forall_inv Hf).
  - exists (each_followed_by SPACE init). split; [done|].
    destruct (each_followed_by_end SPACE init) as [->|?]; [by left|by right].
Qed.

(** ** The query pipeline, for every behaviour of the collaborators *)

Section PermitRuns.
Context {W : Type} `{!ConnPool W, !Client W, !Runtime W}.
Variable config : Configuration.

(** Every event of [RetrieveRecords] is of its level. *)
Lemma RetrieveRecords_level domain rrtype w :
  all_retrieve_level (events (RetrieveRecords config domain rrtype w)).
Proof.
  destruct (RetrieveRecords_shape config domain rrtype w) as (r1 & ok1 & w1 & _ & Hs).
  simpl in Hs. destruct ok1.
  { destruct Hs as [-> _]. by repeat constructor. }
  destruct Hs as (r2 & ok2 & w2 & _ & Hs). destruct ok2.
  { destruct Hs as [-> _]. by repeat constructor. }
  destruct Hs as [-> _].
  pose proof (RecursiveQuery_events config domain rrtype w2) as (Hl & _). simpl in Hl.
  constructor; [done|]. constructor; [done|]. apply Forall_app. split.
  - eapply Forall_impl; [exact Hl|]. apply recursive_level_retrieve.
  - destruct (outcome (RecursiveQuery config domain rrtype w2)) as [[[? ?] [?|]]|];
      by repeat constructor.
Qed.

(** X1: whatever the collaborators answer, [HandleDNS] increments the gauge
    of queued queries once and takes at most one permit from the semaphore;
    the gauge is decremented exactly when the permit was taken, and a permit
    taken is given back, by the deferred [Release], as the last thing the
    handler does, also when retrieving the records panics. *)
Theorem HandleDNS_permit_and_gauge wr r w :
  let evs := events (HandleDNS config wr r w) in
  (permits_taken evs <= 1)%nat /\
  permits_released evs = permits_taken evs /\
  gauge_incs evs = 1%nat /\
  gauge_decs evs = permits_taken evs /\
  (permits_taken evs = 0%nat \/ last evs = Some EvSemRelease).
Proof.
  intros evs; subst evs.
  pose proof (HandleDNS_shape config wr r w) as Hs. simpl in Hs.
  destruct (Dns.Question_ r) as [|q qs] eqn:Hq.
  { destruct Hs as [_ ->]. vm_compute. auto 10. }
  destruct Hs as (t0 & w1 & semerr & w2 & _ & _ & Hs).
  destruct semerr as [e|].
  { destruct Hs as [_ ->]. vm_compute. auto 10. }
  destruct Hs as (t1 & Hev & _).
  assert (Hlast : last (events (HandleDNS config wr r w)) = Some EvSemRelease).
  { rewrite Hev, !last_cons, app_assoc, last_snoc. done. }
  revert Hlast. rewrite Hev. intros Hlast.
  pose proof (RetrieveRecords_level (Dns.QName q) (Dns.Qtype q) w2) as Hl.
  destruct (retrieve_level_inert _ Hl) as (_&_&_&_&_&Ht&Hr&Hgi&Hgd).
  unfold permits_taken, permits_released, gauge_incs, gauge_decs in *.
  split; [|split; [|split; [|split; [|by right]]]]; clear Hlast.
  all: destruct (RetrieveRecords config (Dns.QName q) (Dns.Qtype q) w2)
    as [[[[response source] [e|]]|] w3 evs]; simpl in *; counts;
    rewrite ?count_querylog by done; lia.
Qed.

End PermitRuns.

Section ReplyRuns.
Context {W : Type} `{!ConnPool W, !Client W, !Runtime W}.
Variable config : Configuration.

(** X2: [HandleDNS] writes at most one message to the client.  When it
    returns, it wrote exactly one, to the writer it was given: a response
    with the id and the opcode of the request whose question section is the
    first question of the request.  It writes nothing only when it
    panicked. *)
Theorem HandleDNS_replies_once wr r w :
  let res := HandleDNS config wr r w in
  match writes (events res) with
  | [] => outcome res = None
  | [(wr', m)] =>
      outcome res = Some tt /\ wr' = wr /\
      Dns.Id m = Dns.Id r /\ Dns.Response m = true /\ Dns.Opcode m = Dns.Opcode r /\
      Dns.Question_ m = take 1 (Dns.Question_ r)
  | _ => False
  end.
Proof.
  intros res; subst res.
  pose proof (HandleDNS_shape config wr r w) as Hs. simpl in Hs.
  destruct (Dns.Question_ r) as [|q qs] eqn:Hq.
  { by destruct Hs as [-> ->]. }
  destruct Hs as (t0 & w1 & semerr & w2 & _ & _ & Hs).
  destruct semerr as [e|].
  { by destruct Hs as [-> ->]. }
  destruct Hs as (t1 & -> & ->).
  pose proof (RetrieveRecords_level config (Dns.QName q) (Dns.Qtype q) w2) as Hl.
  destruct (retrieve_level_inert _ Hl) as (Hw&_).
  unfold writes in *.
  destruct (RetrieveRecords config (Dns.QName q) (Dns.Qtype q) w2)
    as [[[[response source] [e|]]|] w3 evs]; simpl in *; omaps; rewrite Hw; simpl.
  - repeat split; try done. unfold servfail_for. simpl. by rewrite Hq.
  - pose proof (writes_querylog (records_of source (t1 - t0) (reply_for r response)))
      as Hlog.
    unfold writes in Hlog. rewrite Hlog. simpl. repeat split; try done.
    unfold reply_for. simpl. by rewrite Hq.
  - done.
Qed.

(** X3: the records [HandleDNS] sends to the query log are those of the
    message it wrote to the client, one for each answer of that message; when
    nothing was written, nothing is logged. *)
Theorem HandleDNS_logs_the_answers_written wr r w :
  let res := HandleDNS config wr r w in
  match writes (events res) with
  | [(_, m)] =>
      exists source duration,
        query_records (events res) = records_of source duration m /\
        List.length (query_records (events res)) = List.length (Dns.Answer m)
  | _ => query_records (events res) = []
  end.
Proof.
  intros res; subst res.
  pose proof (HandleDNS_shape config wr r w) as Hs. simpl in Hs.
  destruct (Dns.Question_ r) as [|q qs] eqn:Hq.
  { by destruct Hs as [_ ->]. }
  destruct Hs as (t0 & w1 & semerr & w2 & _ & _ & Hs).
  destruct semerr as [e|].
  { by destruct Hs as [_ ->]. }
  destruct Hs as (t1 & -> & _).
  pose proof (RetrieveRecords_level config (Dns.QName q) (Dns.Qtype q) w2) as Hl.
  destruct (retrieve_level_inert _ Hl) as (Hw&Hq'&_).
  unfold writes, query_records in *.
  destruct (RetrieveRecords config (Dns.QName q) (Dns.Qtype q) w2)
    as [[[[response source] [e|]]|] w3 evs]; simpl in *; omaps;
    rewrite ?Hw, ?Hq'; simpl.
  - exists "servfail", (t1 - t0). rewrite records_of_servfail. done.
  - pose proof (writes_querylog (records_of source (t1 - t0) (reply_for r response)))
      as Hlog.
    unfold writes in Hlog. rewrite Hlog. simpl. exists source, (t1 - t0).
    pose proof (query_records_map (records_of source (t1 - t0) (reply_for r response))) as Hm.
    unfold query_records in Hm. rewrite Hm, app_nil_r.
    split; [done|].
    rewrite (records_of_one_question source (t1 - t0) (reply_for r response) q); [done|].
    unfold reply_for. simpl. by rewrite Hq.
  - done.
Qed.

End ReplyRuns.

Section CacheRuns.
Context {W : Type} `{!ConnPool W, !Client W, !Runtime W}.
Variable config : Configuration.

(** What a successful [RecursiveQuery] returns: the message of the exchange
    that succeeded, under the name and type asked, with a TTL of 0. *)
Lemma RecursiveQuery_response domain rrtype w resp src :
  let res := RecursiveQuery config domain rrtype w in
  outcome res = Some (resp, src, None) ->
  Key resp = domain /\ RQtype resp = rrtype /\ Ttl resp = 0 /\
  exists m conn rtt, In (EvExchange m conn (Some (Entry resp)) rtt None) (events res).
Proof.
  intros res Hout; subst res.
  destruct (RecursiveQuery_shape config domain rrtype w) as (id & w1 & _ & Hshape).
  simpl in Hshape.
  pose proof (retryLoop_events (Z.to_nat (UpstreamRetries config + 1)) _
                (upstream_query_has_question id domain rrtype) (None, None, None) w1)
    as HL.
  simpl in HL.
  destruct (retryLoop _ _ _ w1) as [[[[ce r] [e|]]|] w2 evs]; simpl in *.
  - destruct Hshape as [_ Ho]. rewrite Ho in Hout. done.
  - destruct Hshape as (adderr & w3 & _ & Hs & Ho). rewrite Ho in Hout.
    destruct r as [msg|]; [|done]. destruct ce as [entry|]; [|done].
    simplify_eq. simpl. repeat split; try done.
    destruct HL as (_ & _ & [(_ & ? & _)|(_ & pre & entry' & conn & rtt & t & -> & _)]);
      [done|].
    exists (upstream_query id domain rrtype), conn, rtt. rewrite Hs.
    right. apply in_or_app. left. apply in_or_app. right. by left.
  - destruct Hshape as [_ Ho]. rewrite Ho in Hout. done.
Qed.

(** X4: when one of the two caches answers with a hit, [HandleDNS] replies
    with the response the cache returned: its answers are those of the stored
    message, the hit counter of that cache is incremented once, no connection
    is asked for, [RecursiveQuery] does not run and nothing is inserted into
    the lookup cache. *)
Theorem HandleDNS_cache_hit wr r w c d t resp :
  let res := HandleDNS config wr r w in
  In (EvCacheGet c d t resp true) (events res) ->
  outcome res = Some tt /\
  writes (events res) = [(wr, reply_for r resp)] /\
  Dns.Answer (reply_for r resp) = Dns.Answer (Entry resp) /\
  increments (match c with
              | LookupCache => CacheHitsCounter
              | HostedCache => HostedCacheHitsCounter
              end) (events res) = 1%nat /\
  attempts_made (events res) = 0%nat /\
  increments RecursiveQueryCounter (events res) = 0%nat /\
  cache_inserts LookupCache (events res) = [].
Proof.
  intros res Hin; subst res. revert Hin.
  pose proof (HandleDNS_shape config wr r w) as Hs. simpl in Hs.
  destruct (Dns.Question_ r) as [|q qs] eqn:Hq.
  { destruct Hs as [_ ->]. intros Hin. in_cases Hin. }
  destruct Hs as (t0 & w1 & semerr & w2 & _ & _ & Hs).
  destruct semerr as [e|].
  { destruct Hs as [_ ->]. intros Hin. in_cases Hin. }
  destruct Hs as (t1 & -> & ->).
  destruct (RetrieveRecords_shape config (Dns.QName q) (Dns.Qtype q) w2)
    as (r1 & ok1 & w3 & _ & Hr).
  simpl in Hr. destruct ok1.
  { destruct Hr as [-> ->]. intros Hin. in_cases Hin.
    unfold writes, increments, attempts_made, cache_inserts. omaps. counts.
    rewrite !omap_querylog by done. rewrite !count_querylog by done. done. }
  destruct Hr as (r2 & ok2 & w4 & _ & Hr). destruct ok2.
  { destruct Hr as [-> ->]. intros Hin. in_cases Hin.
    unfold writes, increments, attempts_made, cache_inserts. omaps. counts.
    rewrite !omap_querylog by done. rewrite !count_querylog by done. done. }
  destruct Hr as [-> ->]. intros Hin. exfalso.
  pose proof (RecursiveQuery_events config (Dns.QName q) (Dns.Qtype q) w4) as (Hl & _).
  simpl in Hl.
  destruct (recursive_level_quiet _ Hl) as (_ & _ & Hlk & _).
  destruct (RecursiveQuery config (Dns.QName q) (Dns.Qtype q) w4)
    as [[[[response source] [e|]]|] w5 evs]; simpl in *; in_cases Hin;
    by apply cache_lookups_In in Hin.
Qed.



End CacheRuns.

Section EdgeRuns.
Context {W : Type} `{!ConnPool W, !Client W, !Runtime W}.
Variable config : Configuration.

(** X5: an insert into a cache during [HandleDNS] is an insert into the
    lookup cache, it is the first insert and nothing was written to the
    client before it; the next thing the handler does is to write the reply
    built from the very response it inserted.  That response is keyed by the
    name and the type of the first question, its TTL is 0, and the reply
    carries the rcode and the answers of the stored message, whatever that
    rcode is. *)
Theorem HandleDNS_caches_what_it_replies wr r w c resp :
  let res := HandleDNS config wr r w in
  In (EvCacheAdd c resp) (events res) ->
  c = LookupCache /\
  (exists pre post,
     events res = pre ++ EvCacheAdd LookupCache resp
                      :: EvWriteMsg wr (reply_for r resp) :: post /\
     writes pre = [] /\ cache_inserts LookupCache pre = []) /\
  (exists q, head (Dns.Question_ r) = Some q /\
             Key resp = Dns.QName q /\ RQtype resp = Dns.Qtype q) /\
  Ttl resp = 0 /\
  Dns.Rcode (reply_for r resp) = Dns.Rcode (Entry resp) /\
  Dns.Answer (reply_for r resp) = Dns.Answer (Entry resp).
Proof.
  intros res Hin; subst res. revert Hin.
  pose proof (HandleDNS_shape config wr r w) as Hs. simpl in Hs.
  destruct (Dns.Question_ r) as [|q qs] eqn:Hq.
  { destruct Hs as [_ ->]. intros Hin. in_cases Hin. }
  destruct Hs as (t0 & w1 & semerr & w2 & _ & _ & Hs).
  destruct semerr as [e|].
  { destruct Hs as [_ ->]. intros Hin. in_cases Hin. }
  destruct Hs as (t1 & -> & _).
  destruct (RetrieveRecords_shape config (Dns.QName q) (Dns.Qtype q) w2)
    as (r1 & ok1 & w3 & _ & Hr).
  simpl in Hr. destruct ok1.
  { destruct Hr as [-> ->]. intros Hin. in_cases Hin. }
  destruct Hr as (r2 & ok2 & w4 & _ & Hr). destruct ok2.
  { destruct Hr as [-> ->]. intros Hin. in_cases Hin. }
  destruct Hr as [-> ->]. intros Hin.
  pose proof (RecursiveQuery_events config (Dns.QName q) (Dns.Qtype q) w4) as (Hl & _).
  simpl in Hl.
  destruct (recursive_level_quiet _ Hl) as (Hw & _ & _ & Hi & _).
  pose proof (fun resp src => RecursiveQuery_response config (Dns.QName q) (Dns.Qtype q)
                                w4 resp src) as HRR.
  simpl in HRR.
  destruct (RecursiveQuery config (Dns.QName q) (Dns.Qtype q) w4)
    as [[[[response source] [e|]]|] w5 evs]; simpl in *; in_cases Hin;
    try (by apply cache_inserts_In in Hin; rewrite Hi in Hin).
  destruct (HRR resp source eq_refl) as (Hk & Ht & Httl & _).
  split; [done|]. split; [|by eauto 10].
  exists ([EvInc TotalDnsQueriesCounter; EvGaugeInc; EvSemAcquire None; EvGaugeDec;
           EvCacheGet LookupCache (Dns.QName q) (Dns.Qtype q) r1 false;
           EvCacheGet HostedCache (Dns.QName q) (Dns.Qtype q) r2 false] ++ evs).
  eexists. split; [|split].
  - simpl. do 6 f_equal. rewrite <- !app_assoc. simpl. reflexivity.
  - unfold writes in *. rewrite omap_app, Hw. done.
  - specialize (Hi LookupCache). unfold cache_inserts in *. rewrite omap_app, Hi. done.
Qed.

(** X6: when the semaphore answers [Acquire] with an error, [HandleDNS]
    panics: nothing is written to the client, no cache is consulted, no
    permit is released, and the gauge of queued queries, incremented on
    arrival, is never decremented. *)
Theorem HandleDNS_without_permit wr r w e :
  let res := HandleDNS config wr r w in
  In (EvSemAcquire (Some e)) (events res) ->
  outcome res = None /\ writes (events res) = [] /\ cache_lookups (events res) = [] /\
  permits_released (events res) = 0%nat /\
  gauge_incs (events res) = 1%nat /\ gauge_decs (events res) = 0%nat.
Proof.
  intros res Hin; subst res. revert Hin.
  pose proof (HandleDNS_shape config wr r w) as Hs. simpl in Hs.
  destruct (Dns.Question_ r) as [|q qs] eqn:Hq.
  { destruct Hs as [_ ->]. intros Hin. in_cases Hin. }
  destruct Hs as (t0 & w1 & semerr & w2 & _ & _ & Hs).
  destruct semerr as [e'|].
  { by destruct Hs as [-> ->]. }
  destruct Hs as (t1 & -> & _). intros Hin. exfalso.
  pose proof (RetrieveRecords_level config (Dns.QName q) (Dns.Qtype q) w2) as Hl.
  destruct (RetrieveRecords config (Dns.QName q) (Dns.Qtype q) w2)
    as [[[[response source] [e'|]]|] w3 evs]; simpl in *; in_cases Hin;
    by apply (level_In _ _ _ Hl) in Hin.
Qed.

(** X7: with a negative [UpstreamRetries] the retry loop of
    [RecursiveQuery] has no turn: no connection is asked for and no exchange
    runs, yet the code goes on as after a success, hands the nil entry to
    [connPool.Add] and panics on the nil reply. *)
Theorem RecursiveQuery_without_attempts domain rrtype w :
  UpstreamRetries config < 0 ->
  let res := RecursiveQuery config domain rrtype w in
  outcome res = None /\ attempts_made (events res) = 0%nat /\
  exchanges_run (events res) = [] /\ pool_adds (events res) = [None].
Proof.
  intros Hneg res; subst res.
  destruct (RecursiveQuery_shape config domain rrtype w) as (id & w1 & _ & Hshape).
  replace (Z.to_nat (UpstreamRetries config + 1)) with 0%nat in Hshape by lia.
  simpl in Hshape. destruct Hshape as (adderr & w2 & _ & -> & ->).
  by destruct adderr.
Qed.

End EdgeRuns.

Section ConnectionRuns.
Context {W : Type} `{!ConnPool W, !Client W, !Runtime W}.
Variable config : Configuration.











End ConnectionRuns.

Section TextRuns.
Context {W : Type} `{!ConnPool W, !Client W, !Runtime W}.
Variable config : Configuration.

(** X10: every record [logQuery] emits belongs to a question and an answer
    of the message; its name and type are the question's, its source is the
    source in brackets, and its answer is the text that follows the last
    space of the RR's string form: it holds no space, and what precedes it
    in the RR text is empty or ends in a space. *)
Theorem logQuery_answer_is_last_field source duration m (w : W) rec :
  In rec (query_records (events (logQuery source duration m w))) ->
  exists q a pre,
    In q (Dns.Question_ m) /\ In a (Dns.Answer m) /\
    qr_name rec = Dns.QName q /\ qr_type rec = Dns.Qtype q /\
    qr_opcode rec = Dns.Opcode m /\
    qr_answerSource rec = "[" +:+ source +:+ "]" /\ qr_duration rec = duration /\
    Dns.RR_String a = pre +:+ qr_answer rec /\
    has_char SPACE (qr_answer rec) = false /\
    (pre = "" \/ exists p, pre = p +:+ " ").
Proof.
  rewrite logQuery_run. simpl. rewrite query_records_map.
  unfold records_of. intros Hin.
  apply in_flat_map in Hin as (q & Hq & Hin).
  apply in_map_iff in Hin as (a & <- & Ha).
  destruct (answer_field_spec a) as (Hno & pre & Hs & Hpre).
  exists q, a, pre. simpl. repeat split; done.
Qed.

(** X9: when [attemptExchange] returns an error without having run an
    exchange, it could not get a connection: either [connPool.Get] answered
    with an error, or it named an upstream and [NewConnection] failed.  The
    entry returned is a fresh empty one and the reply is nil; nothing is
    closed, no counter of reused connections or upstream errors moves, and
    the error text is "error getting connection from pool: " followed by the
    pool's error or by "could not connect to upstream [address]: " and the
    dial error. *)
Theorem attemptExchange_without_connection m w ce r e :
  let res := attemptExchange m w in
  outcome res = Some (ce, r, Some e) ->
  exchanges_run (events res) = [] ->
  ce = newZeroConnEntry /\ r = None /\
  pool_closes (events res) = [] /\
  connections_obtained (events res) = 0%nat /\
  (forall a, increments (ReusedConnectionsCounter a) (events res) = 0%nat /\
             increments (UpstreamErrorsCounter a) (events res) = 0%nat) /\
  exists e',
    e = "error getting connection from pool: " +:+ e' /\
    ((exists ce' u, events res = [EvPoolGet ce' u (Some e');
                                  EvLog INFO "error getting connection from pool"]) \/
     (exists ce' u ce'' e'',
        u <> zeroUpstream /\
        e' = "could not connect to upstream [" +:+ Upstream_GetAddress u +:+ "]: " +:+ e'' /\
        events res = [EvPoolGet ce' u None; EvLog INFO "creating new connection";
                      EvPoolNewConnection u ce'' (Some e'');
                      EvLog DEBUG "could not make new connection to upstream";
                      EvLog INFO "error getting connection from pool"])).
Proof.
  intros res; subst res.
  unfold attemptExchange, GetConnection, GetConnection_hit, newConnection.
  unfold_monad. intros Hout Hex. run.
  all: unfold connections_obtained; obs; rewrite ?bool_decide_false by done;
    repeat split; try done.
  all: eexists; split; [reflexivity|]; eauto 10.
Qed.

End TextRuns.

(** ** The query pipeline on the scripted collaborators *)


(** X4, witness: the lookup cache holds the name. *)
Lemma HandleDNS_cache_hit_witness :
  In (EvCacheGet LookupCache "example.com." 1 Cases.lookup_hit_entry true)
     (events (HandleDNS config1 client_writer query lookup_hit)) /\
  outcome (HandleDNS config1 client_writer query lookup_hit) = Some tt /\
  writes (events (HandleDNS config1 client_writer query lookup_hit))
    = [(client_writer, reply_for query Cases.lookup_hit_entry)] /\
  Dns.Answer (reply_for query Cases.lookup_hit_entry) = Dns.Answer (Entry Cases.lookup_hit_entry) /\
  increments CacheHitsCounter (events (HandleDNS config1 client_writer query lookup_hit))
    = 1%nat /\
  attempts_made (events (HandleDNS config1 client_writer query lookup_hit)) = 0%nat /\
  increments RecursiveQueryCounter (events (HandleDNS config1 client_writer query lookup_hit))
    = 0%nat /\
  cache_inserts LookupCache (events (HandleDNS config1 client_writer query lookup_hit)) = [].
Proof.
  assert (Hin : In (EvCacheGet LookupCache "example.com." 1 Cases.lookup_hit_entry true)
                  (events (HandleDNS config1 client_writer query lookup_hit))).
  { vm_compute. repeat (first [left; reflexivity | right]). }
  split; [exact Hin|].
  exact (HandleDNS_cache_hit config1 client_writer query lookup_hit LookupCache
           "example.com." 1 Cases.lookup_hit_entry Hin).
Defined.

(** X5, witness: nothing cached, the upstream answers. *)
Lemma HandleDNS_caches_what_it_replies_witness :
  In (EvCacheAdd LookupCache Cases.answering_response)
     (events (HandleDNS config1 client_writer query answering)) /\
  LookupCache = LookupCache /\
  (exists pre post,
     events (HandleDNS config1 client_writer query answering)
     = pre ++ EvCacheAdd LookupCache Cases.answering_response
           :: EvWriteMsg client_writer (reply_for query Cases.answering_response) :: post /\
     writes pre = [] /\ cache_inserts LookupCache pre = []) /\
  (exists q, head (Dns.Question_ query) = Some q /\
             Key Cases.answering_response = Dns.QName q /\
             RQtype Cases.answering_response = Dns.Qtype q) /\
  Ttl Cases.answering_response = 0 /\
  Dns.Rcode (reply_for query Cases.answering_response) = Dns.Rcode (Entry Cases.answering_response) /\
  Dns.Answer (reply_for query Cases.answering_response) = Dns.Answer (Entry Cases.answering_response).
Proof.
  assert (Hin : In (EvCacheAdd LookupCache Cases.answering_response)
                  (events (HandleDNS config1 client_writer query answering))).
  { vm_compute. repeat (first [left; reflexivity | right]). }
  split; [exact Hin|].
  exact (HandleDNS_caches_what_it_replies config1 client_writer query answering
           LookupCache Cases.answering_response Hin).
Defined.

(** X6, witness: the semaphore answers with an error. *)
Lemma HandleDNS_without_permit_witness :
  In (EvSemAcquire (Some "context canceled"))
     (events (HandleDNS config1 client_writer query Faults.no_permit)) /\
  outcome (HandleDNS config1 client_writer query Faults.no_permit) = None /\
  writes (events (HandleDNS config1 client_writer query Faults.no_permit)) = [] /\
  cache_lookups (events (HandleDNS config1 client_writer query Faults.no_permit)) = [] /\
  permits_released (events (HandleDNS config1 client_writer query Faults.no_permit)) = 0%nat /\
  gauge_incs (events (HandleDNS config1 client_writer query Faults.no_permit)) = 1%nat /\
  gauge_decs (events (HandleDNS config1 client_writer query Faults.no_permit)) = 0%nat.
Proof.
  assert (Hin : In (EvSemAcquire (Some "context canceled"))
                  (events (HandleDNS config1 client_writer query Faults.no_permit))).
  { vm_compute. repeat (first [left; reflexivity | right]). }
  split; [exact Hin|].
  exact (HandleDNS_without_permit config1 client_writer query Faults.no_permit
           "context canceled" Hin).
Defined.

(** X7, witness: [UpstreamRetries] is -1. *)
Lemma RecursiveQuery_without_attempts_witness :
  UpstreamRetries Cases.config_negative < 0 /\
  outcome (RecursiveQuery Cases.config_negative "example.com." 1 answering) = None /\
  attempts_made (events (RecursiveQuery Cases.config_negative "example.com." 1 answering)) = 0%nat /\
  exchanges_run (events (RecursiveQuery Cases.config_negative "example.com." 1 answering)) = [] /\
  pool_adds (events (RecursiveQuery Cases.config_negative "example.com." 1 answering)) = [None].
Proof.
  split; [reflexivity|].
  apply (RecursiveQuery_without_attempts Cases.config_negative "example.com." 1 answering).
  reflexivity.
Defined.


(** X10, witness: of the MX record's rdata, '10 mail.example.com.', the
    log keeps the host name. *)
Lemma logQuery_answer_is_last_field_witness :
  In Cases.record_mx
     (query_records (events (logQuery "cache" 3 Cases.reply_mx answering))) /\
  exists q a pre,
    In q (Dns.Question_ Cases.reply_mx) /\ In a (Dns.Answer Cases.reply_mx) /\
    "example.com." = Dns.QName q /\ 15 = Dns.Qtype q /\
    0 = Dns.Opcode Cases.reply_mx /\
    "[cache]" = "[" +:+ "cache" +:+ "]" /\ 3 = 3 /\
    Dns.RR_String a = pre +:+ "mail.example.com." /\
    has_char SPACE "mail.example.com." = false /\
    (pre = "" \/ exists p, pre = p +:+ " ").
Proof.
  assert (Hin : In Cases.record_mx
                  (query_records (events (logQuery "cache" 3 Cases.reply_mx answering)))).
  { vm_compute. left. reflexivity. }
  split; [exact Hin|].
  exact (logQuery_answer_is_last_field "cache" 3 Cases.reply_mx answering _ Hin).
Defined.

(** X9, witness: the pool names the upstream u1 and the dial is refused. *)
Lemma attemptExchange_without_connection_witness :
  outcome (attemptExchange sent Faults.no_dial)
    = Some (newZeroConnEntry, None,
            Some ("error getting connection from pool: "
                    +:+ "could not connect to upstream [u1:853]: connection refused")) /\
  exchanges_run (events (attemptExchange sent Faults.no_dial)) = [] /\
  newZeroConnEntry = newZeroConnEntry /\ @None Dns.Msg = None /\
  pool_closes (events (attemptExchange sent Faults.no_dial)) = [] /\
  connections_obtained (events (attemptExchange sent Faults.no_dial)) = 0%nat /\
  (forall a,
     increments (ReusedConnectionsCounter a) (events (attemptExchange sent Faults.no_dial))
       = 0%nat /\
     increments (UpstreamErrorsCounter a) (events (attemptExchange sent Faults.no_dial))
       = 0%nat) /\
  exists e',
    "error getting connection from pool: "
      +:+ "could not connect to upstream [u1:853]: connection refused"
    = "error getting connection from pool: " +:+ e' /\
    ((exists ce' u,
        events (attemptExchange sent Faults.no_dial)
        = [EvPoolGet ce' u (Some e'); EvLog INFO "error getting connection from pool"]) \/
     (exists ce' u ce'' e'',
        u <> zeroUpstream /\
        e' = "could not connect to upstream [" +:+ Upstream_GetAddress u +:+ "]: " +:+ e'' /\
        events (attemptExchange sent Faults.no_dial)
        = [EvPoolGet ce' u None; EvLog INFO "creating new connection";
           EvPoolNewConnection u ce'' (Some e'');
           EvLog DEBUG "could not make new connection to upstream";
           EvLog INFO "error getting connection from pool"])).
Proof.
  split; [reflexivity|]. split; [reflexivity|].
  apply (attemptExchange_without_connection sent Faults.no_dial); reflexivity.
Defined.

(** ** utils_test.go *)

Section ZoneProofs.
Context {W : Type} `{!Runtime W}.
Variable ParseZone : string -> list Token.

(** The loop over tokens that are all good. *)
Lemma ParseZoneFile_range_good tokens : forall responses (w : W),
  Forall good_token tokens ->
  exists rs w',
    ParseZoneFile_range tokens responses w = mkRes (Some (Some (responses ++ rs), None)) w' [] /\
    Forall2 built_from tokens rs.
Proof.
  induction tokens as [|token tokens IH]; intros responses w Hg.
  - exists [], w. rewrite app_nil_r. by split.
  - apply Forall_cons in Hg as [[He [rr Hrr]] Hg]. simpl. rewrite He, Hrr.
    unfold_monad. simpl.
    destruct (time_Now w) as [now w1]. simpl.
    match goal with
    | |- context [ParseZoneFile_range _ (_ ++ [?r]) _] =>
        destruct (IH (responses ++ [r]) w1 Hg) as (rs & w' & -> & Hrs);
        exists (r :: rs), w'
    end.
    split.
    + by rewrite <- app_assoc.
    + constructor; [|done]. exists rr. done.
Qed.

(** The loop stops at the first token with an error. *)
Lemma ParseZoneFile_range_bad good : forall bad rest e responses (w : W),
  Forall good_token good -> TokError bad = Some e ->
  exists w',
    ParseZoneFile_range (good ++ bad :: rest) responses w
    = mkRes (Some (None, Some ("token error: " +:+ e +:+ NL))) w' [].
Proof.
  induction good as [|token good IH]; intros bad rest e responses w Hg Hb.
  - simpl. rewrite Hb. by exists w.
  - apply Forall_cons in Hg as [[He [rr Hrr]] Hg]. simpl. rewrite He, Hrr.
    unfold_monad. simpl.
    destruct (time_Now w) as [now w1]. simpl.
    match goal with
    | |- context [ParseZoneFile_range _ (_ ++ [?r]) _] =>
        destruct (IH bad rest e (responses ++ [r]) w1 Hg Hb) as (w' & ->)
    end.
    by exists w'.
Qed.

(** X13: for a zone whose tokens all carry an RR and no error,
    [ParseZoneFile] returns one response for each token, in the order of the
    zone: keyed by the owner name of the RR, with the RR's type, a TTL of the
    RR's TTL in seconds, and a message that holds that single RR as its
    answer and nothing else. *)
Theorem ParseZoneFile_one_response_per_record zone (w : W) :
  Forall good_token (ParseZone zone) ->
  exists rs,
    outcome (ParseZoneFile ParseZone zone w) = Some (Some rs, None) /\
    Forall2 built_from (ParseZone zone) rs /\
    events (ParseZoneFile ParseZone zone w) = [].
Proof.
  intros Hg. unfold ParseZoneFile.
  destruct (ParseZoneFile_range_good _ [] w Hg) as (rs & w' & -> & Hrs).
  by exists rs.
Qed.

(** X14: at the first token that carries an error, [ParseZoneFile] returns
    nil and the error "token error: ..." followed by a newline; the responses
    built from the tokens before it are dropped and the tokens after it are
    not looked at. *)
Theorem ParseZoneFile_all_or_nothing zone good bad rest e (w : W) :
  ParseZone zone = good ++ bad :: rest ->
  Forall good_token good -> TokError bad = Some e ->
  outcome (ParseZoneFile ParseZone zone w)
    = Some (None, Some ("token error: " +:+ e +:+ NL)).
Proof.
  intros Hz Hg Hb. unfold ParseZoneFile. rewrite Hz.
  by destruct (ParseZoneFile_range_bad good bad rest e [] w Hg Hb) as (w' & ->).
Qed.

End ZoneProofs.

(** X13, witness: a zone of an A and an MX record. *)
Lemma ParseZoneFile_one_response_per_record_witness :
  Forall good_token (ZoneScenario.ParseZone "good") /\
  exists rs,
    outcome (ParseZoneFile ZoneScenario.ParseZone "good" answering) = Some (Some rs, None) /\
    Forall2 built_from (ZoneScenario.ParseZone "good") rs /\
    events (ParseZoneFile ZoneScenario.ParseZone "good" answering) = [].
Proof.
  assert (Hg : Forall good_token (ZoneScenario.ParseZone "good")).
  { repeat constructor; eauto. }
  split; [exact Hg|].
  exact (ParseZoneFile_one_response_per_record ZoneScenario.ParseZone "good" answering Hg).
Defined.

(** X14, witness: the second of three tokens is an error. *)
Lemma ParseZoneFile_all_or_nothing_witness :
  ZoneScenario.ParseZone "bad"
    = [mkToken (Some rr_a) None] ++ mkToken None (Some "bad ttl")
        :: [mkToken (Some rr_mx) None] /\
  outcome (ParseZoneFile ZoneScenario.ParseZone "bad" answering)
    = Some (None, Some ("token error: " +:+ "bad ttl" +:+ NL)).
Proof.
  split; [reflexivity|].
  apply (ParseZoneFile_all_or_nothing ZoneScenario.ParseZone "bad"
           [mkToken (Some rr_a) None] (mkToken None (Some "bad ttl"))
           [mkToken (Some rr_mx) None] "bad ttl" answering).
  - reflexivity.
  - repeat constructor; eauto.
  - reflexivity.
Defined.

(** The loop: [k] failed polls, then a successful one or the end. *)
Lemma WaitForCondition_loop_spec {S} n (f : S -> bool * S) : forall s,
  exists k,
    (WaitForCondition_loop n f s).2
      = failed_polls k ++ (if (WaitForCondition_loop n f s).1.1 then [EvPoll true] else []) /\
    if (WaitForCondition_loop n f s).1.1 then (k < n)%nat else k = n.
Proof.
  induction n as [|n IH]; intros s; simpl.
  - by exists 0%nat.
  - destruct (f s) as [[|] s1]; simpl.
    + exists 0%nat. split; [done|lia].
    + destruct (IH s1) as (k & Hev & Hk).
      destruct (WaitForCondition_loop n f s1) as [[result' s2] evs]. simpl in *.
      exists (Datatypes.S k). split; [by rewrite Hev|].
      destruct result'; lia.
Qed.

(** X15: [WaitForCondition x f] calls [f] until it answers true, at most
    [x] times, and sleeps 100 ms after every call that answered false, the
    last one included.  The result is true exactly when a call answered true;
    for [x <= 0] the function returns false without calling [f]. *)
Theorem WaitForCondition_polls {S} x (f : S -> bool * S) s :
  let '(result, _, evs) := WaitForCondition x f s in
  exists k,
    evs = failed_polls k ++ (if result then [EvPoll true] else []) /\
    if result then Z.of_nat k < x else Z.of_nat k = Z.max 0 x.
Proof.
  unfold WaitForCondition.
  destruct (WaitForCondition_loop_spec (Z.to_nat x) f s) as (k & Hev & Hk).
  destruct (WaitForCondition_loop (Z.to_nat x) f s) as [[result s'] evs]. simpl in *.
  exists k. split; [done|]. destruct result; lia.
Qed.

(** ** Start-up *)

Ltac unfold_traced :=

  unfold tderef, tindex0, tbind, tdefer, tcall, task, temit, tret, tpanic in *.

Section SetupRuns.

Import Setup.

Context {W : Type} `{!Env W}.
Variable config : Configuration.

(** The loop over the configured upstreams. *)
Lemma AddUpstream_each (s : MutexServer) p names (w : W) :
  connPool s = Some p ->
  tforEach names (fun name => AddUpstream s (mkUpstream name 0 "")) w
  = mkTRes (Some tt) w (map (fun name => EvAddUpstream p (mkUpstream name 0 "")) names).
Proof.
  intros Hp. induction names as [|name names IH]; simpl; [done|].
  unfold tbind at 1. unfold AddUpstream at 1. rewrite Hp. unfold_traced. simpl.
  unfold_traced. by rewrite IH.
Qed.

(** The registrations, read back. *)
Lemma upstreams_added_map p names :
  upstreams_added (map (fun name => EvAddUpstream p (mkUpstream name 0 "")) names)
  = map (fun name => (p, mkUpstream name 0 "")) names.
Proof. induction names as [|n names IH]; simpl; [done|]. unfold upstreams_added in *. simpl. by f_equal. Qed.

(** An observation that ignores the registrations finds none. *)
Lemma omap_added {A} (f : Event -> option A) p names :
  (forall u, f (EvAddUpstream p u) = None) ->
  omap f (map (fun name => EvAddUpstream p (mkUpstream name 0 "")) names) = [].
Proof. intros Hf. induction names as [|n names IH]; simpl; [done|]. by rewrite Hf. Qed.

(** X16: [NewMutexServer] never panics, and it fails only when [NewCache]
    fails; it then returns nil and has registered no upstream.  When it
    succeeds, the server holds the two caches [NewCache] made, in the order
    lookup then hosted, and the cleaning crew was started on the lookup cache
    alone; the pool is the one handed in, if any; every configured upstream
    was registered with that pool, by name only, in the order of the
    configuration; the one semaphore made has the weight [ConcurrentQueries],
    or GOMAXPROCS when that is 0; the client is the one handed in, or else
    the TLS client [BuildClient] makes with the configured timeout. *)
Theorem NewMutexServer_builds_or_registers_nothing cl pool (w : W) :
  let res := NewMutexServer config cl pool w in
  match toutcome res with
  | Some (Some s, None) =>
      exists p,
        caches_made (tevents res) = [Cache s; HostedCache s] /\
        crews_started (tevents res) = [Cache s] /\
        connPool s = Some p /\ (forall p0, pool = Some p0 -> p = p0) /\
        upstreams_added (tevents res)
          = map (fun name => (p, mkUpstream name 0 "")) (Upstreams config) /\
        semaphores_made (tevents res) = [default 0 (sem s)] /\
        (ConcurrentQueries config <> 0 -> sem s = Some (ConcurrentQueries config)) /\
        (ConcurrentQueries config = 0 -> sem s = Some (GOMAXPROCS w).1) /\
        match cl with
        | Some c => dnsClient s = Some c
        | None =>
            exists built,
              dnsClient s = Some (BuiltClient built) /\
              Net built = "tcp-tls" /\
              Timeout built = ConfTimeout config * Millisecond /\
              InsecureSkipVerify built = SkipUpstreamVerification config
        end
  | Some (s, Some e) =>
      s = None /\ upstreams_added (tevents res) = [] /\
      exists made e',
        In (EvNewCache made (Some e')) (tevents res) /\
        (e = "couldn't initialize lookup cache: " +:+ e' \/
         e = "couldn't initialize hosted cache: " +:+ e')
  | Some (None, None) | None => False
  end.
Proof.
  unfold NewMutexServer, BuildClient, Logger_Log. 
  destruct cl as [c|]; unfold_traced; simpl.
  all: destruct (decide (ConcurrentQueries config = 0)) as [Hz|Hz]; simpl.
  all: try destruct (GOMAXPROCS w) as [g w0] eqn:Hg; simpl.
  all: destruct pool as [p0|]; simpl.
  all: try destruct (NewConnPool _) as [p1 w1] eqn:Hp; simpl.
  all: destruct (NewCache _) as [[c1 [e1|]] w2] eqn:Hc1; simpl.
  all: try (split; [done|]; split; [done|]; eexists _, _; split; [|left; reflexivity];
            simpl; tauto).
  all: destruct (NewCache w2) as [[c2 [e2|]] w3] eqn:Hc2; simpl.
  all: try (split; [done|]; split; [done|]; eexists _, _; split; [|right; reflexivity];
            simpl; tauto).
  all: erewrite AddUpstream_each by reflexivity; simpl.
  all: unfold caches_made, crews_started, upstreams_added, semaphores_made;
    rewrite ?omap_app; simpl;
    rewrite ?app_nil_r, ?(omap_added _ _ _ (fun _ => eq_refl)).
  all: eexists; repeat split; try done; rewrite ?upstreams_added_map; try done.
  all: try (intros ? [= ->]; done).
  all: try (by apply upstreams_added_map).
  all: try (eexists; repeat split; done).
Qed.

End SetupRuns.

(** ** The logging wrapper *)
Section LoggingRuns.

Import Logging.

(** The empty text is neutral on the right. *)
Lemma append_empty_r (s : string) : s +:+ "" = s.
Proof. induction s as [|c s IH]; [done|]. rewrite append_cons. by f_equal. Qed.

(** X17: after [InitLogger level], a message made by [NewLogMessage] is
    printed exactly when its level is at most [level], whatever calls of
    [SetLevel] came in between: [SetLevel] changes a copy.  The text given as
    [why] never appears in the line, and the debug details appear at level
    DEBUG only. *)
Theorem Logger_threshold_is_fixed_at_init rendered lv0 us lv what why next dd :
  let '(_, l) := InitLogger rendered lv0 in
  uses l (us ++ [UseLog (NewLogMessage lv what why next dd)])
  = uses l us ++ (if decide (lv <= lv0) then [line_of lv what next dd] else []).
Proof.
  unfold InitLogger. destruct (Log _ _) as [lines e]. 
  induction us as [|[lv'|message] us IH]; simpl.
  - unfold Log, NewLogMessage, line_of. simpl.
    destruct (decide (lv <= lv0)); [|done].
    destruct (decide (lv = DEBUG)); simpl; rewrite ?app_nil_r, ?append_empty_r;
      repeat (rewrite ?append_assoc'; simpl); done.
  - exact IH.
  - by rewrite IH, app_assoc.
Qed.

End LoggingRuns.

(** ** server.go, the first revision *)

Section FirstServerShapes.

Import FirstServer.

Context {W : Type} `{!Env W}.
Variable Resolvers : list string.
Variable Errorf : string -> string.

(** Counting distributes over [++]. *)
Lemma First_count_app p (a b : list Event) :
  count p (a ++ b) = (count p a + count p b)%nat.
Proof. induction a as [|e a IH]; simpl; [done|]. destruct (p e); simpl; lia. Qed.


(** One turn of the loop over the resolvers. *)
Lemma First_RecursiveQuery_range_cons s resolvers m domain rrtype errorstring (w : W) :
  RecursiveQuery_range Errorf (s :: resolvers) m domain rrtype errorstring w =
  match client_Exchange m (s +:+ ":853") w with
  | (r, _, Some e, w1) =>
      match RecursiveQuery_range Errorf resolvers m domain rrtype
              ("error looking up domain [" +:+ domain +:+ "] on server [" +:+ s +:+ ":"
                 +:+ "853" +:+ "]: " +:+ e +:+ ": " +:+ errorstring) w1 with
      | mkTRes o w2 evs =>
          mkTRes o w2
            (EvExchange m (s +:+ ":853") r (Some e) :: EvInc ResolverErrorsCounter :: evs)
      end
  | (Some msg, _, None, w1) =>
      match processResults msg domain rrtype w1 with
      | mkTRes o w2 evs => mkTRes o w2 (EvExchange m (s +:+ ":853") (Some msg) None :: evs)
      end
  | (None, _, None, w1) => mkTRes None w1 [EvExchange m (s +:+ ":853") None None]
  end.
Proof.
  simpl. unfold Inc. unfold_traced.
  change (s +:+ ":" +:+ "853") with (s +:+ ":853").
  destruct (client_Exchange m (s +:+ ":853") w) as [[[[msg|] rtt] [e|]] w1]; simpl;
    try reflexivity.
  all: try (destruct (RecursiveQuery_range _ _ _ _ _ _ w1); reflexivity).
  destruct (processResults msg domain rrtype w1); reflexivity.
Qed.

(** [processResults] does nothing to the outside; it fails on an rcode
    other than success. *)
Lemma First_processResults_run msg domain rrtype (w : W) :
  tevents (processResults msg domain rrtype w) = [] /\
  if decide (Dns.Rcode msg <> Dns.RcodeSuccess) then
    exists e, toutcome (processResults msg domain rrtype w) = Some (zeroResponse, Some e)
  else
    toutcome (processResults msg domain rrtype w)
      = Some (mkResponse domain msg 0 (time_Now w).1 rrtype, None).
Proof.
  unfold processResults. destruct (decide (Dns.Rcode msg <> Dns.RcodeSuccess)).
  - split; [done|]. eauto.
  - unfold_traced. by destruct (time_Now w).
Qed.

(** The loop: the exchanges that failed, then either the end of the list
    or the exchange that did not fail. *)
Lemma First_RecursiveQuery_range_shape resolvers m domain rrtype : forall errorstring w,
  let res := RecursiveQuery_range Errorf resolvers m domain rrtype errorstring w in
  exists fails rest,
    resolvers = map (fun x => x.1.1) fails ++ rest /\
    ((rest = [] /\
      tevents res = failed_exchanges m fails /\
      toutcome res =
        Some (zeroResponse,
              Some (Errorf (gathered domain (map (fun x => (x.1.1, x.2)) fails) errorstring))))
     \/
     (exists s rest' reply,
        rest = s :: rest' /\
        tevents res = failed_exchanges m fails ++ [EvExchange m (s +:+ ":853") reply None] /\
        match reply with
        | None => toutcome res = None
        | Some msg =>
            if decide (Dns.Rcode msg <> Dns.RcodeSuccess) then
              exists e, toutcome res = Some (zeroResponse, Some e)
            else
              exists now, toutcome res = Some (mkResponse domain msg 0 now rrtype, None)
        end)).
Proof.
  induction resolvers as [|s resolvers IH]; intros errorstring w res; subst res.
  - exists [], []. split; [done|]. left. done.
  - rewrite First_RecursiveQuery_range_cons.
    destruct (client_Exchange m (s +:+ ":853") w) as [[[r rtt] [e|]] w1] eqn:Hex.
    + match goal with
      | |- context [RecursiveQuery_range _ _ _ _ _ ?es w1] =>
          destruct (IH es w1) as (fails & rest & Hres & Hcases);
          destruct (RecursiveQuery_range Errorf resolvers m domain rrtype es w1)
            as [o w2 evs] eqn:Hrun
      end.
      simpl in *.
      exists ((s, r, e) :: fails), rest. split; [by rewrite Hres|].
      destruct Hcases as [(-> & -> & ->)|(s' & rest' & reply & -> & -> & Ho)].
      * left. by destruct r.
      * right. exists s', rest', reply. by destruct r.
    + exists [], (s :: resolvers). split; [done|]. right.
      exists s, resolvers, r. split; [done|].
      destruct r as [msg|]; simpl; [|done].
      pose proof (First_processResults_run msg domain rrtype w1) as [Hev Ho].
      destruct (processResults msg domain rrtype w1) as [o w2 evs]. simpl in *. subst evs.
      split; [done|]. destruct (decide _); [done|eauto].
Qed.

(** [RecursiveQuery] is its counter and the loop. *)
Lemma First_RecursiveQuery_shape domain rrtype (w : W) :
  exists id w1,
    dns_Id w = (id, w1) /\
    let lp := RecursiveQuery_range Errorf Resolvers (upstream_query id domain rrtype)
                domain rrtype "" w1 in
    tevents (RecursiveQuery Resolvers Errorf domain rrtype w)
    = EvInc RecursiveQueryCounter :: tevents lp /\
    toutcome (RecursiveQuery Resolvers Errorf domain rrtype w) = toutcome lp.
Proof.
  unfold RecursiveQuery, Inc, upstream_query. unfold_traced.
  destruct (dns_Id w) as [id w1]. exists id, w1. split; [done|]. simpl.
  by destruct (RecursiveQuery_range _ _ _ _ _ _ w1) as [[?|] ? ?].
Qed.

(** The failed exchanges are events of [RecursiveQuery]. *)
Lemma failed_exchanges_level m fails :
  Forall (fun e => upstream_level e = true) (failed_exchanges m fails).
Proof.
  induction fails as [|[[s r] e] fails IH]; [constructor|]. by repeat constructor.
Qed.

(** Every event of [RecursiveQuery] is of its level. *)
Lemma First_RecursiveQuery_level domain rrtype (w : W) :
  Forall (fun e => upstream_level e = true)
    (tevents (RecursiveQuery Resolvers Errorf domain rrtype w)).
Proof.
  destruct (First_RecursiveQuery_shape domain rrtype w) as (id & w1 & _ & Hev & _).
  simpl in Hev. rewrite Hev. constructor; [done|].
  destruct (First_RecursiveQuery_range_shape Resolvers (upstream_query id domain rrtype)
              domain rrtype "" w1) as (fails & rest & _ & Hc).
  simpl in Hc. destruct Hc as [(_ & -> & _)|(s & rest' & reply & _ & -> & _)].
  - apply failed_exchanges_level.
  - apply Forall_app. split; [apply failed_exchanges_level|by repeat constructor].
Qed.

(** [RecursiveQuery] leaves the client, the caches and the locks alone. *)
Lemma upstream_level_quiet evs :
  Forall (fun e => upstream_level e = true) evs ->
  writes evs = [] /\ cache_inserts evs = [] /\
  increments LocalServfailsCounter evs = 0%nat /\
  (forall held rest, locks_after held (evs ++ rest) = locks_after held rest) /\
  (forall held rest,
     held_at_exchanges held (evs ++ rest)
     = held_at_exchanges held evs ++ held_at_exchanges held rest) /\
  (forall held, Forall (fun h => h = held) (held_at_exchanges held evs)).
Proof.
  induction 1 as [|e evs He _ (Hw & Hc & Hl & Hla & Hha & Hf)]; [by repeat split|].
  destruct e as [[]| | | | | | | | |]; simpl in He; try discriminate;
    unfold writes, cache_inserts, increments in *; simpl;
    repeat split; try done; try intros held; try intros rest; auto.
  all: try (by rewrite Hha).
  all: try (by constructor).
Qed.

(** [RetrieveRecords], branch by branch. *)
Lemma First_RetrieveRecords_shape domain rrtype (w : W) :
  let res := RetrieveRecords Resolvers Errorf domain rrtype w in
  exists r1 ok1 w1,
    cache_Get LookupCache domain rrtype w = ((r1, ok1), w1) /\
    if (ok1 : bool) then
      tevents res = [EvLock LookupCache; EvCacheGet LookupCache domain rrtype r1 true;
                     EvInc CacheHitsCounter; EvUnlock LookupCache] /\
      toutcome res = Some (r1, None)
    else
      exists r2 ok2 w2,
        cache_Get HostedCache domain rrtype w1 = ((r2, ok2), w2) /\
        if (ok2 : bool) then
          tevents res = [EvLock LookupCache; EvCacheGet LookupCache domain rrtype r1 false;
                         EvRLock HostedCache; EvCacheGet HostedCache domain rrtype r2 true;
                         EvInc HostedCacheHitsCounter;
                         EvRUnlock HostedCache; EvUnlock LookupCache] /\
          toutcome res = Some (r2, None)
        else
          let rq := RecursiveQuery Resolvers Errorf domain rrtype w2 in
          tevents res =
            [EvLock LookupCache; EvCacheGet LookupCache domain rrtype r1 false;
             EvRLock HostedCache; EvCacheGet HostedCache domain rrtype r2 false]
            ++ tevents rq
            ++ match toutcome rq with
               | Some (resp, None) => [EvCacheAdd LookupCache resp]
               | _ => []
               end
            ++ [EvRUnlock HostedCache; EvUnlock LookupCache] /\
          toutcome res =
            match toutcome rq with
            | Some (resp, None) => Some (resp, None)
            | Some (resp, Some e) =>
                Some (resp,
                      Some ("error running recursive query on domain [" +:+ domain
                              +:+ "]: " +:+ e +:+ NL))
            | None => None
            end.
Proof.
  unfold RetrieveRecords, Inc. unfold_traced.
  destruct (cache_Get LookupCache domain rrtype w) as [[r1 [|]] w1];
    exists r1; eexists; exists w1; (split; [done|]); simpl; [done|].
  destruct (cache_Get HostedCache domain rrtype w1) as [[r2 [|]] w2];
    exists r2; eexists; exists w2; (split; [done|]); simpl; [done|].
  destruct (RecursiveQuery Resolvers Errorf domain rrtype w2) as [[[resp [e|]]|] w3 evs];
    simpl; rewrite ?app_nil_r; try done.
  - by rewrite <- !app_assoc.
  - destruct (cache_Add LookupCache resp w3); simpl. by rewrite <- !app_assoc.
  - by rewrite <- !app_assoc.
Qed.

(** [ServeDNS], branch by branch. *)
Lemma First_ServeDNS_shape wr r (w : W) :
  let res := ServeDNS Resolvers Errorf wr r w in
  match Dns.Question_ r with
  | [] => toutcome res = None /\ tevents res = [EvInc TotalDnsQueriesCounter]
  | q :: _ =>
      let rr := RetrieveRecords Resolvers Errorf (Dns.QName q) (Dns.Qtype q) w in
      tevents res =
        EvInc TotalDnsQueriesCounter :: tevents rr
        ++ match toutcome rr with
           | None => []
           | Some (_, Some e) =>
               [EvInc LocalServfailsCounter;
                EvPrintf ("error retrieving record for domain [" +:+ Dns.QName q
                            +:+ "]: " +:+ e);
                EvPrintf "sending nxdomain";
                EvWriteMsg wr (nxdomain_for r)]
           | Some (response, None) => [EvWriteMsg wr (answer_for r response)]
           end /\
      toutcome res = match toutcome rr with None => None | Some _ => Some tt end
  end.
Proof.
  unfold ServeDNS, sendNXDomain, Inc, nxdomain_for, answer_for. unfold_traced. simpl.
  destruct (Dns.Question_ r) as [|q qs] eqn:Hq; simpl; [done|].
  destruct (RetrieveRecords Resolvers Errorf (Dns.QName q) (Dns.Qtype q) w)
    as [[[response [e|]]|] w3 evs]; simpl.
  - by destruct (writer_WriteMsg _ _ w3) as [? w4].
  - by destruct (writer_WriteMsg _ _ w3) as [? w4].
  - by rewrite app_nil_r.
Qed.

End FirstServerShapes.

Section FirstServerRuns.

Import FirstServer.

Context {W : Type} `{!Env W}.
Variable Resolvers : list string.
Variable Errorf : string -> string.

(** The failed exchanges, read back. *)
Lemma asked_failed m fails :
  asked (failed_exchanges m fails) = map (fun x => (x.1.1 +:+ ":853", true)) fails /\
  increments ResolverErrorsCounter (failed_exchanges m fails) = List.length fails /\
  increments RecursiveQueryCounter (failed_exchanges m fails) = 0%nat.
Proof.
  induction fails as [|[[s r] e] fails (IH1 & IH2 & IH3)]; [done|].
  change (failed_exchanges m ((s, r, e) :: fails))
    with ([EvExchange m (s +:+ ":853") r (Some e); EvInc ResolverErrorsCounter]
            ++ failed_exchanges m fails).
  unfold asked, increments in *. rewrite omap_app, !First_count_app, IH1, IH2, IH3. done.
Qed.

(** No exchange without an error is among the failed ones. *)
Lemma failed_exchanges_In m fails m' a reply :
  ~ In (EvExchange m' a reply None) (failed_exchanges m fails).
Proof.
  induction fails as [|[[s r] e] fails IH]; [by intros []|].
  intros [?|[?|?]]; [done|done|auto].
Qed.


(** A reply with an rcode other than success ends [RecursiveQuery] in an
    error. *)
Lemma First_RecursiveQuery_unsuccessful_code domain rrtype (w : W) m a reply :
  let res := RecursiveQuery Resolvers Errorf domain rrtype w in
  In (EvExchange m a (Some reply) None) (tevents res) ->
  Dns.Rcode reply <> Dns.RcodeSuccess ->
  exists e, toutcome res = Some (zeroResponse, Some e).
Proof.
  intros res; subst res.
  destruct (First_RecursiveQuery_shape Resolvers Errorf domain rrtype w)
    as (id & w1 & _ & Hev & Ho).
  simpl in Hev, Ho. rewrite Hev, Ho.
  destruct (First_RecursiveQuery_range_shape Errorf Resolvers (upstream_query id domain rrtype)
              domain rrtype "" w1) as (fails & rest & Hres & Hc).
  simpl in Hc.
  destruct Hc as [(-> & -> & ->)|(s & rest' & reply' & -> & -> & Hout)].
  - intros [?|Hin] _; [done|]. by apply failed_exchanges_In in Hin.
  - intros [?|Hin] Hne; [done|]. apply in_app_or in Hin as [Hin|[Hin|[]]].
    + by apply failed_exchanges_In in Hin.
    + simplify_eq. by rewrite decide_True in Hout.
Qed.

(** X18: in the first revision [RecursiveQuery] asks the configured
    resolvers in order, each at port 853, and stops at the first exchange
    that does not fail; [resolver_errors] is incremented once for every
    failed exchange.  When every resolver failed (also when none is
    configured), the error returned is made from the texts of all failures,
    the most recent first. *)
Theorem FirstServer_RecursiveQuery_asks_in_order domain rrtype (w : W) :
  let res := RecursiveQuery Resolvers Errorf domain rrtype w in
  exists (fails : list (string * option Dns.Msg * string)) rest,
    Resolvers = map (fun x => x.1.1) fails ++ rest /\
    asked (tevents res)
      = map (fun x => (x.1.1 +:+ ":853", true)) fails
        ++ match rest with
           | [] => []
           | s :: _ => [(s +:+ ":853", false)]
           end /\
    increments ResolverErrorsCounter (tevents res) = List.length fails /\
    increments RecursiveQueryCounter (tevents res) = 1%nat /\
    (rest = [] ->
     toutcome res =
       Some (zeroResponse,
             Some (Errorf (gathered domain (map (fun x => (x.1.1, x.2)) fails) "")))).
Proof.
  intros res; subst res.
  destruct (First_RecursiveQuery_shape Resolvers Errorf domain rrtype w)
    as (id & w1 & _ & Hev & Ho).
  simpl in Hev, Ho. rewrite Hev, Ho.
  destruct (First_RecursiveQuery_range_shape Errorf Resolvers (upstream_query id domain rrtype)
              domain rrtype "" w1) as (fails & rest & Hres & Hc).
  simpl in Hc. exists fails, rest. split; [done|].
  destruct (asked_failed (upstream_query id domain rrtype) fails) as (Ha & Hi & Hq).
  destruct Hc as [(-> & -> & ->)|(s & rest' & reply & -> & -> & _)].
  - unfold asked, increments in *.
    change (EvInc RecursiveQueryCounter :: ?l) with ([EvInc RecursiveQueryCounter] ++ l).
    rewrite omap_app, !First_count_app, Ha, Hi, Hq, app_nil_r. done.
  - unfold asked, increments in *.
    change (EvInc RecursiveQueryCounter :: ?l) with ([EvInc RecursiveQueryCounter] ++ l).
    rewrite !omap_app, !First_count_app, Ha, Hi, Hq.
    simpl. repeat split; try done; lia.
Qed.

(** X19: in the first revision [RetrieveRecords] starts by locking the
    lookup cache and ends by unlocking it; the locks it takes are released
    last in, first out, on every path, a panic included; and every exchange
    with a resolver runs while the lookup cache is locked and the hosted
    cache is read-locked. *)
Theorem FirstServer_RetrieveRecords_holds_locks domain rrtype (w : W) :
  let evs := tevents (RetrieveRecords Resolvers Errorf domain rrtype w) in
  head evs = Some (EvLock LookupCache) /\
  last evs = Some (EvUnlock LookupCache) /\
  locks_after [] evs = Some [] /\
  Forall (fun held => held = [Shared HostedCache; Exclusive LookupCache])
    (held_at_exchanges [] evs).
Proof.
  intros evs; subst evs.
  destruct (First_RetrieveRecords_shape Resolvers Errorf domain rrtype w)
    as (r1 & ok1 & w1 & _ & Hs).
  simpl in Hs. destruct ok1.
  { destruct Hs as [-> _]. by repeat split. }
  destruct Hs as (r2 & ok2 & w2 & _ & Hs). destruct ok2.
  { destruct Hs as [-> _]. by repeat split. }
  destruct Hs as [-> _].
  pose proof (First_RecursiveQuery_level Resolvers Errorf domain rrtype w2) as Hl.
  destruct (upstream_level_quiet _ Hl) as (_ & _ & _ & Hla & Hha & Hf).
  split; [done|]. split; [|split].
  - simpl. by rewrite !last_cons, !last_app.
  - simpl. rewrite Hla.
    by destruct (toutcome (RecursiveQuery Resolvers Errorf domain rrtype w2))
      as [[resp [e|]]|].
  - simpl. rewrite Hha. apply Forall_app. split; [apply Hf|].
    by destruct (toutcome (RecursiveQuery Resolvers Errorf domain rrtype w2))
      as [[resp [e|]]|].
Qed.

(** X20: in the first revision [ServeDNS] panics on a request without a
    question, before anything is written.  Otherwise it runs
    [RetrieveRecords] for the name and type of the first question, and what
    it writes is decided by what [RetrieveRecords] returned.  When that is a
    response, [ServeDNS] writes one message, last of all, and returns: the
    reply it built itself around the answers of that very response, with
    the request's id and first question, rcode success, ra set, aa clear
    and empty authority and additional sections; the response is the one a
    cache reported on a hit or the one just inserted into the lookup cache.
    When [RetrieveRecords] returned an error, [ServeDNS] increments
    [local_servfails], writes one message, NXDOMAIN without answers, and
    returns; nothing is cached.  When [RetrieveRecords] panicked nothing is
    written. *)
Theorem FirstServer_ServeDNS_replies_once wr r (w : W) :
  let res := ServeDNS Resolvers Errorf wr r w in
  match Dns.Question_ r with
  | [] => toutcome res = None /\ writes (tevents res) = []
  | q :: _ =>
      let rr := RetrieveRecords Resolvers Errorf (Dns.QName q) (Dns.Qtype q) w in
      match toutcome rr with
      | None => toutcome res = None /\ writes (tevents res) = []
      | Some (response, None) =>
          let m := answer_for r response in
          toutcome res = Some tt /\
          writes (tevents res) = [(wr, m)] /\
          last (tevents res) = Some (EvWriteMsg wr m) /\
          Dns.Answer m = Dns.Answer (Entry response) /\
          Dns.Id m = Dns.Id r /\ Dns.Question_ m = [q] /\
          Dns.Rcode m = Dns.RcodeSuccess /\
          Dns.RecursionAvailable m = true /\ Dns.Authoritative m = false /\
          Dns.Ns m = [] /\ Dns.Extra m = [] /\
          increments LocalServfailsCounter (tevents res) = 0%nat /\
          (In (EvCacheGet LookupCache (Dns.QName q) (Dns.Qtype q) response true)
              (tevents res) \/
           In (EvCacheGet HostedCache (Dns.QName q) (Dns.Qtype q) response true)
              (tevents res) \/
           cache_inserts (tevents res) = [(LookupCache, response)])
      | Some (_, Some _) =>
          let m := nxdomain_for r in
          toutcome res = Some tt /\
          writes (tevents res) = [(wr, m)] /\
          last (tevents res) = Some (EvWriteMsg wr m) /\
          Dns.Rcode m = RcodeNameError /\ Dns.Answer m = [] /\
          Dns.Id m = Dns.Id r /\ Dns.Question_ m = [q] /\
          increments LocalServfailsCounter (tevents res) = 1%nat /\
          cache_inserts (tevents res) = []
      end
  end.
Proof.
  intros res; subst res.
  pose proof (First_ServeDNS_shape Resolvers Errorf wr r w) as Hs. simpl in Hs.
  destruct (Dns.Question_ r) as [|q qs] eqn:Hq.
  { by destruct Hs as [-> ->]. }
  destruct Hs as [-> ->]. cbv zeta.
  destruct (First_RetrieveRecords_shape Resolvers Errorf (Dns.QName q) (Dns.Qtype q) w)
    as (r1 & ok1 & w1 & _ & Hs).
  simpl in Hs. destruct ok1.
  { destruct Hs as [-> ->]. simpl. unfold answer_for. simpl. rewrite Hq.
    repeat split; try done. left. repeat (first [left; reflexivity | right]). }
  destruct Hs as (r2 & ok2 & w2 & _ & Hs). destruct ok2.
  { destruct Hs as [-> ->]. simpl. unfold answer_for. simpl. rewrite Hq.
    repeat split; try done. right. left. repeat (first [left; reflexivity | right]). }
  destruct Hs as [-> ->].
  pose proof (First_RecursiveQuery_level Resolvers Errorf (Dns.QName q) (Dns.Qtype q) w2) as Hl.
  destruct (upstream_level_quiet _ Hl) as (Hw & Hc & Hi & _).
  unfold writes, cache_inserts, increments in *.
  destruct (RecursiveQuery Resolvers Errorf (Dns.QName q) (Dns.Qtype q) w2)
    as [[[resp [e|]]|] w3 evs]; simpl in *;
    rewrite ?omap_app, ?First_count_app, ?Hw, ?Hc, ?Hi; simpl.
  - unfold nxdomain_for. simpl. rewrite Hq. repeat split; try done.
    by rewrite ?last_cons, ?last_app.
  - unfold answer_for. simpl. rewrite Hq. repeat split; try done.
    + by rewrite ?last_cons, ?last_app.
    + by do 2 right.
  - done.
Qed.

(** X21: in the first revision, when a resolver answers with an rcode
    other than success, the client is told NXDOMAIN whatever that rcode was;
    the reply is not cached and [local_servfails] is incremented. *)
Theorem FirstServer_ServeDNS_hides_upstream_rcode wr r (w : W) m a reply :
  let res := ServeDNS Resolvers Errorf wr r w in
  In (EvExchange m a (Some reply) None) (tevents res) ->
  Dns.Rcode reply <> Dns.RcodeSuccess ->
  toutcome res = Some tt /\
  writes (tevents res) = [(wr, nxdomain_for r)] /\
  Dns.Rcode (nxdomain_for r) = RcodeNameError /\
  cache_inserts (tevents res) = [] /\
  increments LocalServfailsCounter (tevents res) = 1%nat.
Proof.
  intros res; subst res.
  pose proof (First_ServeDNS_shape Resolvers Errorf wr r w) as Hs. simpl in Hs.
  destruct (Dns.Question_ r) as [|q qs] eqn:Hq.
  { destruct Hs as [-> ->]. by intros [?|[]]. }
  destruct Hs as [-> ->].
  destruct (First_RetrieveRecords_shape Resolvers Errorf (Dns.QName q) (Dns.Qtype q) w)
    as (r1 & ok1 & w1 & _ & Hs).
  simpl in Hs. destruct ok1.
  { destruct Hs as [-> ->]. simpl. intros Hin. by repeat destruct Hin as [?|Hin]. }
  destruct Hs as (r2 & ok2 & w2 & _ & Hs). destruct ok2.
  { destruct Hs as [-> ->]. simpl. intros Hin. by repeat destruct Hin as [?|Hin]. }
  destruct Hs as [-> ->].
  pose proof (First_RecursiveQuery_level Resolvers Errorf (Dns.QName q) (Dns.Qtype q) w2) as Hl.
  destruct (upstream_level_quiet _ Hl) as (Hw & Hc & Hi & _).
  pose proof (First_RecursiveQuery_unsuccessful_code (Dns.QName q) (Dns.Qtype q) w2 m a reply)
    as Hbad.
  simpl in Hbad.
  unfold writes, cache_inserts, increments in *.
  intros Hin Hne.
  assert (Hin' : In (EvExchange m a (Some reply) None)
                   (tevents (RecursiveQuery Resolvers Errorf (Dns.QName q) (Dns.Qtype q) w2))).
  { destruct (toutcome (RecursiveQuery Resolvers Errorf (Dns.QName q) (Dns.Qtype q) w2))
      as [[? [?|]]|];
      repeat match type of Hin with
             | In _ (_ ++ _) => apply in_app_or in Hin as [Hin|Hin]
             | In _ (_ :: _) => destruct Hin as [Hin|Hin]; [try discriminate Hin|]
             | In _ [] => destruct Hin
             end; done. }
  destruct (Hbad Hin' Hne) as [e He]. clear Hin Hin' Hbad.
  destruct (RecursiveQuery Resolvers Errorf (Dns.QName q) (Dns.Qtype q) w2)
    as [o w3 evs]; simpl in *. subst o. simpl.
  rewrite !omap_app, !First_count_app, Hw, Hc, Hi. done.
Qed.

End FirstServerRuns.

(** X20, witness: the caches miss and the resolver answers with an A
    record; the reply written carries that record and the response is
    cached. *)
Lemma FirstServer_ServeDNS_replies_once_witness :
  let w : Dns.Msg * Z := (reply_a, 0) in
  let res := FirstServer.ServeDNS FirstScenario.resolvers FirstScenario.Errorf
               client_writer query w in
  let response := mkResponse "example.com." reply_a 0 0 1 in
  toutcome (FirstServer.RetrieveRecords FirstScenario.resolvers FirstScenario.Errorf
              "example.com." 1 w) = Some (response, None) /\
  toutcome res = Some tt /\
  FirstServer.writes (tevents res) = [(client_writer, FirstServer.answer_for query response)] /\
  Dns.Answer (FirstServer.answer_for query response) = [rr_a] /\
  FirstServer.cache_inserts (tevents res) = [(LookupCache, response)].
Proof.
  intros w res response.
  assert (Hrr : toutcome (FirstServer.RetrieveRecords FirstScenario.resolvers
                            FirstScenario.Errorf "example.com." 1 w)
                = Some (response, None)) by reflexivity.
  pose proof (FirstServer_ServeDNS_replies_once FirstScenario.resolvers
                FirstScenario.Errorf client_writer query w) as H.
  change (Dns.Question_ query) with [Dns.mkQuestion "example.com." 1 1] in H.
  cbv beta iota zeta in H.
  change (Dns.QName (Dns.mkQuestion "example.com." 1 1)) with "example.com." in H.
  change (Dns.Qtype (Dns.mkQuestion "example.com." 1 1)) with 1 in H.
  rewrite Hrr in H.
  destruct H as (Ho & Hw & _ & Ha & _ & _ & _ & _ & _ & _ & _ & _ & [Hin|[Hin|Hins]]).
  - exfalso. vm_compute in Hin.
    repeat (destruct Hin as [Hin|Hin]; [discriminate Hin|]). exact Hin.
  - exfalso. vm_compute in Hin.
    repeat (destruct Hin as [Hin|Hin]; [discriminate Hin|]). exact Hin.
  - split; [exact Hrr|]. split; [exact Ho|]. split; [exact Hw|].
    split; [rewrite Ha; reflexivity|exact Hins].
Defined.

(** X21, witness: the resolver answers REFUSED. *)
Lemma FirstServer_ServeDNS_hides_upstream_rcode_witness :
  In (FirstServer.EvExchange (FirstServer.upstream_query 4242 "example.com." 1)
        "9.9.9.9:853" (Some FirstScenario.refused) None)
     (tevents (FirstServer.ServeDNS FirstScenario.resolvers FirstScenario.Errorf
                 client_writer query 0)) /\
  Dns.Rcode FirstScenario.refused <> Dns.RcodeSuccess /\
  toutcome (FirstServer.ServeDNS FirstScenario.resolvers FirstScenario.Errorf
              client_writer query 0) = Some tt /\
  FirstServer.writes
    (tevents (FirstServer.ServeDNS FirstScenario.resolvers FirstScenario.Errorf
                client_writer query 0))
    = [(client_writer, FirstServer.nxdomain_for query)] /\
  Dns.Rcode (FirstServer.nxdomain_for query) = FirstServer.RcodeNameError /\
  FirstServer.cache_inserts
    (tevents (FirstServer.ServeDNS FirstScenario.resolvers FirstScenario.Errorf
                client_writer query 0)) = [] /\
  FirstServer.increments FirstServer.LocalServfailsCounter
    (tevents (FirstServer.ServeDNS FirstScenario.resolvers FirstScenario.Errorf
                client_writer query 0)) = 1%nat.
Proof.
  assert (Hin : In (FirstServer.EvExchange
                      (FirstServer.upstream_query 4242 "example.com." 1)
                      "9.9.9.9:853" (Some FirstScenario.refused) None)
                  (tevents (FirstServer.ServeDNS FirstScenario.resolvers
                              FirstScenario.Errorf client_writer query 0))).
  { vm_compute. repeat (first [left; reflexivity | right]). }
  assert (Hne : Dns.Rcode FirstScenario.refused <> Dns.RcodeSuccess) by done.
  split; [exact Hin|]. split; [exact Hne|].
  exact (FirstServer_ServeDNS_hides_upstream_rcode
           FirstScenario.resolvers FirstScenario.Errorf client_writer query 0 _ _ _ Hin Hne).
Defined.

(** ** server.go, the second revision *)
Arguments PooledServer.GetConnection : simpl never.

Section PooledServerRuns.

Import PooledServer.

Context {W : Type} `{!Env W}.
Variable Resolvers : list string.
Variable render : option ConnEntry -> string.

(** Counting distributes over [++]. *)
Lemma Pooled_count_app p (a b : list Event) :
  count p (a ++ b) = (count p a + count p b)%nat.
Proof. induction a as [|e a IH]; simpl; [done|]. destruct (p e); simpl; lia. Qed.

Ltac pcounts := repeat (progress (rewrite ?Pooled_count_app in *; simpl in * )).

(** [GetConnection] closes nothing and hands nothing to the pool. *)
Lemma get_level_quiet evs :
  Forall (fun e => get_level e = true) evs ->
  count is_close evs = 0%nat /\ count is_kept evs = 0%nat /\
  count is_rejected evs = 0%nat /\ count is_failed_exchange evs = 0%nat /\
  pool_adds evs = [].
Proof.
  induction 1 as [|e evs He _ (?&?&?&?&?)]; [done|].
  destruct e as [[]| | | | | | |]; simpl in He; try discriminate;
    unfold pool_adds in *; simpl; done.
Qed.


(** [GetConnection] never panics, asks the pool once, and obtains a
    connection exactly when it returns without an error. *)
Lemma Pooled_GetConnection_run address (w : W) :
  let res := GetConnection address w in
  Forall (fun e => get_level e = true) (tevents res) /\
  pool_gets (tevents res) = [address] /\
  exists ce err,
    toutcome res = Some (ce, err) /\
    match err with
    | None => count is_obtained (tevents res) = 1%nat /\ obtained (tevents res) = [ce]
    | Some e => count is_obtained (tevents res) = 0%nat /\ obtained (tevents res) = []
    end.
Proof.
  unfold GetConnection, Inc, Logger_Log. unfold_traced.
  destruct (pool_Get address w) as [[ce [e|]] w1]; simpl.
  - destruct (time_Now w1) as [t0 w2]; simpl.
    destruct (client_Dial address w2) as [[conn [e'|]] w3]; simpl;
      destruct (time_Now w3) as [t1 w4]; simpl.
    + split; [by repeat constructor|]. split; [done|]. by eexists _, (Some _).
    + split; [by repeat constructor|]. split; [done|]. by eexists _, None.
  - split; [by repeat constructor|]. split; [done|]. by eexists _, None.
Qed.





(** Five connections to one address, or the first error. *)
Lemma warm_address_run n address : forall conns (w : W),
  let res := warm_address n address conns w in
  Forall (fun e => get_level e = true) (tevents res) /\
  exists conns' err,
    toutcome res = Some (conns', err) /\
    conns' = conns ++ obtained (tevents res) /\
    match err with
    | None =>
        pool_gets (tevents res) = replicate n address /\
        List.length (obtained (tevents res)) = n
    | Some _ => (List.length (obtained (tevents res)) < n)%nat
    end.
Proof.
  induction n as [|n IH]; intros conns w; simpl.
  - split; [constructor|]. exists conns, None. by rewrite app_nil_r.
  - unfold tbind.
    pose proof (Pooled_GetConnection_run address w) as (Hl & Hg & ce & err & Ho & Hc).
    destruct (GetConnection address w) as [o1 w1 evs1]. simpl in *. subst o1.
    destruct err as [e|]; simpl.
    + destruct Hc as [_ Hc]. split; [by rewrite app_nil_r|].
      eexists conns, (Some _). rewrite app_nil_r, Hc, app_nil_r.
      split; [done|]. split; [done|]. simpl. lia.
    + destruct Hc as [_ Hc].
      destruct (IH (conns ++ [ce]) w1) as (Hl2 & conns' & err & Ho2 & Hconns & Herr).
      destruct (warm_address n address (conns ++ [ce]) w1) as [o2 w2 evs2].
      simpl in *. subst o2.
      split; [by apply Forall_app|].
      exists conns', err. split; [done|].
      unfold obtained, pool_gets in *. rewrite !omap_app, Hc, Hg.
      split; [by rewrite Hconns, <- app_assoc|].
      destruct err; simpl; [lia|]. destruct Herr as [-> ->]. done.
Qed.

(** Five connections to every resolver, or the first error. *)
Lemma warm_range_run resolvers : forall conns (w : W),
  let res := warm_range resolvers conns w in
  Forall (fun e => get_level e = true) (tevents res) /\
  exists conns' err,
    toutcome res = Some (conns', err) /\
    conns' = conns ++ obtained (tevents res) /\
    match err with
    | None =>
        pool_gets (tevents res)
          = flat_map (fun r => replicate 5 (r +:+ ":853")) resolvers /\
        List.length (obtained (tevents res)) = (5 * List.length resolvers)%nat
    | Some _ =>
        (List.length (obtained (tevents res)) < 5 * List.length resolvers)%nat
    end.
Proof.
  induction resolvers as [|r resolvers IH]; intros conns w.
  - split; [constructor|]. exists conns, None. simpl. by rewrite app_nil_r.
  - change (warm_range (r :: resolvers) conns w)
      with (tbind (warm_address 5 (r +:+ ":853") conns)
              (fun '(conns, err) =>
                 match err with
                 | Some e => tret (conns, Some e)
                 | None => warm_range resolvers conns
                 end) w).
    unfold tbind.
    destruct (warm_address_run 5 (r +:+ ":853") conns w)
      as (Hl & conns1 & err1 & Ho & Hconns & Herr).
    destruct (warm_address 5 (r +:+ ":853") conns w) as [o1 w1 evs1].
    cbn [toutcome tevents] in *. subst o1.
    destruct err1 as [e|].
    + unfold tret. cbn [toutcome tevents]. rewrite app_nil_r.
      split; [done|]. exists conns1, (Some e). split; [done|]. split; [done|].
      cbn [List.length]. lia.
    + destruct Herr as [Hg Hn].
      destruct (IH conns1 w1) as (Hl2 & conns2 & err2 & Ho2 & Hconns2 & Herr2).
      destruct (warm_range resolvers conns1 w1) as [o2 w2 evs2].
      cbn [toutcome tevents] in *. subst o2.
      split; [by apply Forall_app|].
      exists conns2, err2. split; [done|].
      unfold obtained, pool_gets in *. rewrite !omap_app, Hg.
      split; [by rewrite Hconns2, Hconns, <- app_assoc|].
      rewrite length_app. cbn [flat_map List.length].
      destruct err2; [lia|]. destruct Herr2 as [-> ?]. split; [done|lia].
Qed.

(** The loop that hands the connections to the pool. *)
Lemma add_each_run conns : forall (w : W),
  exists w' answers,
    tforEach conns (fun v =>
      tbind (tcall (pool_Add v) (fun '(added, err) => EvPoolAdd v added err))
            (fun _ => tret tt)) w
    = mkTRes (Some tt) w' (zip_with (fun v '(added, err) => EvPoolAdd v added err)
                             conns answers) /\
    List.length answers = List.length conns.
Proof.
  induction conns as [|v conns IH]; intros w; simpl.
  - by exists w, [].
  - unfold tbind at 1 2. unfold tcall at 1.
    destruct (pool_Add v w) as [[added err] w1]. simpl.
    destruct (IH w1) as (w' & answers & -> & Hlen).
    exists w', ((added, err) :: answers). simpl. by rewrite Hlen.
Qed.

(** That loop only adds. *)
Lemma adds_quiet conns : forall answers,
  List.length answers = List.length conns ->
  let evs := zip_with (fun (v : option ConnEntry) '(added, err) => EvPoolAdd v added err)
               conns answers in
  pool_adds evs = conns /\ obtained evs = [] /\ pool_gets evs = [] /\
  count is_close evs = 0%nat.
Proof.
  induction conns as [|v conns IH]; intros [|[added err] answers] Hlen;
    simpl in *; try done.
  destruct (IH answers) as (I1 & I2 & I3 & I4); [lia|].
  unfold pool_adds in *. simpl. by rewrite I1.
Qed.

(** [GetConnection] returns an error only when the dial failed, and then
    the failed dial, the observation of its timer and the log line are the
    last things it did; the error is the dial's. *)
Lemma Pooled_GetConnection_failure address (w : W) :
  let res := GetConnection address w in
  match toutcome res with
  | Some (_, Some e) =>
      exists pre conn d,
        tevents res
        = pre ++ [EvDial address conn (Some e); EvObserveTLS address d;
                  EvLog ERROR ("error connecting to [" +:+ address +:+ "]: [" +:+ e +:+ "]")] /\
        count is_failed_dial pre = 0%nat
  | _ => count is_failed_dial (tevents res) = 0%nat
  end.
Proof.
  unfold GetConnection, Inc, Logger_Log. unfold_traced.
  destruct (pool_Get address w) as [[ce [e|]] w1]; simpl; [|done].
  destruct (time_Now w1) as [t0 w2]; simpl.
  destruct (client_Dial address w2) as [[conn [e'|]] w3]; simpl;
    destruct (time_Now w3) as [t1 w4]; simpl; [|done].
  by eexists [_; _; _], conn, (t1 - t0).
Qed.

(** Five connections to one address, or the first error: the request that
    failed is the last one made. *)
Lemma warm_address_stops n address : forall conns (w : W),
  let res := warm_address n address conns w in
  match toutcome res with
  | Some (_, Some e') =>
      exists pre conn d e,
        tevents res
        = pre ++ [EvDial address conn (Some e); EvObserveTLS address d;
                  EvLog ERROR ("error connecting to [" +:+ address +:+ "]: [" +:+ e +:+ "]")] /\
        e' = "could not initiate connection to [" +:+ address +:+ "]: " +:+ e /\
        count is_failed_dial pre = 0%nat /\
        pool_gets (tevents res)
        = replicate (S (List.length (obtained (tevents res)))) address
  | _ => count is_failed_dial (tevents res) = 0%nat
  end.
Proof.
  induction n as [|n IH]; intros conns w; simpl; [done|].
  unfold tbind.
  pose proof (Pooled_GetConnection_run address w) as (Hl & Hg & ce & err & Ho & Hc).
  pose proof (Pooled_GetConnection_failure address w) as Hf. simpl in Hf.
  destruct (GetConnection address w) as [o1 w1 evs1]. simpl in *. subst o1.
  destruct err as [e|]; simpl.
  - destruct Hf as (pre & conn & d & -> & Hpre). destruct Hc as [_ Hc].
    exists pre, conn, d, e. rewrite !app_nil_r. rewrite Hc, Hg. done.
  - destruct Hc as [_ Hc].
    specialize (IH (conns ++ [ce]) w1). simpl in IH.
    destruct (warm_address n address (conns ++ [ce]) w1) as [[[conns' [e'|]]|] w2 evs2];
      simpl in *.
    + destruct IH as (pre & conn & d & e & Hev & -> & Hpre & Hgets).
      exists (evs1 ++ pre), conn, d, e. rewrite <- app_assoc, <- Hev.
      split; [done|]. split; [done|]. split; [pcounts; lia|].
      change (pool_gets (evs1 ++ evs2)) with (omap (fun e => match e with EvPoolGet a _ _ => Some a | _ => None end) (evs1 ++ evs2)).
      rewrite omap_app. fold (pool_gets evs1) (pool_gets evs2). rewrite Hg, Hgets.
      unfold obtained at 2. rewrite omap_app. fold (obtained evs1) (obtained evs2).
      rewrite Hc. done.
    + pcounts. lia.
    + pcounts. lia.
Qed.

(** The same for the loop over the resolvers. *)
Lemma warm_range_stops resolvers : forall conns (w : W),
  let res := warm_range resolvers conns w in
  match toutcome res with
  | Some (_, Some e') =>
      exists pre r conn d e,
        In r resolvers /\
        tevents res
        = pre ++ [EvDial (r +:+ ":853") conn (Some e); EvObserveTLS (r +:+ ":853") d;
                  EvLog ERROR ("error connecting to [" +:+ (r +:+ ":853") +:+ "]: ["
                                 +:+ e +:+ "]")] /\
        e' = "could not initiate connection to [" +:+ (r +:+ ":853") +:+ "]: " +:+ e /\
        count is_failed_dial pre = 0%nat /\
        pool_gets (tevents res)
        = take (S (List.length (obtained (tevents res))))
            (flat_map (fun r => replicate 5 (r +:+ ":853")) resolvers)
  | _ => count is_failed_dial (tevents res) = 0%nat
  end.
Proof.
  induction resolvers as [|r resolvers IH]; intros conns w; [done|].
  change (warm_range (r :: resolvers) conns w)
    with (tbind (warm_address 5 (r +:+ ":853") conns)
            (fun '(conns, err) =>
               match err with
               | Some e => tret (conns, Some e)
               | None => warm_range resolvers conns
               end) w).
  unfold tbind.
  destruct (warm_address_run 5 (r +:+ ":853") conns w)
    as (Hl & conns1 & err1 & Ho & Hconns & Herr).
  pose proof (warm_address_stops 5 (r +:+ ":853") conns w) as Hs. cbv zeta in Hs.
  destruct (warm_address 5 (r +:+ ":853") conns w) as [o1 w1 evs1].
  cbn [toutcome tevents] in *. subst o1.
  destruct err1 as [e1|].
  - unfold tret. cbn [toutcome tevents]. rewrite app_nil_r.
    cbv beta iota in Hs.
    destruct Hs as (pre & conn & d & e & -> & -> & Hpre & Hgets).
    exists pre, r, conn, d, e. split; [by left|]. split; [done|]. split; [done|].
    split; [done|]. rewrite Hgets. cbn [flat_map].
    rewrite take_app_le by (rewrite length_replicate; lia).
    rewrite take_replicate. f_equal. lia.
  - destruct Herr as [Hg Hn].
    specialize (IH conns1 w1). cbv zeta in IH.
    destruct (warm_range resolvers conns1 w1) as [[[conns2 [e2|]]|] w2 evs2];
      cbn [toutcome tevents] in *.
    + destruct IH as (pre & r' & conn & d & e & Hin & Hev & -> & Hpre & Hgets).
      exists (evs1 ++ pre), r', conn, d, e. split; [by right|].
      rewrite <- app_assoc, <- Hev.
      split; [done|]. split; [done|]. split; [pcounts; lia|].
      change (pool_gets (evs1 ++ evs2)) with (omap (fun e => match e with EvPoolGet a _ _ => Some a | _ => None end) (evs1 ++ evs2)).
      rewrite omap_app. fold (pool_gets evs1) (pool_gets evs2). rewrite Hg, Hgets.
      unfold obtained at 2. rewrite omap_app. fold (obtained evs1) (obtained evs2).
      rewrite length_app, Hn. cbn [flat_map].
      replace (S (5 + List.length (obtained evs2)))
        with (List.length (replicate 5 (r +:+ ":853")) + S (List.length (obtained evs2)))%nat
        by (rewrite length_replicate; lia).
      by rewrite take_app_add.
    + pcounts. lia.
    + pcounts. lia.
Qed.

(** That loop dials nothing. *)(** That loop dials nothing. *)
Lemma adds_dial_nothing conns : forall answers,
  count is_failed_dial
    (zip_with (fun (v : option ConnEntry) '(added, err) => EvPoolAdd v added err)
       conns answers) = 0%nat.
Proof.
  induction conns as [|v conns IH]; intros [|[added err] answers]; simpl; auto.
Qed.

(** X23: [warmConnections] asks for five connections to every resolver,
    in the order of the configuration, and closes none.  When all of them
    were obtained, each is handed to the pool, in that order.  When a
    request fails, that is when its dial fails, the function returns at
    once: the failed dial, the observation of its timer and the log line
    are the last things the run did, no dial failed before it, the requests
    made are those that obtained a connection and the one that failed, the
    error returned is the dial's, wrapped with the address, and the
    connections obtained so far are neither handed to the pool nor
    closed. *)
Theorem PooledServer_warmConnections_all_or_nothing (w : W) :
  let res := warmConnections Resolvers w in
  let requests := flat_map (fun r => replicate 5 (r +:+ ":853")) Resolvers in
  count is_close (tevents res) = 0%nat /\
  exists err,
    toutcome res = Some err /\
    match err with
    | None =>
        pool_gets (tevents res) = requests /\
        List.length (obtained (tevents res)) = (5 * List.length Resolvers)%nat /\
        pool_adds (tevents res) = obtained (tevents res) /\
        count is_failed_dial (tevents res) = 0%nat
    | Some e' =>
        pool_adds (tevents res) = [] /\
        (List.length (obtained (tevents res)) < 5 * List.length Resolvers)%nat /\
        exists pre r conn d e,
          In r Resolvers /\
          tevents res
          = pre ++ [EvDial (r +:+ ":853") conn (Some e);
                    EvObserveTLS (r +:+ ":853") d;
                    EvLog ERROR ("error connecting to [" +:+ (r +:+ ":853") +:+ "]: ["
                                   +:+ e +:+ "]")] /\
          e' = "could not initiate connection to [" +:+ (r +:+ ":853") +:+ "]: " +:+ e /\
          count is_failed_dial pre = 0%nat /\
          pool_gets (tevents res)
          = take (S (List.length (obtained (tevents res)))) requests
    end.
Proof.
  intros res requests. subst requests.
  destruct res as [o w' evs] eqn:Hrun. subst res.
  unfold warmConnections in Hrun. unfold tbind at 1 in Hrun.
  destruct (warm_range_run Resolvers [] w) as (Hl & conns & err & Ho & Hconns & Herr).
  pose proof (warm_range_stops Resolvers [] w) as Hstop. cbv zeta in Hstop.
  destruct (get_level_quiet _ Hl) as (Hq1 & _ & _ & _ & Hq5).
  destruct (warm_range Resolvers [] w) as [o1 w1 evs1].
  cbn [toutcome tevents] in *. subst o1. simpl in Hconns. cbv beta iota in Hstop.
  destruct err as [e|].
  - unfold tret in Hrun. simplify_eq. rewrite app_nil_r.
    split; [done|]. exists (Some e). split; [done|]. split; [exact Hq5|].
    split; [exact Herr|exact Hstop].
  - unfold tbind at 1 in Hrun.
    destruct (add_each_run conns w1) as (w2 & answers & Hadd & Hlen).
    rewrite Hadd in Hrun.
    destruct (adds_quiet conns answers Hlen) as (A1 & A2 & A3 & A4).
    pose proof (adds_dial_nothing conns answers) as A5.
    unfold tret in Hrun. simplify_eq. rewrite app_nil_r.
    destruct Herr as [Hg Hn].
    unfold pool_gets, obtained, pool_adds in *.
    rewrite !Pooled_count_app, !omap_app, Hq1, Hq5, A1, A2, A3, A4, A5, Hstop, !app_nil_r.
    split; [done|]. exists None. done.
Qed.

End PooledServerRuns.


(** X23, witness: two dials succeed and the third fails.  Three requests
    were made, all to the first resolver, nothing was handed to the pool
    and nothing was closed. *)
Lemma PooledServer_warmConnections_all_or_nothing_witness :
  let res := PooledServer.warmConnections PooledScenario.resolvers (2%nat, 0) in
  toutcome res
  = Some (Some "could not initiate connection to [9.9.9.9:853]: dial tcp: i/o timeout") /\
  List.length (PooledServer.obtained (tevents res)) = 2%nat /\
  PooledServer.pool_gets (tevents res) = replicate 3 "9.9.9.9:853" /\
  PooledServer.pool_adds (tevents res) = [] /\
  PooledServer.count PooledServer.is_close (tevents res) = 0%nat /\
  last (tevents res)
  = Some (PooledServer.EvLog ERROR
            "error connecting to [9.9.9.9:853]: [dial tcp: i/o timeout]").
Proof.
  intros res.
  destruct (PooledServer_warmConnections_all_or_nothing PooledScenario.resolvers (2%nat, 0))
    as (Hclose & err & Ho & Hb).
  fold res in Hclose, Ho, Hb.
  change (toutcome res)
    with (Some (Some "could not initiate connection to [9.9.9.9:853]: dial tcp: i/o timeout"))
    in Ho.
  injection Ho as <-.
  destruct Hb as (Hadds & _ & pre & r & conn & d & e & _ & Hev & _ & _ & Hgets).
  split; [reflexivity|]. split; [reflexivity|].
  split; [rewrite Hgets; reflexivity|].
  split; [exact Hadds|]. split; [exact Hclose|]. reflexivity.
Defined.
